(** * Lead validation and quality pipeline: a shallow embedding

    The development follows the JavaScript services of the repository:
    - [leadQualityService.js]   (module [LeadQualityService]),
    - [batchLeadService.js]     (module [BatchLeadService]),
    - [visualInspector.js]      (module [VisualInspector]),
    - [cacheService.js]         (module [CacheService]).

    JavaScript values are modelled by the inductive type [JSValue]; code that
    can throw lives in the error monad [Result]; code that talks to external
    services threads the history of the calls it made. *)

From Stdlib Require Import ZArith QArith Qabs Qround Lqa Bool List String Ascii Lia.
From stdpp Require Import base option gmap strings pretty sorting.
Import ListNotations.

Open Scope string_scope.
Open Scope list_scope.

(** ** JavaScript values *)
Module JS.

(** A finite number is a rational; [JNaN] is the not-a-number value.
    Arrays and objects are trees: the records handled by the services come
    out of [JSON.parse] or of an HTTP body, so they have no sharing. *)
#[local] Set Warnings "-register-all".
Inductive JSValue : Type :=
| JUndefined
| JNull
| JBool (b : bool)
| JNum (q : Q)
| JNaN
| JStr (s : string)
| JArr (items : list JSValue)
| JObj (fields : list (string * JSValue)).

(** Exceptions: [Throw m] is [throw new Error(m)] (or a [TypeError] with
    message [m]). *)
Inductive Result (A : Type) : Type :=
| Ok (a : A)
| Throw (message : string).
Arguments Ok {A} a.
Arguments Throw {A} message.

#[global] Instance result_ret : MRet Result := fun A a => Ok a.
#[global] Instance result_bind : MBind Result := fun A B f m =>
  match m with
  | Ok a => f a
  | Throw e => Throw e
  end.

(** [try { body } catch (error) { handler(error.message) }] *)
Definition try_catch {A} (body : Result A) (handler : string -> Result A) : Result A :=
  match body with
  | Ok a => Ok a
  | Throw e => handler e
  end.

(** ToBoolean *)
Definition truthy (v : JSValue) : bool :=
  match v with
  | JUndefined | JNull | JNaN => false
  | JBool b => b
  | JNum q => negb (Qeq_bool q 0)
  | JStr s => negb (String.eqb s EmptyString)
  | JArr _ | JObj _ => true
  end.

(** [a || b] *)
Definition js_or (a b : JSValue) : JSValue := if truthy a then a else b.

(** [a === b].  Two arrays or two objects are strictly equal only when
    they are the same reference; the operands compared in the services come
    from different documents, hence are never the same reference. *)
Definition strict_eq (a b : JSValue) : bool :=
  match a, b with
  | JUndefined, JUndefined => true
  | JNull, JNull => true
  | JBool x, JBool y => Bool.eqb x y
  | JNum x, JNum y => Qeq_bool x y
  | JStr x, JStr y => String.eqb x y
  | _, _ => false
  end.

(** [typeof v] *)
Definition typeof (v : JSValue) : string :=
  match v with
  | JUndefined => "undefined"
  | JNull | JArr _ | JObj _ => "object"
  | JBool _ => "boolean"
  | JNum _ | JNaN => "number"
  | JStr _ => "string"
  end.

Fixpoint lookup_field (k : string) (fields : list (string * JSValue)) : JSValue :=
  match fields with
  | [] => JUndefined
  | (k', v) :: rest => if String.eqb k k' then v else lookup_field k rest
  end.

(** [o.k] for the property names used by the services (none of them is
    defined on a built-in prototype): reading a property of [undefined] or
    [null] throws, a primitive or an array has no such property. *)
Definition get (o : JSValue) (k : string) : Result JSValue :=
  match o with
  | JUndefined => Throw ("Cannot read properties of undefined (reading '" +:+ k +:+ "')")
  | JNull => Throw ("Cannot read properties of null (reading '" +:+ k +:+ "')")
  | JObj fields => Ok (lookup_field k fields)
  | _ => Ok JUndefined
  end.

Section Coercion.

(** ToNumber on strings, arrays and objects (StringToNumber and
  ToPrimitive of the engine); [None] is NaN. *)
Variable coerce : JSValue -> option Q.

Definition to_number (v : JSValue) : option Q :=
  match v with
  | JUndefined | JNaN => None
  | JNull => Some 0%Q
  | JBool b => Some (if b then 1%Q else 0%Q)
  | JNum q => Some q
  | JStr _ | JArr _ | JObj _ => coerce v
  end.

(** [v >= n] for a numeric literal [n] *)
Definition js_ge (v : JSValue) (n : Q) : bool :=
  match to_number v with
  | Some q => Qle_bool n q
  | None => false
  end.

(** [Math.abs(v - n)] *)
Definition abs_diff (v : JSValue) (n : Q) : JSValue :=
  match to_number v with
  | Some q => JNum (Qabs (q - n))
  | None => JNaN
  end.

End Coercion.

End JS.
Import JS.

(** ** leadQualityService.js *)
Module LeadQualityService.

Inductive Severity : Type := none | minor | major.
Inductive QualityScore : Type := high | medium | low.

(** An entry pushed on [discrepancy.details]. *)
Record Detail : Type := mkDetail {
  field : string;
  zillowValue : JSValue;
  visualValue : JSValue;
  detailConfidence : JSValue
}.

Record Discrepancy : Type := mkDiscrepancy {
  detected : bool;
  type : option string;
  details : list Detail;
  confidenceDiff : JSValue;
  severity : Severity
}.

(** The object literal at the head of [compareZillowWithVisual]. *)
Definition fresh_discrepancy : Discrepancy :=
  {| detected := false; type := None; details := []; confidenceDiff := JNum 0;
     severity := none |}.

Definition set_detected (d : Discrepancy) : Discrepancy :=
  {| detected := true; type := type d; details := details d;
     confidenceDiff := confidenceDiff d; severity := severity d |}.

Definition set_type (t : string) (d : Discrepancy) : Discrepancy :=
  {| detected := detected d; type := Some t; details := details d;
     confidenceDiff := confidenceDiff d; severity := severity d |}.

(** [if (!discrepancy.type) discrepancy.type = t]; every tag assigned by
    the service is a non-empty string, so a tag once set is truthy. *)
Definition set_type_if_unset (t : string) (d : Discrepancy) : Discrepancy :=
  match type d with
  | None => set_type t d
  | Some _ => d
  end.

Definition push_detail (x : Detail) (d : Discrepancy) : Discrepancy :=
  {| detected := detected d; type := type d; details := details d ++ [x];
     confidenceDiff := confidenceDiff d; severity := severity d |}.

Definition set_severity (s : Severity) (d : Discrepancy) : Discrepancy :=
  {| detected := detected d; type := type d; details := details d;
     confidenceDiff := confidenceDiff d; severity := s |}.

Definition set_confidenceDiff (v : JSValue) (d : Discrepancy) : Discrepancy :=
  {| detected := detected d; type := type d; details := details d;
     confidenceDiff := v; severity := severity d |}.

Section Reconciler.

Variable coerce : JSValue -> option Q.

Definition comparePoolData (zillowData visualAnalysis : JSValue) (discrepancy : Discrepancy)
  : Result Discrepancy :=
  zp ← get zillowData "has_pool";
  vp ← get visualAnalysis "has_pool";
  vc ← get visualAnalysis "confidence";
  let zillowHasPool := js_or zp (JBool false) in
  let visualHasPool := js_or vp (JBool false) in
  let visualConfidence := js_or vc (JNum 0) in
  (* Check for pool mismatch *)
  let d1 :=
    if negb (strict_eq zillowHasPool visualHasPool) then
      let d := push_detail (mkDetail "has_pool" zillowHasPool visualHasPool visualConfidence)
                 (set_type "pool_mismatch" (set_detected discrepancy)) in
      if js_ge coerce visualConfidence 80 then set_severity major d
      else if js_ge coerce visualConfidence 60 then set_severity minor d
      else d
    else discrepancy in
  (* Check pool type consistency if both have pools *)
  d2 ← (if truthy zillowHasPool && truthy visualHasPool then
          zt ← get zillowData "pool_type";
          vt ← get visualAnalysis "pool_type";
          let zillowPoolType := js_or zt JNull in
          let visualPoolType := js_or vt JNull in
          if truthy zillowPoolType && truthy visualPoolType
             && negb (strict_eq zillowPoolType visualPoolType) then
            mret (push_detail
                    (mkDetail "pool_type" zillowPoolType visualPoolType visualConfidence)
                    (set_type_if_unset "pool_type_mismatch" (set_detected d1)))
          else mret d1
        else mret d1);
  mret (set_confidenceDiff (abs_diff coerce visualConfidence 50) d2).

Definition compareBackyardData (zillowData visualAnalysis : JSValue) (discrepancy : Discrepancy)
  : Result Discrepancy :=
  vc ← get visualAnalysis "confidence";
  vfa ← get visualAnalysis "estimated_free_area";
  vud ← get visualAnalysis "is_underdeveloped";
  vdp ← get visualAnalysis "development_potential";
  let visualConfidence := js_or vc (JNum 0) in
  let visualFreeArea := js_or vfa (JStr "low") in
  let isUnderdeveloped := js_or vud (JBool false) in
  let developmentPotential := js_or vdp (JStr "low") in
  if truthy isUnderdeveloped && strict_eq developmentPotential (JStr "high") then
    (* This is a GOOD lead: no discrepancy to report *)
    mret discrepancy
  else
    zls ← get zillowData "lot_size";
    zhb ← get zillowData "has_backyard";
    let zillowLotSize := js_or zls JNull in
    let zillowHasBackyard := negb (strict_eq zhb (JBool false)) in
    let d1 :=
      if zillowHasBackyard && strict_eq visualFreeArea (JStr "low")
         && js_ge coerce visualConfidence 90 then
        set_severity major
          (push_detail
             (mkDetail "estimated_free_area"
                (if truthy zillowLotSize then JStr "large" else JStr "unknown")
                visualFreeArea visualConfidence)
             (set_type "backyard_size_mismatch" (set_detected discrepancy)))
      else discrepancy in
    zst ← get zillowData "surface_type";
    vst ← get visualAnalysis "surface_type";
    let d2 :=
      if truthy zst && truthy vst then
        if negb (strict_eq zst vst) then
          set_severity minor
            (push_detail (mkDetail "surface_type" zst vst visualConfidence)
               (set_type_if_unset "surface_type_mismatch" (set_detected d1)))
        else d1
      else d1 in
    mret (set_confidenceDiff (abs_diff coerce visualConfidence 50) d2).

Definition compareZillowWithVisual (zillowData visualAnalysis leadType : JSValue)
  : Result Discrepancy :=
  let discrepancy := fresh_discrepancy in
  if negb (truthy zillowData) || negb (truthy visualAnalysis) then mret discrepancy
  else if strict_eq leadType (JStr "PoolLeadGen") then
    comparePoolData zillowData visualAnalysis discrepancy
  else if strict_eq leadType (JStr "BackyardBoost") then
    compareBackyardData zillowData visualAnalysis discrepancy
  else mret discrepancy.

(** [`${discrepancy.type}`]: a [null] tag prints as "null". *)
Definition show_type (t : option string) : string :=
  match t with
  | Some s => s
  | None => "null"
  end.

(** The [details] object built by [calculateLeadQuality]; [poolConfidence]
    and [backyardConfidence] are present for their lead type only. *)
Record QualityDetails : Type := mkQualityDetails {
  qd_visualConfidence : JSValue;
  qd_discrepancyDetected : bool;
  qd_discrepancyType : option string;
  qd_discrepancySeverity : Severity;
  qd_leadType : JSValue;
  qd_poolConfidence : option JSValue;
  qd_backyardConfidence : option JSValue
}.

Record QualityAssessment : Type := mkQualityAssessment {
  qualityScore : QualityScore;
  confidence : JSValue;
  reasoning : list string;
  qualityDetails : option QualityDetails
}.

Definition calculateLeadQuality (zillowData visualAnalysis : JSValue)
  (discrepancy : Discrepancy) (leadType : JSValue) : Result QualityAssessment :=
  if negb (truthy visualAnalysis) then
    mret (mkQualityAssessment low (JNum 0) ["Visual analysis failed or unavailable"] None)
  else
    vc ← get visualAnalysis "confidence";
    let visualConfidence := js_or vc (JNum 0) in
    (* Base scoring on visual confidence: the three branches assign the same value *)
    let confidence := visualConfidence in
    (* Adjust score based on discrepancies *)
    let '(qualityScore, reasoning) :=
      if negb (detected discrepancy) then
        if js_ge coerce visualConfidence 80 then
          (high, ["Visual validation confirms Zillow data with high confidence"])
        else if js_ge coerce visualConfidence 60 then
          (medium, ["Visual validation confirms Zillow data with moderate confidence"])
        else if js_ge coerce visualConfidence 50 then
          (medium, ["Visual validation has moderate confidence"])
        else
          (medium, ["Visual validation has low confidence but no contradictions"])
      else
        match severity discrepancy with
        | major =>
            (low, ["Major discrepancy detected: " +:+ show_type (type discrepancy);
                   "Lead requires manual review before use"])
        | minor =>
            if strict_eq leadType (JStr "BackyardBoost") then
              (medium, ["Minor discrepancy detected: " +:+ show_type (type discrepancy);
                        "Lead still viable for BackyardBoost opportunities"])
            else
              (medium, ["Minor discrepancy detected: " +:+ show_type (type discrepancy);
                        "Lead quality reduced due to data inconsistency"])
        | none => (medium, [])
        end in
    let details :=
      mkQualityDetails visualConfidence (detected discrepancy) (type discrepancy)
        (severity discrepancy) leadType None None in
    (* Lead-type specific quality factors *)
    if strict_eq leadType (JStr "PoolLeadGen") then
      vp ← get visualAnalysis "has_pool";
      let details := mkQualityDetails visualConfidence (detected discrepancy)
                       (type discrepancy) (severity discrepancy) leadType
                       (Some (js_or vc (JNum 0))) None in
      let reasoning :=
        if truthy vp && js_ge coerce visualConfidence 85
        then reasoning ++ ["Pool presence confirmed with high confidence"]
        else reasoning in
      mret (mkQualityAssessment qualityScore confidence reasoning (Some details))
    else if strict_eq leadType (JStr "BackyardBoost") then
      vud ← get visualAnalysis "is_underdeveloped";
      vdp ← get visualAnalysis "development_potential";
      veb ← get visualAnalysis "is_empty_backyard";
      let details := mkQualityDetails visualConfidence (detected discrepancy)
                       (type discrepancy) (severity discrepancy) leadType
                       None (Some (js_or vc (JNum 0))) in
      let isUnderdeveloped := js_or vud (JBool false) in
      let developmentPotential := js_or vdp (JStr "low") in
      let '(qualityScore, reasoning) :=
        if truthy isUnderdeveloped && strict_eq developmentPotential (JStr "high") then
          (match qualityScore with medium => high | q => q end,
           reasoning ++ ["Underdeveloped backyard with high development potential"])
        else (qualityScore, reasoning) in
      let reasoning :=
        if truthy veb && js_ge coerce visualConfidence 75
        then reasoning ++ ["Empty backyard confirmed - good opportunity for development"]
        else reasoning in
      mret (mkQualityAssessment qualityScore confidence reasoning (Some details))
    else
      mret (mkQualityAssessment qualityScore confidence reasoning (Some details)).

Definition getRecommendation (qualityScore : QualityScore) (discrepancy : Discrepancy) : string :=
  match qualityScore with
  | high => "APPROVE - Lead meets quality standards"
  | medium =>
      (* For medium quality, only reject if there are major discrepancies *)
      if detected discrepancy && match severity discrepancy with major => true | _ => false end
      then "REVIEW - Major discrepancies detected, manual review recommended"
      else "APPROVE - Lead meets quality standards"
  | low => "REJECT - Lead quality too low, major discrepancies detected"
  end.

Record FlagEvidence : Type := mkFlagEvidence {
  fe_satelliteImageUrl : JSValue;
  fe_zillowData : JSValue;
  fe_visualAnalysis : JSValue;
  fe_discrepancyDetails : list Detail;
  fe_visualConfidence : JSValue;
  fe_leadType : JSValue
}.

Record Flag : Type := mkFlag {
  flag_leadId : JSValue;
  flagType : option string;
  flaggedAt : string;
  flag_evidence : FlagEvidence;
  flag_status : string;
  requiresReview : bool
}.

(** [new Date().toISOString()] at the time of the call. *)
Variable now : string.

Definition flagLeadDiscrepancy (leadId : JSValue) (discrepancyType : option string)
  (evidence : FlagEvidence) : Flag :=
  {| flag_leadId := leadId;
     flagType := discrepancyType;
     flaggedAt := now;
     flag_evidence :=
       {| fe_satelliteImageUrl := js_or (fe_satelliteImageUrl evidence) JNull;
          fe_zillowData := js_or (fe_zillowData evidence) (JObj []);
          fe_visualAnalysis := js_or (fe_visualAnalysis evidence) (JObj []);
          fe_discrepancyDetails := fe_discrepancyDetails evidence;
          fe_visualConfidence := js_or (fe_visualConfidence evidence) (JNum 0);
          fe_leadType := js_or (fe_leadType evidence) JNull |};
     flag_status := "flagged";
     requiresReview := true |}.

Record ReportDiscrepancy : Type := mkReportDiscrepancy {
  rd_detected : bool;
  rd_type : option string;
  rd_severity : Severity;
  rd_details : list Detail
}.

Record QualityReport : Type := mkQualityReport {
  report_leadId : JSValue;
  report_leadType : JSValue;
  assessmentTimestamp : string;
  report_qualityScore : QualityScore;
  report_confidence : JSValue;
  report_reasoning : list string;
  report_discrepancy : ReportDiscrepancy;
  evidence_satelliteImageUrl : JSValue;
  evidence_visualAnalysis : JSValue;
  evidence_zillowData : JSValue;
  recommendation : string;
  flag : option Flag
}.

Definition generateQualityReport (leadId zillowData visualValidation leadType : JSValue)
  : Result QualityReport :=
  va ← get visualValidation "analysis";
  url ← get visualValidation "satelliteImageUrl";
  let visualAnalysis := js_or va (JObj []) in
  let satelliteImageUrl := js_or url JNull in
  (* Compare data *)
  discrepancy ← compareZillowWithVisual zillowData visualAnalysis leadType;
  (* Calculate quality *)
  qualityAssessment ← calculateLeadQuality zillowData visualAnalysis discrepancy leadType;
  vc ← get visualAnalysis "confidence";
  mret {| report_leadId := leadId;
          report_leadType := leadType;
          assessmentTimestamp := now;
          report_qualityScore := qualityScore qualityAssessment;
          report_confidence := confidence qualityAssessment;
          report_reasoning := reasoning qualityAssessment;
          report_discrepancy :=
            mkReportDiscrepancy (detected discrepancy) (type discrepancy)
              (severity discrepancy) (details discrepancy);
          evidence_satelliteImageUrl := satelliteImageUrl;
          evidence_visualAnalysis := visualAnalysis;
          evidence_zillowData := zillowData;
          recommendation := getRecommendation (qualityScore qualityAssessment) discrepancy;
          (* Flag if needed *)
          flag :=
            if detected discrepancy && match severity discrepancy with major => true | _ => false end
            then Some (flagLeadDiscrepancy leadId (type discrepancy)
                         (mkFlagEvidence satelliteImageUrl zillowData visualAnalysis
                            (details discrepancy) (js_or vc (JNum 0)) leadType))
            else None |}.

End Reconciler.

End LeadQualityService.

(** ** batchLeadService.js *)
Module BatchLeadService.

Record PriceRange : Type := mkPriceRange { min : Z; max : Z }.

(** Price ranges for breaking down searches. *)
Definition PRICE_RANGES : list PriceRange :=
  [ mkPriceRange 0 100000;
    mkPriceRange 100001 300000;
    mkPriceRange 300001 500000;
    mkPriceRange 500001 750000;
    mkPriceRange 750001 1000000;
    mkPriceRange 1000001 1500000;
    mkPriceRange 1500001 2000000;
    mkPriceRange 2000001 5000000 ].

(** Always fetch 15 more leads to ensure we have enough valid ones. *)
Definition getBufferSize (requestedLeads : Z) : Z := (requestedLeads + 15)%Z.

Section Validity.

Variable coerce : JSValue -> option Q.

(** [!property || !visualValidation || !visualValidation.analysis], evaluated
    left to right with short circuit. *)
Definition missing_input (property visualValidation : JSValue) : Result bool :=
  if negb (truthy property) then mret true
  else if negb (truthy visualValidation) then mret true
  else analysis ← get visualValidation "analysis"; mret (negb (truthy analysis)).

(** The value returned is a JavaScript value: the theorems show that it is
    always a boolean. *)
Definition isValidLead (property leadType visualValidation : JSValue) : Result JSValue :=
  missing ← missing_input property visualValidation;
  if (missing : bool) then mret (JBool false)
  else
    analysis ← get visualValidation "analysis";
    if strict_eq leadType (JStr "PoolLeadGen") then
      (* For pool leads: must have a pool *)
      has_pool ← get analysis "has_pool";
      if strict_eq has_pool (JBool true) then
        confidence ← get analysis "confidence";
        mret (JBool (js_ge coerce confidence 60))
      else mret (JBool false)
    else if strict_eq leadType (JStr "BackyardBoost") then
      (* For backyard leads: a backyard that is not empty and is modifiable *)
      is_empty_backyard ← get analysis "is_empty_backyard";
      if strict_eq is_empty_backyard (JBool false) then
        confidence ← get analysis "confidence";
        if js_ge coerce confidence 60 then
          surface_type ← get analysis "surface_type";
          mret (JBool (negb (strict_eq surface_type (JStr "concrete"))))
        else mret (JBool false)
      else mret (JBool false)
    else mret (JBool false).

End Validity.

(** The argument of [zillowService.searchProperties]. *)
Record SearchRequest : Type := mkSearchRequest {
  location : string;
  minPrice : Z;
  maxPrice : Z;
  minBedrooms : Z;
  maxBedrooms : Z
}.

Section Search.

(** Property identifiers (the Zillow [zpid]) are compared by the [Set]
    [seenIds]; any type with decidable equality will do. *)
Context {Id : Type} `{Countable Id}.

Record Property : Type := mkProperty { id : Id; attributes : JSValue }.

(** The listings client.  [Throw] is a rejected promise; [Ok None] is an
    answer without [data.properties]; [Ok (Some ps)] carries the listings. *)
Variable searchProperties : SearchRequest -> Result (option (list Property)).

Record SearchState : Type := mkSearchState {
  allProperties : list Property;
  seenIds : gset Id;
  requests : list SearchRequest
}.

Definition reached (totalNeeded : Z) (st : SearchState) : bool :=
  (totalNeeded <=? Z.of_nat (length (allProperties st)))%Z.

(** The inner [for (const property of results.data.properties)] loop. *)
Fixpoint add_properties (totalNeeded : Z) (properties : list Property) (st : SearchState)
  : SearchState :=
  match properties with
  | [] => st
  | property :: rest =>
      (* Avoid duplicates *)
      if decide (id property ∈ seenIds st) then add_properties totalNeeded rest st
      else
        let st' := mkSearchState (allProperties st ++ [property])
                     ({[ id property ]} ∪ seenIds st) (requests st) in
        if reached totalNeeded st' then st'
        else add_properties totalNeeded rest st'
  end.

(** The outer [for (const priceRange of PRICE_RANGES)] loop; a search that
    throws is logged and the loop continues with the next price range. *)
Fixpoint search_ranges (location : string) (leadType : JSValue) (totalNeeded : Z)
  (ranges : list PriceRange) (st : SearchState) : SearchState :=
  match ranges with
  | [] => st
  | priceRange :: rest =>
      if reached totalNeeded st then st
      else
        let request :=
          mkSearchRequest location (min priceRange) (max priceRange)
            (if strict_eq leadType (JStr "PoolLeadGen") then 3 else 2) 6 in
        let asked := mkSearchState (allProperties st) (seenIds st) (requests st ++ [request]) in
        let st' :=
          match searchProperties request with
          | Ok (Some properties) => add_properties totalNeeded properties asked
          | Ok None => asked
          | Throw _ => asked
          end in
        search_ranges location leadType totalNeeded rest st'
  end.

(** Returns the final state: [allProperties] is the JavaScript result,
    [requests] the searches that were issued, in order. *)
Definition searchAcrossPriceRanges (location : string) (leadType : JSValue) (totalNeeded : Z)
  : SearchState :=
  search_ranges location leadType totalNeeded PRICE_RANGES (mkSearchState [] ∅ []).

End Search.

End BatchLeadService.

(** ** JSON.parse

    The services call the built-in [JSON.parse]; the theorems below are stated
    for any parser.  [JSON.parse] is the parser used to run the services on
    concrete responses: the JSON grammar of ECMA-404, with numbers read as
    exact rationals and a [\uXXXX] escape stored as the UTF-8 bytes of its
    code unit. *)
Module JSON.

Definition is_ws (c : ascii) : bool :=
  match c with
  | " "%char | "009"%char | "010"%char | "013"%char => true
  | _ => false
  end.

Fixpoint skip_ws (s : string) : string :=
  match s with
  | String c r => if is_ws c then skip_ws r else s
  | EmptyString => s
  end.

Definition digit_of (c : ascii) : option Z :=
  let n := Z.of_nat (nat_of_ascii c) in
  if ((48 <=? n) && (n <=? 57))%Z then Some (n - 48)%Z else None.

Definition hex_of (c : ascii) : option Z :=
  let n := Z.of_nat (nat_of_ascii c) in
  if ((48 <=? n) && (n <=? 57))%Z then Some (n - 48)%Z
  else if ((65 <=? n) && (n <=? 70))%Z then Some (n - 55)%Z
  else if ((97 <=? n) && (n <=? 102))%Z then Some (n - 87)%Z
  else None.

(** Reads a maximal run of decimal digits: the value read so far, the
    number of digits read, and the rest of the input. *)
Fixpoint digits (s : string) (acc : Z) (count : Z) : Z * Z * string :=
  match s with
  | String c r =>
      match digit_of c with
      | Some d => digits r (10 * acc + d)%Z (count + 1)%Z
      | None => (acc, count, s)
      end
  | EmptyString => (acc, count, s)
  end.

(** [mantissa * 10 ^ scale] *)
Definition scaled (mantissa scale : Z) : Q :=
  if (0 <=? scale)%Z then inject_Z (mantissa * 10 ^ scale)
  else Qmake mantissa (Z.to_pos (10 ^ (- scale))).

Definition syntax_error {A} : Result A := Throw "Unexpected token in JSON".

(** int frac? exp?, after an optional minus sign. *)
Definition parse_number (s : string) : Result (JSValue * string) :=
  let '(negative, s) :=
    match s with
    | String "-"%char r => (true, r)
    | _ => (false, s)
    end in
  let '(int, n, r) := digits s 0 0 in
  let leading_zero := match s with String "0"%char _ => true | _ => false end in
  if (n =? 0)%Z || (leading_zero && (1 <? n)%Z) then syntax_error
  else
    frac ← match r with
           | String "."%char r1 =>
               let '(m, k, r2) := digits r1 int 0 in
               if (k =? 0)%Z then syntax_error else mret (m, k, r2)
           | _ => mret (int, 0%Z, r)
           end;
    let '(mantissa, k, r) := frac in
    expo ← match r with
           | String c r1 =>
               if Ascii.eqb c "e" || Ascii.eqb c "E" then
                 let '(sign, r2) :=
                   match r1 with
                   | String "-"%char r2 => ((-1)%Z, r2)
                   | String "+"%char r2 => (1%Z, r2)
                   | _ => (1%Z, r1)
                   end in
                 let '(e, j, r3) := digits r2 0 0 in
                 if (j =? 0)%Z then syntax_error else mret ((sign * e)%Z, r3)
               else mret (0%Z, r)
           | EmptyString => mret (0%Z, r)
           end;
    let '(e, r) := expo in
    let q := scaled mantissa (e - k) in
    mret (JNum (if negative then Qopp q else q), r).

Definition byte (n : Z) : ascii := ascii_of_nat (Z.to_nat n).

(** UTF-8 bytes of a 16-bit code unit. *)
Definition utf8 (u : Z) : string :=
  if (u <? 128)%Z then String (byte u) EmptyString
  else if (u <? 2048)%Z then
    String (byte (192 + u / 64)) (String (byte (128 + u mod 64)) EmptyString)
  else
    String (byte (224 + u / 4096))
      (String (byte (128 + (u / 64) mod 64)) (String (byte (128 + u mod 64)) EmptyString)).

Definition parse_escape (s : string) : Result (string * string) :=
  match s with
  | String c r =>
      match c with
      | "034"%char | "\"%char | "/"%char => mret (String c EmptyString, r)
      | "b"%char => mret (String "008"%char EmptyString, r)
      | "f"%char => mret (String "012"%char EmptyString, r)
      | "n"%char => mret (String "010"%char EmptyString, r)
      | "r"%char => mret (String "013"%char EmptyString, r)
      | "t"%char => mret (String "009"%char EmptyString, r)
      | "u"%char =>
          match r with
          | String a (String b (String c (String d r'))) =>
              match hex_of a, hex_of b, hex_of c, hex_of d with
              | Some x, Some y, Some z, Some w =>
                  mret (utf8 (((x * 16 + y) * 16 + z) * 16 + w)%Z, r')
              | _, _, _, _ => syntax_error
              end
          | _ => syntax_error
          end
      | _ => syntax_error
      end
  | EmptyString => syntax_error
  end.

(** The characters of a string literal, after its opening quote. *)
Fixpoint parse_chars (fuel : nat) (s : string) : Result (string * string) :=
  match fuel with
  | O => syntax_error
  | S fuel =>
      match s with
      | EmptyString => syntax_error
      | String c r =>
          if Ascii.eqb c "034" then mret (EmptyString, r)
          else if Ascii.eqb c "\" then
            esc ← parse_escape r;
            more ← parse_chars fuel (snd esc);
            mret (fst esc +:+ fst more, snd more)
          else if (nat_of_ascii c <? 32)%nat then syntax_error
          else
            more ← parse_chars fuel r;
            mret (String c (fst more), snd more)
      end
  end.

Definition literal (word : string) (v : JSValue) (s : string) : Result (JSValue * string) :=
  if String.prefix word s then mret (v, String.substring (String.length word)
                                          (String.length s - String.length word) s)
  else syntax_error.

(** A repeated name keeps its first position and takes the last value. *)
Fixpoint set_field (k : string) (v : JSValue) (fields : list (string * JSValue))
  : list (string * JSValue) :=
  match fields with
  | [] => [(k, v)]
  | (k', v') :: rest =>
      if String.eqb k k' then (k, v) :: rest else (k', v') :: set_field k v rest
  end.

Fixpoint parse_value (fuel : nat) (s : string) : Result (JSValue * string) :=
  match fuel with
  | O => syntax_error
  | S fuel =>
      match skip_ws s with
      | EmptyString => syntax_error
      | String c r =>
          if Ascii.eqb c "{" then
            match skip_ws r with
            | String "}"%char r' => mret (JObj [], r')
            | _ => parse_members fuel r []
            end
          else if Ascii.eqb c "[" then
            match skip_ws r with
            | String "]"%char r' => mret (JArr [], r')
            | _ => parse_elements fuel r []
            end
          else if Ascii.eqb c "034" then
            str ← parse_chars (String.length r) r;
            mret (JStr (fst str), snd str)
          else if Ascii.eqb c "t" then literal "true" (JBool true) (String c r)
          else if Ascii.eqb c "f" then literal "false" (JBool false) (String c r)
          else if Ascii.eqb c "n" then literal "null" JNull (String c r)
          else parse_number (String c r)
      end
  end
with parse_members (fuel : nat) (s : string) (acc : list (string * JSValue))
  : Result (JSValue * string) :=
  match fuel with
  | O => syntax_error
  | S fuel =>
      match skip_ws s with
      | String "034"%char r =>
          key ← parse_chars (String.length r) r;
          match skip_ws (snd key) with
          | String ":"%char r1 =>
              member ← parse_value fuel r1;
              let acc := set_field (fst key) (fst member) acc in
              match skip_ws (snd member) with
              | String ","%char r2 => parse_members fuel r2 acc
              | String "}"%char r2 => mret (JObj acc, r2)
              | _ => syntax_error
              end
          | _ => syntax_error
          end
      | _ => syntax_error
      end
  end
with parse_elements (fuel : nat) (s : string) (acc : list JSValue)
  : Result (JSValue * string) :=
  match fuel with
  | O => syntax_error
  | S fuel =>
      element ← parse_value fuel s;
      let acc := acc ++ [fst element] in
      match skip_ws (snd element) with
      | String ","%char r => parse_elements fuel r acc
      | String "]"%char r => mret (JArr acc, r)
      | _ => syntax_error
      end
  end.

(** Every recursive call consumes a character, so the length of the text
    (plus one) is enough fuel. *)
Definition parse (text : string) : Result JSValue :=
  parsed ← parse_value (S (String.length text)) text;
  match skip_ws (snd parsed) with
  | EmptyString => mret (fst parsed)
  | _ => syntax_error
  end.

End JSON.

(** ** visualInspector.js *)
Module VisualInspector.

(** The external services reached over HTTP. *)
Inductive Endpoint : Type :=
| GoogleStaticMap   (* googleMapsClient.get of the static map *)
| ImageDownload     (* googleMapsClient.get of the image, for Gemini *)
| OpenAI            (* primary vision provider *)
| Groq              (* second provider *)
| Gemini.           (* third provider *)

#[global] Instance Endpoint_eq_dec : EqDecision Endpoint.
Proof. solve_decision. Defined.

(** The requests sent so far, oldest first. *)
Definition History : Type := list Endpoint.

(** An asynchronous computation: it extends the history of the requests and
    either resolves or rejects.  The history survives a rejection. *)
Record IO (A : Type) : Type := mkIO { run : History -> Result A * History }.
Arguments mkIO {A} run.
Arguments run {A} _ _.

#[global] Instance io_ret : MRet IO := fun A a => mkIO (fun h => (Ok a, h)).
#[global] Instance io_bind : MBind IO := fun A B f m =>
  mkIO (fun h =>
          match run m h with
          | (Ok a, h') => run (f a) h'
          | (Throw e, h') => (Throw e, h')
          end).

Definition throw {A} (message : string) : IO A := mkIO (fun h => (Throw message, h)).

Definition lift {A} (r : Result A) : IO A := mkIO (fun h => (r, h)).

(** [try { body } catch (error) { handler(error.message) }] *)
Definition io_try {A} (body : IO A) (handler : string -> IO A) : IO A :=
  mkIO (fun h =>
          match run body h with
          | (Ok a, h') => (Ok a, h')
          | (Throw e, h') => run (handler e) h'
          end).

(** [config.visualInspector]; a key that is not configured is the empty
    string (an absent key and an empty key are both falsy). *)
Record Config : Type := mkConfig {
  googleMapsApiKey : string;
  openaiApiKey : string;
  geminiApiKey : string;
  groqApiKey : string
}.

Definition configured (key : string) : bool := negb (String.eqb key EmptyString).

Record Validation : Type := mkValidation {
  leadType : JSValue;
  satelliteImageUrl : string;
  analysis : JSValue;
  timestamp : string
}.

Record ValidationResult : Type := mkValidationResult {
  success : bool;
  validation : Validation
}.

(** [responseText.match(/\{[\s\S]*\}/)]: from the first opening brace to
    the last closing brace after it. *)
Fixpoint from_first_open (s : string) : option string :=
  match s with
  | EmptyString => None
  | String c r => if Ascii.eqb c "{" then Some s else from_first_open r
  end.

Fixpoint upto_last_close (s : string) : option string :=
  match s with
  | EmptyString => None
  | String c r =>
      match upto_last_close r with
      | Some p => Some (String c p)
      | None => if Ascii.eqb c "}" then Some (String c EmptyString) else None
      end
  end.

Definition match_json (responseText : string) : option string :=
  from_first_open responseText ≫= upto_last_close.

(** [['PoolLeadGen', 'BackyardBoost'].includes(leadType)] *)
Definition supported (leadType : JSValue) : bool :=
  strict_eq leadType (JStr "PoolLeadGen") || strict_eq leadType (JStr "BackyardBoost").

(** [['high', 'medium', 'low'].includes(v)] *)
Definition is_level (v : JSValue) : bool :=
  strict_eq v (JStr "high") || strict_eq v (JStr "medium") || strict_eq v (JStr "low").

(** [typeof c !== 'number' || c < 0 || c > 100] *)
Definition invalid_confidence (c : JSValue) : bool :=
  match c with
  | JNum q => negb (Qle_bool 0 q) || negb (Qle_bool q 100)
  | JNaN => false
  | _ => true
  end.

Definition is_boolean (v : JSValue) : bool :=
  match v with
  | JBool _ => true
  | _ => false
  end.

Section Inspector.

(** The built-in [JSON.parse]. *)
Variable JSON_parse : string -> Result JSValue.

(** [new URLSearchParams(params).toString()] for the static-map request. *)
Variable query_string : JSValue -> JSValue -> string -> string.

(** [new Date().toISOString()] *)
Variable now : string.

(** The answer of a service to a request, given the requests made before:
    [Throw] is a transport, authentication or HTTP failure, [Ok text] the
    text of the body (for a vision provider, the content of its message). *)
Variable respond : History -> Endpoint -> Result string.

Variable config : Config.

(** A request to a service.  The body of the request (the prompt built by
    [generatePrompt] from the lead type and the optional property data, the
    image, the model name) does not appear: the answer is given by
    [respond]. *)
Definition request (e : Endpoint) : IO string :=
  mkIO (fun h => (respond h e, h ++ [e])).

Definition parseAnalysisResponse (responseText : string) (leadType : JSValue) : Result JSValue :=
  try_catch
    (match match_json responseText with
     | None => Throw "No JSON found in LLM response"
     | Some jsonMatch =>
         analysis ← JSON_parse jsonMatch;
         (* Validate required fields based on lead type *)
         if strict_eq leadType (JStr "PoolLeadGen") then
           has_pool ← get analysis "has_pool";
           if negb (is_boolean has_pool) then Throw "Invalid has_pool field in response"
           else
             confidence ← get analysis "confidence";
             if invalid_confidence confidence then Throw "Invalid confidence score in response"
             else mret analysis
         else if strict_eq leadType (JStr "BackyardBoost") then
           is_empty_backyard ← get analysis "is_empty_backyard";
           if negb (is_boolean is_empty_backyard)
           then Throw "Invalid is_empty_backyard field in response"
           else
             is_underdeveloped ← get analysis "is_underdeveloped";
             if negb (is_boolean is_underdeveloped)
             then Throw "Invalid is_underdeveloped field in response"
             else
               estimated_free_area ← get analysis "estimated_free_area";
               if negb (is_level estimated_free_area)
               then Throw "Invalid estimated_free_area in response"
               else
                 development_potential ← get analysis "development_potential";
                 if negb (is_level development_potential)
                 then Throw "Invalid development_potential in response"
                 else
                   confidence ← get analysis "confidence";
                   if invalid_confidence confidence
                   then Throw "Invalid confidence score in response"
                   else mret analysis
         else mret analysis
     end)
    (fun message => Throw ("Failed to parse LLM analysis: " +:+ message)).

Definition getGoogleMapsStaticImage (latitude longitude : JSValue) : IO string :=
  io_try
    (if negb (configured (googleMapsApiKey config))
     then throw "GOOGLE_MAPS_API_KEY is not configured"
     else if negb (String.eqb (typeof latitude) "number")
             || negb (String.eqb (typeof longitude) "number")
     then throw "Latitude and longitude must be numbers"
     else
       _ ← request GoogleStaticMap;
       mret ("https://maps.googleapis.com/maps/api/staticmap?"
             +:+ query_string latitude longitude (googleMapsApiKey config)))
    (fun message => throw ("Failed to fetch satellite image: " +:+ message)).

(** The guards shared by the three providers, after the key check. *)
Definition check_arguments (imageUrl : string) (leadType : JSValue) : IO unit :=
  if negb (configured imageUrl) then throw "Image URL is required"
  else if negb (supported leadType)
  then throw "Lead type must be either PoolLeadGen or BackyardBoost"
  else mret tt.

Definition analyzePropertyWithGroq (imageUrl : string) (leadType : JSValue) : IO JSValue :=
  io_try
    (if negb (configured (groqApiKey config)) then throw "GROQ_API_KEY is not configured"
     else
       _ ← check_arguments imageUrl leadType;
       analysisText ← request Groq;
       lift (parseAnalysisResponse analysisText leadType))
    (fun message => throw ("Failed to analyze image with Groq: " +:+ message)).

Definition fetchImageAsBase64 (imageUrl : string) : IO string :=
  io_try (request ImageDownload)
    (fun message => throw ("Failed to fetch image: " +:+ message)).

Definition analyzePropertyWithGemini (imageUrl : string) (leadType : JSValue) : IO JSValue :=
  io_try
    (if negb (configured (geminiApiKey config)) then throw "GEMINI_API_KEY is not configured"
     else
       _ ← check_arguments imageUrl leadType;
       _ ← fetchImageAsBase64 imageUrl;
       analysisText ← request Gemini;
       lift (parseAnalysisResponse analysisText leadType))
    (fun message => throw ("Failed to analyze image with Gemini: " +:+ message)).

(** The body of the outer [try] of [analyzePropertyWithLLM]. *)
Definition analyzeWithOpenAI (imageUrl : string) (leadType : JSValue) : IO JSValue :=
  if negb (configured (openaiApiKey config)) then analyzePropertyWithGroq imageUrl leadType
  else
    _ ← check_arguments imageUrl leadType;
    analysisText ← request OpenAI;
    lift (parseAnalysisResponse analysisText leadType).

(** The [catch] of [analyzePropertyWithLLM]: Groq, then Gemini; when both
    fail the error carries the message of the first failure. *)
Definition fallback (imageUrl : string) (leadType : JSValue) (message : string) : IO JSValue :=
  io_try (analyzePropertyWithGroq imageUrl leadType)
    (fun groqError =>
       io_try (analyzePropertyWithGemini imageUrl leadType)
         (fun geminiError =>
            throw ("Failed to analyze image with all providers (OpenAI, Groq, Gemini): "
                   +:+ message))).

Definition analyzePropertyWithLLM (imageUrl : string) (leadType : JSValue) : IO JSValue :=
  io_try (analyzeWithOpenAI imageUrl leadType) (fallback imageUrl leadType).

(** The optional [zillowData] argument only feeds the prompt. *)
Definition verify_property_visually (latitude longitude leadType : JSValue)
  : IO ValidationResult :=
  io_try
    ((* Step 1: Fetch satellite image *)
     satelliteImageUrl ← getGoogleMapsStaticImage latitude longitude;
     (* Step 2: Analyze image with LLM (with fallback) *)
     analysis ← analyzePropertyWithLLM satelliteImageUrl leadType;
     (* Step 3: Build validation result; the log line reads analysis.model *)
     _ ← lift (get analysis "model");
     mret (mkValidationResult true (mkValidation leadType satelliteImageUrl analysis now)))
    (fun message => throw ("Visual property verification failed: " +:+ message)).

End Inspector.

End VisualInspector.

(** ** cacheService.js *)
Module CacheService.

(** A stored entry: the expiry time [t] in milliseconds ([0]: never) and
    the value [v]. *)
Record Entry : Type := mkEntry { t : Z; v : JSValue }.

Section Cache.

(** [config.cache.ttl], in seconds. *)
Variable stdTTL : Z.

(** [String(key)] for a numeric key. *)
Variable number_key : Q -> string.

(** The [node-cache] package behind [this.cache] is not part of the sources.
    Its operations are modelled after the store of the specification: a
    process-wide key-to-value store with per-entry expiry, whose expired
    entries behave as absent. *)

(** Modelled from the spec: the check of [node-cache] on a key, which is
    missing from the sources; a key is a string or a number, and a number
    addresses the entry of its decimal text. *)
Definition slot (key : JSValue) : Result string :=
  match key with
  | JStr s => Ok s
  | JNum q => Ok (number_key q)
  | JNaN => Ok "NaN"
  | _ => Throw "The key argument has to be of type `string` or `number`"
  end.

(** Modelled from the spec: the expiry time given by [node-cache], missing
    from the sources, to an entry written at [now] with a time to live of
    [ttl] seconds ([0]: no expiry). *)
Definition livetime (now ttl : Z) : Z :=
  if (ttl =? 0)%Z then 0%Z else (now + ttl * 1000)%Z.

(** Modelled from the spec: the expiry test of [node-cache], missing from
    the sources; an entry with an expiry time in the past is expired. *)
Definition stale (now : Z) (e : Entry) : bool :=
  negb (t e =? 0)%Z && (t e <? now)%Z.

(** Modelled from the spec: [set] of [node-cache], missing from the
    sources; it throws on an invalid key and otherwise stores a copy of the
    value with its expiry time. *)
Definition NodeCache_set (now : Z) (key value : JSValue) (ttl : Z) (data : gmap string Entry)
  : Result bool * gmap string Entry :=
  match slot key with
  | Throw e => (Throw e, data)
  | Ok k => (Ok true, <[ k := mkEntry (livetime now ttl) value ]> data)
  end.

(** Modelled from the spec: [get] of [node-cache], missing from the
    sources; an expired entry behaves as absent and is removed. *)
Definition NodeCache_get (now : Z) (key : JSValue) (data : gmap string Entry)
  : Result JSValue * gmap string Entry :=
  match slot key with
  | Throw e => (Throw e, data)
  | Ok k =>
      match data !! k with
      | Some e => if stale now e then (Ok JUndefined, delete k data) else (Ok (v e), data)
      | None => (Ok JUndefined, data)
      end
  end.

(** Modelled from the spec: [has] of [node-cache], missing from the
    sources. *)
Definition NodeCache_has (now : Z) (key : JSValue) (data : gmap string Entry)
  : bool * gmap string Entry :=
  match slot key with
  | Throw _ => (false, data)
  | Ok k =>
      match data !! k with
      | Some e => if stale now e then (false, delete k data) else (true, data)
      | None => (false, data)
      end
  end.

(** Modelled from the spec: [del] of [node-cache], missing from the
    sources; the number of entries removed. *)
Definition NodeCache_del (key : JSValue) (data : gmap string Entry) : Z * gmap string Entry :=
  match slot key with
  | Throw _ => (0%Z, data)
  | Ok k =>
      match data !! k with
      | Some _ => (1%Z, delete k data)
      | None => (0%Z, data)
      end
  end.

(** [get(key)]: the cached value, or [undefined] if not found or expired. *)
Definition get (now : Z) (key : JSValue) (data : gmap string Entry)
  : Result JSValue * gmap string Entry :=
  match NodeCache_get now key data with
  | (Ok value, data') =>
      if negb (strict_eq value JUndefined) then (Ok value, data') else (Ok JUndefined, data')
  | (Throw e, data') => (Throw e, data')
  end.

(** [set(key, value, ttl = null)]: [None] is the default [null]; a failure
    of the store is caught and reported as [false]. *)
Definition set (now : Z) (key value : JSValue) (ttl : option Z) (data : gmap string Entry)
  : bool * gmap string Entry :=
  let stored :=
    match ttl with
    | Some seconds => NodeCache_set now key value seconds data
    | None => NodeCache_set now key value stdTTL data
    end in
  match stored with
  | (Ok _, data') => (true, data')
  | (Throw _, data') => (false, data')
  end.

Definition invalidate (key : JSValue) (data : gmap string Entry) : Z * gmap string Entry :=
  NodeCache_del key data.

Definition clear (data : gmap string Entry) : nat * gmap string Entry :=
  (size data, ∅).

Definition has (now : Z) (key : JSValue) (data : gmap string Entry) : bool * gmap string Entry :=
  NodeCache_has now key data.

(** The entry stored under [key] has expired at time [now]. *)
Definition expired (now : Z) (key : JSValue) (data : gmap string Entry) : bool :=
  match slot key with
  | Ok k =>
      match data !! k with
      | Some e => stale now e
      | None => false
      end
  | Throw _ => false
  end.

End Cache.

End CacheService.

(** ** cacheService.js: key generation *)
Module CacheKeys.

(** [Array.prototype.sort] without a comparator orders strings by their
    code units; the insertion below yields the same sorted array. *)
Fixpoint insert_key (k : string) (keys : list string) : list string :=
  match keys with
  | [] => [k]
  | h :: rest => if String.leb k h then k :: keys else h :: insert_key k rest
  end.

Definition sort_keys (keys : list string) : list string := foldr insert_key [] keys.

(** [parts.join(separator)] *)
Fixpoint join (separator : string) (parts : list string) : string :=
  match parts with
  | [] => EmptyString
  | [p] => p
  | p :: rest => p +:+ separator +:+ join separator rest
  end.

Section Keys.

(** The built-in [JSON.stringify], as a template literal prints its result. *)
Variable JSON_stringify : JSValue -> string.

(** [generateKey(prefix, params)]; [params] is the list of the own
    properties of the object. *)
Definition generateKey (prefix : string) (params : list (string * JSValue)) : string :=
  let sortedParams :=
    join "|" (map (fun key => key +:+ "=" +:+ JSON_stringify (lookup_field key params))
                (sort_keys (map fst params))) in
  if negb (String.eqb sortedParams EmptyString) then prefix +:+ ":" +:+ sortedParams
  else prefix.

End Keys.

End CacheKeys.

(** ** batchLeadService.js: validation of the candidates and the batch *)
Module Orchestrator.
Import LeadQualityService BatchLeadService VisualInspector.

(** The state of the process: the requests sent, the cache, and the number
    of readings of the clock made by the cache. *)
Record World : Type := mkWorld {
  w_history : History;
  w_cache : gmap string CacheService.Entry;
  w_ticks : nat
}.

Record Task (A : Type) : Type := mkTask { perform : World -> Result A * World }.
Arguments mkTask {A} perform.
Arguments perform {A} _ _.

#[global] Instance task_ret : MRet Task := fun A a => mkTask (fun w => (Ok a, w)).
#[global] Instance task_bind : MBind Task := fun A B f m =>
  mkTask (fun w =>
            match perform m w with
            | (Ok a, w') => perform (f a) w'
            | (Throw e, w') => (Throw e, w')
            end).

Definition fail {A} (message : string) : Task A := mkTask (fun w => (Throw message, w)).

Definition pure {A} (r : Result A) : Task A := mkTask (fun w => (r, w)).

(** [try { body } catch (error) { handler(error.message) }] *)
Definition attempt {A} (body : Task A) (handler : string -> Task A) : Task A :=
  mkTask (fun w =>
            match perform body w with
            | (Ok a, w') => (Ok a, w')
            | (Throw e, w') => perform (handler e) w'
            end).

(** A computation of the visual inspector, run on the history of the world. *)
Definition inspect {A} (m : IO A) : Task A :=
  mkTask (fun w =>
            let '(r, h) := run m (w_history w) in
            (r, mkWorld h (w_cache w) (w_ticks w))).

(** An entry pushed on [invalidLeads]; the address is absent from the entry
    of a candidate without coordinates. *)
Record InvalidLead : Type := mkInvalidLead {
  invalid_id : JSValue;
  invalid_address : option JSValue;
  reason : string
}.

(** An entry pushed on [validLeads]: the properties of the candidate,
    followed by [visualValidation], [qualityReport] and [leadType]. *)
Record Lead : Type := mkLead {
  lead_property : JSValue;
  visualValidation : JSValue;
  qualityReport : QualityReport;
  lead_leadType : JSValue
}.

Record Outcome : Type := mkOutcome {
  validLeads : list Lead;
  invalidLeads : list InvalidLead;
  totalValidated : nat
}.

(** [validationResult.validation], as a JavaScript object. *)
Definition validation_value (v : Validation) : JSValue :=
  JObj [("leadType", leadType v);
        ("satelliteImageUrl", JStr (satelliteImageUrl v));
        ("analysis", analysis v);
        ("timestamp", JStr (timestamp v))].

Record Metadata : Type := mkMetadata {
  meta_totalValidated : nat;
  totalValid : nat;
  totalInvalid : nat;
  bufferUsed : Z;
  meta_timestamp : string;
  source : string
}.

Record Statistics : Type := mkStatistics {
  validationRate : string;
  priceRangesSearched : nat;
  averageConfidence : JSValue
}.

Record BatchResult : Type := mkBatchResult {
  batch_success : bool;
  batch_location : string;
  batch_leadType : JSValue;
  requestedLeads : Z;
  deliveredLeads : nat;
  leads : list Lead;
  metadata : Metadata;
  statistics : Statistics
}.

(** A property of [results] in [getBatchLeadsMultiple]: the result of
    [getBatchLeads], or the object built by the [catch] block. *)
Inductive TypeResult : Type :=
| Delivered (result : BatchResult)
| Failed (error : string) (leadType : JSValue).

(** [r.success !== false] *)
Definition succeeded (r : TypeResult) : bool :=
  match r with
  | Delivered result => negb (Bool.eqb (batch_success result) false)
  | Failed _ _ => false
  end.

(** The assignment of an own property: an object keeps one property per
    key, listed here at the place of its first assignment. *)
Fixpoint assign {V : Type} (key : string) (entry : V) (results : list (string * V))
  : list (string * V) :=
  match results with
  | [] => [(key, entry)]
  | (k, e) :: rest =>
      if String.eqb key k then (k, entry) :: rest else (k, e) :: assign key entry rest
  end.

(** [results[key] = entry] on an object literal, for an entry that is an
    object: the key [__proto__] is the accessor of [Object.prototype], which
    replaces the prototype of [results] and adds no property; any other key
    names an own property. *)
Definition store {V : Type} (key : string) (entry : V) (results : list (string * V))
  : list (string * V) :=
  if String.eqb key "__proto__" then results else assign key entry results.

Record MultipleResult : Type := mkMultipleResult {
  multiple_success : bool;
  multiple_location : JSValue;
  multiple_requestedLeads : JSValue;
  results : list (string * TypeResult);
  multiple_timestamp : string
}.

Section Batch.

Variable coerce : JSValue -> option Q.
Variable JSON_parse : string -> Result JSValue.
Variable JSON_stringify : JSValue -> string.
Variable query_string : JSValue -> JSValue -> string -> string.
Variable now : string.
Variable respond : History -> Endpoint -> Result string.
Variable config : Config.
Variable stdTTL : Z.
Variable number_key : Q -> string.

(** [Date.now()] at the successive operations of the cache. *)
Variable clock : nat -> Z.

(** [(x).toFixed(2)] *)
Variable toFixed2 : Q -> string.

(** [(sum / validLeads.length).toFixed(2)], [sum] being the sum by [+] of
    the values [lead.visualValidation?.analysis?.confidence || 0]. *)
Variable mean_confidence : list JSValue -> JSValue.

Definition cache_get (key : string) : Task JSValue :=
  mkTask (fun w =>
            let '(r, data) :=
              CacheService.get number_key (clock (w_ticks w)) (JStr key) (w_cache w) in
            (r, mkWorld (w_history w) data (S (w_ticks w)))).

Definition cache_set (key : string) (value : JSValue) (ttl : option Z) : Task bool :=
  mkTask (fun w =>
            let '(b, data) :=
              CacheService.set stdTTL number_key (clock (w_ticks w)) (JStr key) value ttl
                (w_cache w) in
            (Ok b, mkWorld (w_history w) data (S (w_ticks w)))).

(** The body of the [try] block for one candidate: [None] when the
    candidate has no coordinates, otherwise the validation record and the
    verdict of [isValidLead]. *)
Definition examine (property leadType : JSValue) : Task (option (JSValue * bool)) :=
  latitude ← pure (get property "latitude");
  missing ← (if negb (truthy latitude) then mret true
             else longitude ← pure (get property "longitude");
                  mret (negb (truthy longitude)));
  if (missing : bool) then mret None
  else
    longitude ← pure (get property "longitude");
    (* Check cache first *)
    let cacheKey :=
      CacheKeys.generateKey JSON_stringify "visual-validation"
        [("latitude", latitude); ("longitude", longitude); ("lead_type", leadType)] in
    cached ← cache_get cacheKey;
    validation ← (if negb (truthy cached) then
                    (* Perform visual validation *)
                    validationResult ←
                      inspect (verify_property_visually JSON_parse query_string now respond
                                 config latitude longitude leadType);
                    let validation := validation_value (validation validationResult) in
                    _ ← cache_set cacheKey validation (Some 1800%Z);
                    mret validation
                  else mret cached);
    (* Check if lead is valid *)
    valid ← pure (isValidLead coerce property leadType validation);
    mret (Some (validation, truthy valid)).

(** One turn of the loop of [validateAndFilterLeads]: the [try] block and
    its [catch], from the arrays [validLeads] and [invalidLeads] to their
    contents after the turn. *)
Definition validate_one (property leadType : JSValue)
  (valid : list Lead) (invalid : list InvalidLead) : Task (list Lead * list InvalidLead) :=
  attempt
    (examined ← examine property leadType;
     match examined with
     | None =>
         id ← pure (get property "id");
         mret (valid, invalid ++ [mkInvalidLead id None "Missing coordinates"])
     | Some (validation, true) =>
         id ← pure (get property "id");
         (* Generate quality report *)
         report ← pure (generateQualityReport coerce now id property validation leadType);
         mret (valid ++ [mkLead property validation report leadType], invalid)
     | Some (validation, false) =>
         id ← pure (get property "id");
         address ← pure (get property "address");
         mret (valid, invalid ++ [mkInvalidLead id (Some address) "Failed validation criteria"])
     end)
    (fun message =>
       id ← pure (get property "id");
       address ← pure (get property "address");
       mret (valid, invalid ++ [mkInvalidLead id (Some address) message])).

(** The [for (const property of properties)] loop of
    [validateAndFilterLeads]. *)
Fixpoint validate_loop (properties : list JSValue) (leadType : JSValue) (requested : Z)
  (valid : list Lead) (invalid : list InvalidLead) : Task (list Lead * list InvalidLead) :=
  match properties with
  | [] => mret (valid, invalid)
  | property :: rest =>
      if (requested <=? Z.of_nat (length valid))%Z then mret (valid, invalid)
      else
        step ← validate_one property leadType valid invalid;
        validate_loop rest leadType requested (fst step) (snd step)
  end.

Definition validateAndFilterLeads (properties : list JSValue) (leadType : JSValue)
  (requested : Z) : Task Outcome :=
  lists ← validate_loop properties leadType requested [] [];
  mret (mkOutcome (fst lists) (snd lists) (length properties)).

(** [[10, 25, 50, 100].includes(requestedLeads)]: the count, when it is one
    of the four sizes. *)
Definition requested_size (requestedLeads : JSValue) : option Z :=
  match requestedLeads with
  | JNum q =>
      if Qeq_bool q 10 then Some 10%Z
      else if Qeq_bool q 25 then Some 25%Z
      else if Qeq_bool q 50 then Some 50%Z
      else if Qeq_bool q 100 then Some 100%Z
      else None
  | _ => None
  end.

(** [v?.k] *)
Definition optional_get (v : JSValue) (k : string) : JSValue :=
  match v with
  | JObj fields => lookup_field k fields
  | _ => JUndefined
  end.

(** [lead.visualValidation?.analysis?.confidence || 0] *)
Definition lead_confidence (lead : Lead) : JSValue :=
  js_or (optional_get (optional_get (visualValidation lead) "analysis") "confidence") (JNum 0).

(** The listings client; the JavaScript object of a candidate is its
    [attributes], [id] is the identifier it carries. *)
Context {Id : Type} `{Countable Id}.
Variable searchProperties : SearchRequest -> Result (option (list (Property (Id := Id)))).

Definition getBatchLeads (location leadType requestedLeads : JSValue) : Task BatchResult :=
  (* Validate inputs *)
  match location with
  | JStr place =>
      if negb (truthy location) then fail "Location is required"
      else if negb (supported leadType)
      then fail "Lead type must be PoolLeadGen or BackyardBoost"
      else
        match requested_size requestedLeads with
        | None => fail "Requested leads must be 10, 25, 50, or 100"
        | Some requested =>
            (* Calculate how many to fetch (requested + 15 buffer) *)
            let totalToFetch := getBufferSize requested in
            (* Search across price ranges to get enough properties *)
            let properties :=
              allProperties
                (searchAcrossPriceRanges searchProperties place leadType totalToFetch) in
            if (length properties =? 0)%nat
            then fail "No properties found in the specified location"
            else
              (* Validate and filter leads *)
              outcome ← validateAndFilterLeads (map attributes properties) leadType requested;
              mret
                {| batch_success := true;
                   batch_location := place;
                   batch_leadType := leadType;
                   requestedLeads := requested;
                   deliveredLeads := length (validLeads outcome);
                   leads := take (Z.to_nat requested) (validLeads outcome);
                   metadata :=
                     {| meta_totalValidated := totalValidated outcome;
                        totalValid := length (validLeads outcome);
                        totalInvalid := length (invalidLeads outcome);
                        bufferUsed := (totalToFetch - requested)%Z;
                        meta_timestamp := now;
                        source := "zillow-batch-lead-service" |};
                   statistics :=
                     {| validationRate :=
                          if (0 <? totalValidated outcome)%nat
                          then toFixed2 (inject_Z (Z.of_nat (length (validLeads outcome)))
                                         / inject_Z (Z.of_nat (totalValidated outcome))
                                         * 100)%Q +:+ "%"
                          else "0%";
                        priceRangesSearched := length PRICE_RANGES;
                        averageConfidence :=
                          if (0 <? length (validLeads outcome))%nat
                          then mean_confidence (map lead_confidence (validLeads outcome))
                          else JNum 0 |} |}
        end
  | _ => fail "Location is required"
  end.

(** The property key of a lead type that is not a string. *)
Variable property_key : JSValue -> string.

Definition type_key (leadType : JSValue) : string :=
  match leadType with
  | JStr s => s
  | _ => property_key leadType
  end.

(** The [for (const leadType of leadTypes)] loop of
    [getBatchLeadsMultiple], for an array [leadTypes]. *)
Fixpoint multiple_loop (location : JSValue) (leadTypes : list JSValue)
  (requestedLeads : JSValue) (results : list (string * TypeResult))
  : Task (list (string * TypeResult)) :=
  match leadTypes with
  | [] => mret results
  | leadType :: rest =>
      entry ← attempt
                (result ← getBatchLeads location leadType requestedLeads;
                 mret (Delivered result))
                (fun message => mret (Failed message leadType));
      multiple_loop location rest requestedLeads (store (type_key leadType) entry results)
  end.

Definition getBatchLeadsMultiple (location : JSValue) (leadTypes : list JSValue)
  (requestedLeads : JSValue) : Task MultipleResult :=
  results ← multiple_loop location leadTypes requestedLeads [];
  mret {| multiple_success := forallb succeeded (map snd results);
          multiple_location := location;
          multiple_requestedLeads := requestedLeads;
          results := results;
          multiple_timestamp := now |}.

End Batch.

End Orchestrator.

(** ** responseFormatter.js *)
Module ResponseFormatter.
Import LeadQualityService.

(** [s.includes(c)] for a search string of one character. *)
Fixpoint includes (c : ascii) (s : string) : bool :=
  match s with
  | EmptyString => false
  | String c' rest => Ascii.eqb c' c || includes c rest
  end.

(** The global replacement of every double quote (character 034) by two
    double quotes. *)
Fixpoint double_quotes (s : string) : string :=
  match s with
  | EmptyString => EmptyString
  | String c rest =>
      if Ascii.eqb c "034" then String "034" (String "034" (double_quotes rest))
      else String c (double_quotes rest)
  end.

(** [Math.round], [Math.max] and [Math.min] on numbers; [None] is NaN. *)
Definition Math_round (x : option Q) : option Q :=
  q ← x; Some (inject_Z (Qfloor (q + (1 # 2))%Q)).

Definition Math_max (a b : option Q) : option Q :=
  x ← a; y ← b; Some (if Qle_bool x y then y else x).

Definition Math_min (a b : option Q) : option Q :=
  x ← a; y ← b; Some (if Qle_bool x y then x else y).

Section Formatter.

Variable coerce : JSValue -> option Q.

(** [String(value)] for a value that is not a string. *)
Variable text_of : JSValue -> string.

(** [calculateLeadScore(qualityReport)] on a report of the reconciler; its
    [qualityScore] is one of the three levels, so the base score of 50 is
    always replaced. *)
Definition calculateLeadScore (qualityReport : QualityReport) : option Q :=
  let score : Q :=
    match report_qualityScore qualityReport with
    | high => 85%Q
    | medium => 65%Q
    | low => 35%Q
    end in
  (* Adjust based on confidence *)
  let score :=
    Math_round (c ← to_number coerce (report_confidence qualityReport);
                Some (score * c / 100)%Q) in
  (* Penalize if discrepancies detected *)
  let score :=
    if rd_detected (report_discrepancy qualityReport)
    then Math_max (Some 0%Q) (s ← score; Some (s - 15)%Q)
    else score in
  Math_min (Some 100%Q) (Math_max (Some 0%Q) score).

Definition escapeCSVField (value : JSValue) : string :=
  if strict_eq value JNull || strict_eq value JUndefined then EmptyString
  else
    let stringValue :=
      match value with
      | JStr s => s
      | _ => text_of value
      end in
    (* If contains comma, quote, or newline, wrap in quotes and escape quotes *)
    if includes "," stringValue || includes "034" stringValue || includes "010" stringValue
    then String "034" (double_quotes stringValue +:+ String "034" EmptyString)
    else stringValue.

End Formatter.

End ResponseFormatter.

(** ** routes/properties.js *)
Module Routes.
Import VisualInspector.

Section Validation.

Variable coerce : JSValue -> option Q.

(** [String.prototype.trim] *)
Variable trim : string -> string.

(** [Number(v)] *)
Definition Number_ (v : JSValue) : JSValue :=
  match to_number coerce v with
  | Some q => JNum q
  | None => JNaN
  end.

(** [typeof v !== 'number' && isNaN(Number(v))] *)
Definition not_numeric (v : JSValue) : bool :=
  negb (String.eqb (typeof v) "number")
  && match to_number coerce v with
     | Some _ => false
     | None => true
     end.

(** [Number(v) < low || Number(v) > high] *)
Definition outside (v : JSValue) (low high : Q) : bool :=
  match to_number coerce v with
  | Some q => negb (Qle_bool low q) || negb (Qle_bool q high)
  | None => false
  end.

(** [!v || typeof v !== 'string' || v.trim() === ''] *)
Definition blank (v : JSValue) : bool :=
  negb (truthy v)
  || negb (String.eqb (typeof v) "string")
  || match v with
     | JStr s => String.eqb (trim s) EmptyString
     | _ => false
     end.

(** [validateVisualValidationParams(params)], on the properties of the
    object literal built by its callers. *)
Definition validateVisualValidationParams (params : list (string * JSValue)) : Result unit :=
  let latitude := lookup_field "latitude" params in
  let longitude := lookup_field "longitude" params in
  let lead_type := lookup_field "lead_type" params in
  if strict_eq latitude JUndefined || strict_eq latitude JNull
  then Throw "Latitude parameter is required"
  else if not_numeric latitude then Throw "Latitude must be a valid number"
  else if outside latitude (-90)%Q 90%Q then Throw "Latitude must be between -90 and 90"
  else if strict_eq longitude JUndefined || strict_eq longitude JNull
  then Throw "Longitude parameter is required"
  else if not_numeric longitude then Throw "Longitude must be a valid number"
  else if outside longitude (-180)%Q 180%Q then Throw "Longitude must be between -180 and 180"
  else if blank lead_type
  then Throw "Lead type parameter is required and must be a non-empty string"
  else if negb (supported lead_type)
  then Throw "Lead type must be either PoolLeadGen or BackyardBoost"
  else Ok tt.

End Validation.

End Routes.

(** ** The rules of the specification, in its own words *)
Module Spec.
Import LeadQualityService.

(** Severity of a pool mismatch: major if the vision confidence is at least
    80, else minor if it is at least 60, else none. *)
Definition tier (c : Q) : Severity :=
  if Qle_bool 80 c then major else if Qle_bool 60 c then minor else none.

Inductive Verdict : Type := APPROVE | REVIEW | REJECT.

(** high gives APPROVE; medium gives APPROVE unless the severity is major
    (then REVIEW); low gives REJECT. *)
Definition recommend (q : QualityScore) (s : Severity) : Verdict :=
  match q, s with
  | high, _ => APPROVE
  | medium, major => REVIEW
  | medium, _ => APPROVE
  | low, _ => REJECT
  end.

(** The verdict a recommendation string starts with. *)
Definition verdict_of (recommendation : string) : option Verdict :=
  if String.prefix "APPROVE" recommendation then Some APPROVE
  else if String.prefix "REVIEW" recommendation then Some REVIEW
  else if String.prefix "REJECT" recommendation then Some REJECT
  else None.

(** A discrepancy that is not detected has no severity. *)
Definition consistent (d : Discrepancy) : Prop :=
  detected d = true \/ severity d = none.

End Spec.

(** ** Histories *)
Module Histories.
Import VisualInspector.

(** A computation only ever appends to the history of the requests. *)
Definition extends {A} (m : IO A) : Prop :=
  forall h, exists rest, snd (run m h) = h ++ rest.

(** The prefix of the error raised when the three providers have failed. *)
Definition all_failed : string :=
  "Failed to analyze image with all providers (OpenAI, Groq, Gemini): ".

(** The schema that [parseAnalysisResponse] enforces: a confidence is a
    number that is neither below 0 nor above 100 (NaN, which JSON cannot
    express, is a number too). *)
Definition confidence_in_range (c : JSValue) : Prop :=
  c = JNaN \/ exists q, c = JNum q /\ (0 <= q)%Q /\ (q <= 100)%Q.

Definition level (v : JSValue) : Prop :=
  v = JStr "high" \/ v = JStr "medium" \/ v = JStr "low".

Definition boolean_field (analysis : JSValue) (k : string) : Prop :=
  exists b, get analysis k = Ok (JBool b).

Definition well_formed (leadType analysis : JSValue) : Prop :=
  (leadType = JStr "PoolLeadGen" ->
   boolean_field analysis "has_pool"
   /\ exists c, get analysis "confidence" = Ok c /\ confidence_in_range c)
  /\ (leadType = JStr "BackyardBoost" ->
      boolean_field analysis "is_empty_backyard"
      /\ boolean_field analysis "is_underdeveloped"
      /\ (exists a, get analysis "estimated_free_area" = Ok a /\ level a)
      /\ (exists p, get analysis "development_potential" = Ok p /\ level p)
      /\ exists c, get analysis "confidence" = Ok c /\ confidence_in_range c).

(** The character [c] occurs in [s]. *)
Fixpoint occurs (c : ascii) (s : string) : bool :=
  match s with
  | EmptyString => false
  | String c' rest => Ascii.eqb c' c || occurs c rest
  end.

End Histories.

(** ** Sample records *)
Module Samples.

(** A listing with a backyard and a grass surface. *)
Definition yard_listing : JSValue :=
  JObj [("id", JStr "zpid-1"); ("has_backyard", JBool true); ("lot_size", JNum 8000);
        ("surface_type", JStr "grass")].

(** The same listing without a surface type. *)
Definition yard_listing_no_surface : JSValue :=
  JObj [("id", JStr "zpid-1"); ("has_backyard", JBool true); ("lot_size", JNum 8000)].

(** A vision analysis that sees a paved yard with little free area, with
    confidence 95. *)
Definition paved_yard_analysis : JSValue :=
  JObj [("is_empty_backyard", JBool false); ("is_underdeveloped", JBool false);
        ("surface_type", JStr "concrete"); ("estimated_free_area", JStr "low");
        ("confidence", JNum 95); ("structures_detected", JArr [JStr "patio"]);
        ("development_potential", JStr "low"); ("reasoning", JStr "paved yard")].

(** A listing that asserts that there is no pool. *)
Definition dry_listing : JSValue :=
  JObj [("id", JStr "zpid-2"); ("has_pool", JBool false)].

(** A listing without the [has_pool] attribute. *)
Definition silent_listing : list (string * JSValue) :=
  [("id", JStr "zpid-3"); ("bedrooms", JNum 4)].

(** A vision analysis that sees a pool, with confidence 85. *)
Definition pool_analysis : list (string * JSValue) :=
  [("has_pool", JBool true); ("confidence", JNum 85); ("pool_type", JStr "in-ground");
   ("reasoning", JStr "blue rectangle")].

(** A vision analysis of an underdeveloped yard with high potential, with
    confidence 70. *)
Definition ideal_yard_analysis : list (string * JSValue) :=
  [("is_empty_backyard", JBool false); ("is_underdeveloped", JBool true);
   ("surface_type", JStr "grass"); ("estimated_free_area", JStr "high");
   ("confidence", JNum 70); ("development_potential", JStr "high")].

(** A validation record, as cached by the batch service. *)
Definition record_of (leadType : string) (analysis : list (string * JSValue)) : JSValue :=
  JObj [("leadType", JStr leadType);
        ("satelliteImageUrl", JStr "https://maps.googleapis.com/maps/api/staticmap?zoom=21");
        ("analysis", JObj analysis);
        ("timestamp", JStr "2024-11-27T10:30:00.000Z")].

(** A market where every price range holds three listings of its own,
    numbered from the lower bound of the range. *)
Definition sparse_market (request : BatchLeadService.SearchRequest)
  : Result (option (list (BatchLeadService.Property (Id := Z)))) :=
  let m := BatchLeadService.minPrice request in
  Ok (Some [BatchLeadService.mkProperty m JNull;
            BatchLeadService.mkProperty (m + 1)%Z JNull;
            BatchLeadService.mkProperty (m + 2)%Z JNull]).

(** The search of a PoolLeadGen batch of 10 leads on the sparse market. *)
Definition sparse_search : BatchLeadService.SearchState (Id := Z) :=
  BatchLeadService.searchAcrossPriceRanges sparse_market "Austin, TX" (JStr "PoolLeadGen")
    (BatchLeadService.getBufferSize 10).

(** A cache key of the batch service. *)
Definition sample_key : JSValue :=
  JStr "visual-validation:latitude=30.26|lead_type='PoolLeadGen'|longitude=-97.74".

(** The decimal text of the numeric keys used in the examples. *)
Definition sample_number_key (q : Q) : string :=
  if Qeq_bool q 1 then "1" else "0".

(** JSON texts are written with apostrophes for the quotation marks. *)
Fixpoint json (text : string) : string :=
  match text with
  | EmptyString => EmptyString
  | String c rest => String (if Ascii.eqb c "'" then "034"%char else c) (json rest)
  end.

(** A reply that breaks the PoolLeadGen schema: the confidence is out of
    range. *)
Definition malformed_reply : string := json "{'has_pool': true, 'confidence': 150}".

(** A reply that meets the PoolLeadGen schema, with prose around the object. *)
Definition valid_reply : string :=
  json "Here is the analysis: {'has_pool': true, 'confidence': 85, 'model': 'vision-1'} Done.".

(** OpenAI answers with a malformed analysis, Groq with a valid one. *)
Definition picky_world (h : VisualInspector.History) (e : VisualInspector.Endpoint)
  : Result string :=
  match e with
  | VisualInspector.GoogleStaticMap => Ok "PNG"
  | VisualInspector.OpenAI => Ok malformed_reply
  | VisualInspector.Groq => Ok valid_reply
  | _ => Throw "connect ETIMEDOUT"
  end.

(** The imagery provider and OpenAI both answer well. *)
Definition steady_world (h : VisualInspector.History) (e : VisualInspector.Endpoint)
  : Result string :=
  match e with
  | VisualInspector.GoogleStaticMap => Ok "PNG"
  | VisualInspector.OpenAI => Ok valid_reply
  | _ => Throw "connect ETIMEDOUT"
  end.

Definition all_keys : VisualInspector.Config :=
  VisualInspector.mkConfig "maps-key" "openai-key" "gemini-key" "groq-key".

Definition sample_query (latitude longitude : JSValue) (key : string) : string :=
  "zoom=21&size=600x600&maptype=satellite&key=" +:+ key.

Definition sample_url : string :=
  "https://maps.googleapis.com/maps/api/staticmap?zoom=21&size=600x600".

Definition sample_now : string := "2024-11-27T10:30:00.000Z".

(** The store after a PoolLeadGen validation record has been cached for 1800
    seconds under its coordinate key. *)
Definition cached_store : gmap string CacheService.Entry :=
  snd (CacheService.set 600 sample_number_key 1700000000000 sample_key
         (record_of "PoolLeadGen" pool_analysis) (Some 1800%Z) ∅).

(** No string, array or object coerces to a number. *)
Definition no_coercion (v : JSValue) : option Q := None.

End Samples.

(** ** Invariants of the candidate search *)
Module SearchInvariants.
Import BatchLeadService.

Section Search.

Context {Id : Type} `{Countable Id}.

Variable searchProperties : SearchRequest -> Result (option (list (Property (Id := Id)))).
Variable totalNeeded : Z.

(** The candidates are distinct, and their identifiers are all recorded. *)
Definition distinct (st : SearchState (Id := Id)) : Prop :=
  NoDup (map id (allProperties st))
  /\ forall p, p ∈ allProperties st -> id p ∈ seenIds st.

(** There are at most [totalNeeded] candidates. *)
Definition bounded (st : SearchState (Id := Id)) : Prop :=
  (Z.of_nat (length (allProperties st)) <= Z.max 0 totalNeeded)%Z.

(** Every candidate was delivered by one of the searches issued. *)
Definition sourced (st : SearchState (Id := Id)) : Prop :=
  forall p, p ∈ allProperties st ->
    exists request properties,
      request ∈ requests st
      /\ searchProperties request = Ok (Some properties)
      /\ p ∈ properties.

(** A listings client whose failures and answers without listings are
    replaced by empty answers. *)
Definition forgiving (request : SearchRequest) : Result (option (list (Property (Id := Id)))) :=
  match searchProperties request with
  | Ok (Some properties) => Ok (Some properties)
  | Ok None => Ok (Some [])
  | Throw _ => Ok (Some [])
  end.

End Search.

(** The request issued for a price range. *)
Definition request_for (location : string) (leadType : JSValue) (priceRange : PriceRange)
  : SearchRequest :=
  mkSearchRequest location (min priceRange) (max priceRange)
    (if strict_eq leadType (JStr "PoolLeadGen") then 3 else 2) 6.

End SearchInvariants.

(** ** Invariants of the validation loop *)
Module BatchInvariants.
Import BatchLeadService Orchestrator.

(** A lead that passed the validity predicate: it has coordinates, its
    validation record satisfies [isValidLead], and it carries the lead type
    of the batch. *)
Definition accepted (coerce : JSValue -> option Q) (leadType : JSValue) (lead : Lead) : Prop :=
  isValidLead coerce (lead_property lead) leadType (visualValidation lead) = Ok (JBool true)
  /\ lead_leadType lead = leadType
  /\ (exists latitude longitude,
         get (lead_property lead) "latitude" = Ok latitude
         /\ truthy latitude = true
         /\ get (lead_property lead) "longitude" = Ok longitude
         /\ truthy longitude = true).

(** The cache key of a candidate. *)
Definition key_of (JSON_stringify : JSValue -> string) (latitude longitude leadType : JSValue)
  : string :=
  CacheKeys.generateKey JSON_stringify "visual-validation"
    [("latitude", latitude); ("longitude", longitude); ("lead_type", leadType)].

(** The entry of a lead type whose batch failed. *)
Definition failed (entry : string * TypeResult) : Prop :=
  exists message leadType, snd entry = Failed message leadType.

(** A lead type whose entry is an own property of [results]. *)
Definition own_key (key : string) : bool := negb (String.eqb key "__proto__").

(** A request that [getBatchLeads] refuses whatever the lead type: the
    location is not a non-empty string, or the size is not one of the four
    sizes. *)
Definition refused (location requestedLeads : JSValue) : Prop :=
  truthy location = false
  \/ typeof location <> "string"
  \/ requested_size requestedLeads = None.

End BatchInvariants.

(** ** The order of the keys *)
Module KeyInvariants.

(** The order of [Array.prototype.sort] on the names of the properties. *)
Definition le_key (a b : string) : Prop := String.leb a b = true.

End KeyInvariants.

(** ** Bounds of the lead score *)
Module ScoreInvariants.
Import LeadQualityService.

(** The lead score of a quality level at full confidence. *)
Definition tier_score (s : QualityScore) : Z :=
  match s with
  | high => 85
  | medium => 65
  | low => 35
  end.

(** The highest lead score of a report: the score of its level, less the
    penalty of a detected discrepancy. *)
Definition ceiling (qualityReport : QualityReport) : Z :=
  (tier_score (report_qualityScore qualityReport)
   - (if rd_detected (report_discrepancy qualityReport) then 15 else 0))%Z.

End ScoreInvariants.

(** ** More sample records *)
Module MoreSamples.
Import Samples.

(** A listing whose pool flag is the number 1. *)
Definition numeric_flag_listing : list (string * JSValue) :=
  [("id", JStr "zpid-4"); ("has_pool", JNum 1)].

(** A listing with an above-ground pool. *)
Definition above_ground_listing : list (string * JSValue) :=
  [("id", JStr "zpid-5"); ("has_pool", JBool true); ("pool_type", JStr "above-ground")].

(** The fields of [yard_listing_no_surface] and of [paved_yard_analysis]. *)
Definition yard_fields : list (string * JSValue) :=
  [("id", JStr "zpid-1"); ("has_backyard", JBool true); ("lot_size", JNum 8000)].

Definition paved_yard_fields : list (string * JSValue) :=
  [("is_empty_backyard", JBool false); ("is_underdeveloped", JBool false);
   ("surface_type", JStr "concrete"); ("estimated_free_area", JStr "low");
   ("confidence", JNum 95); ("structures_detected", JArr [JStr "patio"]);
   ("development_potential", JStr "low"); ("reasoning", JStr "paved yard")].

(** A stand-in for [JSON.stringify] on the values of the examples. *)
Definition sample_stringify (v : JSValue) : string :=
  match v with
  | JStr s => "'" +:+ s +:+ "'"
  | JNum q => pretty (Qnum q) +:+ "/" +:+ pretty (Zpos (Qden q))
  | JBool true => "true"
  | JBool false => "false"
  | JNull => "null"
  | _ => "undefined"
  end.

(** A clock that advances by one millisecond at each reading. *)
Definition sample_clock (n : nat) : Z := (1700000000000 + Z.of_nat n)%Z.

Definition sample_toFixed2 (q : Q) : string :=
  pretty (Qnum q) +:+ "/" +:+ pretty (Zpos (Qden q)).

Definition sample_mean (confidences : list JSValue) : JSValue := JStr "85.00".

(** A candidate with coordinates, and one on the equator. *)
Definition candidate (id : Z) : JSValue :=
  JObj [("id", JNum (inject_Z id)); ("address", JStr "12 Oak St");
        ("latitude", JNum (3026 # 100)); ("longitude", JNum (-9774 # 100));
        ("has_pool", JBool false)].

Definition equator_candidate : JSValue :=
  JObj [("id", JNum 7); ("address", JStr "1 Line Rd");
        ("latitude", JNum 0); ("longitude", JNum (-7845 # 100))].

(** The process at its start: no request sent, an empty cache. *)
Definition fresh_world : Orchestrator.World := Orchestrator.mkWorld [] ∅ 0.

(** The examination of a candidate, and the world it leaves. *)
Definition sample_examine (property : JSValue)
  : Orchestrator.Task (option (JSValue * bool)) :=
  Orchestrator.examine no_coercion JSON.parse sample_stringify sample_query sample_now
    steady_world all_keys 600 sample_number_key sample_clock property (JStr "PoolLeadGen").

Definition examined_world : Orchestrator.World :=
  snd (Orchestrator.perform (sample_examine (candidate 1)) fresh_world).

(** The validation record that the examination of a candidate produces. *)
Definition verified_record : JSValue :=
  JObj [("leadType", JStr "PoolLeadGen");
        ("satelliteImageUrl",
         JStr ("https://maps.googleapis.com/maps/api/staticmap?"
               +:+ "zoom=21&size=600x600&maptype=satellite&key=maps-key"));
        ("analysis",
         JObj [("has_pool", JBool true); ("confidence", JNum 85); ("model", JStr "vision-1")]);
        ("timestamp", JStr "2024-11-27T10:30:00.000Z")].

(** A market with one candidate in every price range. *)
Definition pool_market (request : BatchLeadService.SearchRequest)
  : Result (option (list (BatchLeadService.Property (Id := Z)))) :=
  let m := BatchLeadService.minPrice request in
  Ok (Some [BatchLeadService.mkProperty m (candidate m)]).

Definition sample_batch (location leadType requestedLeads : JSValue)
  : Orchestrator.Task Orchestrator.BatchResult :=
  Orchestrator.getBatchLeads no_coercion JSON.parse sample_stringify sample_query sample_now
    steady_world all_keys 600 sample_number_key sample_clock sample_toFixed2 sample_mean
    pool_market location leadType requestedLeads.

(** A batch for several lead types on the same market. *)
Definition sample_multiple (location : JSValue) (leadTypes : list JSValue)
  (requestedLeads : JSValue) : Orchestrator.Task Orchestrator.MultipleResult :=
  Orchestrator.getBatchLeadsMultiple no_coercion JSON.parse sample_stringify sample_query
    sample_now steady_world all_keys 600 sample_number_key sample_clock sample_toFixed2
    sample_mean pool_market sample_stringify location leadTypes requestedLeads.

(** The parameters of a cache key, written in two orders. *)
Definition coordinates_first : list (string * JSValue) :=
  [("latitude", JNum (3026 # 100)); ("longitude", JNum (-9774 # 100));
   ("lead_type", JStr "PoolLeadGen")].

Definition lead_type_first : list (string * JSValue) :=
  [("lead_type", JStr "PoolLeadGen"); ("latitude", JNum (3026 # 100));
   ("longitude", JNum (-9774 # 100))].

(** A report of the reconciler with the given level, confidence and
    detection flag. *)
Definition sample_report (score : LeadQualityService.QualityScore) (confidence : JSValue)
  (detected : bool) : LeadQualityService.QualityReport :=
  {| LeadQualityService.report_leadId := JStr "zpid-1";
     LeadQualityService.report_leadType := JStr "PoolLeadGen";
     LeadQualityService.assessmentTimestamp := sample_now;
     LeadQualityService.report_qualityScore := score;
     LeadQualityService.report_confidence := confidence;
     LeadQualityService.report_reasoning := [];
     LeadQualityService.report_discrepancy :=
       LeadQualityService.mkReportDiscrepancy detected None LeadQualityService.minor [];
     LeadQualityService.evidence_satelliteImageUrl := JNull;
     LeadQualityService.evidence_visualAnalysis := JObj [];
     LeadQualityService.evidence_zillowData := JObj [];
     LeadQualityService.recommendation := "APPROVE - Lead meets quality standards";
     LeadQualityService.flag := None |}.

(** [trim] on the strings of the examples, which have no blank at either
    end. *)
Definition sample_trim (s : string) : string := s.

(** Every service is unreachable. *)
Definition dark_world (h : VisualInspector.History) (e : VisualInspector.Endpoint)
  : Result string := Throw "connect ETIMEDOUT".

(** A configuration without an OpenAI key. *)
Definition keys_without_openai : VisualInspector.Config :=
  VisualInspector.mkConfig "maps-key" EmptyString "gemini-key" "groq-key".

(** The analysis carried by [valid_reply]. *)
Definition valid_analysis : JSValue :=
  JObj [("has_pool", JBool true); ("confidence", JNum 85); ("model", JStr "vision-1")].

End MoreSamples.

(** * Properties *)

(** ** Values and coercions *)
Section ValueFacts.

Variable coerce : JSValue -> option Q.

Lemma get_object (fields : list (string * JSValue)) (k : string) :
  get (JObj fields) k = Ok (lookup_field k fields).
Proof. reflexivity. Qed.

(** Reading a property of a truthy value never throws. *)
Lemma get_truthy (o : JSValue) (k : string) :
  truthy o = true -> exists v, get o k = Ok v.
Proof. destruct o; simpl; intros E; try discriminate; eauto. Qed.

(** A value with a boolean or numeric property is an object. *)
Lemma get_defined (o : JSValue) (k : string) (v : JSValue) :
  get o k = Ok v -> v <> JUndefined -> exists fields, o = JObj fields.
Proof.
  destruct o; simpl; intros E N; try discriminate; try (injection E as <-; contradiction).
  eauto.
Qed.

(** [(c || 0) >= n] is the comparison of the number [c] with [n]. *)
Lemma js_ge_confidence (c n : Q) :
  js_ge coerce (js_or (JNum c) (JNum 0)) n = Qle_bool n c.
Proof.
  unfold js_or, js_ge; simpl.
  destruct (Qeq_bool c 0) eqn:E; simpl; [|reflexivity].
  apply Qeq_bool_iff in E.
  destruct (Qle_bool n 0) eqn:A, (Qle_bool n c) eqn:B; try reflexivity.
  - apply Qle_bool_iff in A. rewrite <- E in A. apply Qle_bool_iff in A. congruence.
  - apply Qle_bool_iff in B. rewrite E in B. apply Qle_bool_iff in B. congruence.
Qed.

End ValueFacts.

(** ** Discrepancy detection, scoring and recommendation *)
Module ReconcilerProps.
Import LeadQualityService Spec Samples.

Lemma tier_bounds (c : Q) :
  (tier c = major <-> (80 <= c)%Q)
  /\ (tier c = minor <-> (60 <= c /\ c < 80)%Q)
  /\ (tier c = none <-> (c < 60)%Q).
Proof.
  unfold tier.
  destruct (Qle_bool 80 c) eqn:A; [apply Qle_bool_iff in A|];
    (destruct (Qle_bool 60 c) eqn:B; [apply Qle_bool_iff in B|]).
  all: try (assert (~ (80 <= c)%Q) by (rewrite <- Qle_bool_iff; congruence)).
  all: try (assert (~ (60 <= c)%Q) by (rewrite <- Qle_bool_iff; congruence)).
  all: repeat split; intros; try discriminate; try reflexivity; try lra.
Qed.

Section Reconciler.

Variable coerce : JSValue -> option Q.

(** A mismatch of the two booleans: the state of the discrepancy after the
    first check of [comparePoolData]. *)
Lemma comparePoolData_mismatch (zf vf : list (string * JSValue)) (a b : bool) (c : Q) :
  lookup_field "has_pool" zf = JBool a ->
  lookup_field "has_pool" vf = JBool b ->
  lookup_field "confidence" vf = JNum c ->
  a <> b ->
  comparePoolData coerce (JObj zf) (JObj vf) fresh_discrepancy =
    Ok {| detected := true;
          type := Some "pool_mismatch";
          details := [mkDetail "has_pool" (JBool a) (JBool b) (js_or (JNum c) (JNum 0))];
          confidenceDiff := abs_diff coerce (js_or (JNum c) (JNum 0)) 50;
          severity := tier c |}.
Proof.
  intros Hz Hv Hc Hab. unfold comparePoolData.
  rewrite !get_object, Hz, Hv, Hc. cbn [mbind result_bind].
  assert (Ea : js_or (JBool a) (JBool false) = JBool a) by (destruct a; reflexivity).
  assert (Eb : js_or (JBool b) (JBool false) = JBool b) by (destruct b; reflexivity).
  rewrite Ea, Eb, !js_ge_confidence. unfold tier.
  destruct a, b; try congruence; cbn;
    destruct (Qle_bool 80 c); try reflexivity; destruct (Qle_bool 60 c); reflexivity.
Qed.

(** C4: in a PoolLeadGen evaluation where the pool presence asserted by the
    provider and the one asserted by the vision analysis are different
    booleans, a discrepancy of type [pool_mismatch] is detected; its severity
    is major exactly when the vision confidence is at least 80, minor exactly
    when it is at least 60 and below 80, and none exactly when it is below
    60: both bounds are inclusive lower bounds. *)
Theorem pool_mismatch_severity_tiers (zillowData visualAnalysis : JSValue) (a b : bool) (c : Q) :
  get zillowData "has_pool" = Ok (JBool a) ->
  get visualAnalysis "has_pool" = Ok (JBool b) ->
  get visualAnalysis "confidence" = Ok (JNum c) ->
  a <> b ->
  exists d,
    compareZillowWithVisual coerce zillowData visualAnalysis (JStr "PoolLeadGen") = Ok d
    /\ detected d = true
    /\ type d = Some "pool_mismatch"
    /\ (severity d = major <-> (80 <= c)%Q)
    /\ (severity d = minor <-> (60 <= c /\ c < 80)%Q)
    /\ (severity d = none <-> (c < 60)%Q).
Proof.
  intros Hz Hv Hc Hab.
  destruct (get_defined _ _ _ Hz) as [zf ->]; [discriminate|].
  destruct (get_defined _ _ _ Hv) as [vf ->]; [discriminate|].
  rewrite get_object in Hz, Hv, Hc.
  injection Hz as Hz. injection Hv as Hv. injection Hc as Hc.
  eexists. split.
  - unfold compareZillowWithVisual. cbn [truthy negb orb strict_eq].
    replace (String.eqb "PoolLeadGen" "PoolLeadGen") with true by reflexivity.
    apply comparePoolData_mismatch; eassumption.
  - cbn [detected type severity].
    pose proof (tier_bounds c) as (T1 & T2 & T3). auto.
Qed.

(** C9: in a PoolLeadGen reconciliation, a provider record whose [has_pool]
    attribute is absent, or holds any falsy value, is taken to assert that
    there is no pool: when the vision analysis reports [has_pool = true]
    against it, a [pool_mismatch] is detected, the recorded provider value is
    [false], and the severity follows the confidence tiers. *)
Theorem falsy_has_pool_asserts_no_pool
  (zf vf : list (string * JSValue)) (c : Q) :
  truthy (lookup_field "has_pool" zf) = false ->
  lookup_field "has_pool" vf = JBool true ->
  lookup_field "confidence" vf = JNum c ->
  exists d,
    compareZillowWithVisual coerce (JObj zf) (JObj vf) (JStr "PoolLeadGen") = Ok d
    /\ detected d = true
    /\ type d = Some "pool_mismatch"
    /\ map zillowValue (details d) = [JBool false]
    /\ severity d = tier c
    /\ (severity d = major <-> (80 <= c)%Q)
    /\ (severity d = minor <-> (60 <= c /\ c < 80)%Q)
    /\ (severity d = none <-> (c < 60)%Q).
Proof.
  intros Hz Hv Hc.
  eexists. split.
  - unfold compareZillowWithVisual. cbn [truthy negb orb strict_eq].
    replace (String.eqb "PoolLeadGen" "PoolLeadGen") with true by reflexivity.
    cbv iota. unfold comparePoolData.
    rewrite !get_object, Hv, Hc. cbn [mbind result_bind].
    assert (E : js_or (lookup_field "has_pool" zf) (JBool false) = JBool false)
      by (unfold js_or; rewrite Hz; reflexivity).
    rewrite !E.
    replace (js_or (JBool true) (JBool false)) with (JBool true) by reflexivity.
    rewrite !js_ge_confidence.
    cbn [strict_eq Bool.eqb negb truthy andb]. cbv iota.
    cbn [mbind result_bind mret result_ret]. reflexivity.
  - pose proof (tier_bounds c) as (T1 & T2 & T3).
    unfold tier in *.
    destruct (Qle_bool 80 c); [|destruct (Qle_bool 60 c)]; cbn; auto 10.
Qed.

(** C2: on a listing with a backyard and a grass surface, against an
    analysis that reports low free area with confidence 95 and a concrete
    surface, the size check first establishes severity major (as the listing
    without a surface type shows) and the surface check then overwrites it:
    the evaluation ends with severity minor, under the tag
    [backyard_size_mismatch]. *)
Theorem surface_mismatch_overwrites_major :
  (exists d,
      compareZillowWithVisual coerce yard_listing_no_surface paved_yard_analysis
        (JStr "BackyardBoost") = Ok d
      /\ type d = Some "backyard_size_mismatch"
      /\ map field (details d) = ["estimated_free_area"]
      /\ severity d = major)
  /\ (exists d,
      compareZillowWithVisual coerce yard_listing paved_yard_analysis
        (JStr "BackyardBoost") = Ok d
      /\ type d = Some "backyard_size_mismatch"
      /\ map field (details d) = ["estimated_free_area"; "surface_type"]
      /\ severity d = minor).
Proof.
  split; eexists; (split; [vm_compute; reflexivity|]); cbn; auto.
Qed.

Lemma compareBackyardData_ideal (zillowData : JSValue) (vf : list (string * JSValue))
  (d : Discrepancy) :
  lookup_field "is_underdeveloped" vf = JBool true ->
  lookup_field "development_potential" vf = JStr "high" ->
  compareBackyardData coerce zillowData (JObj vf) d = Ok d.
Proof.
  intros Hu Hp. unfold compareBackyardData.
  rewrite !get_object, Hu, Hp. reflexivity.
Qed.

Lemma compareZillowWithVisual_ideal (zillowData : JSValue) (vf : list (string * JSValue)) :
  lookup_field "is_underdeveloped" vf = JBool true ->
  lookup_field "development_potential" vf = JStr "high" ->
  compareZillowWithVisual coerce zillowData (JObj vf) (JStr "BackyardBoost")
  = Ok fresh_discrepancy.
Proof.
  intros Hu Hp. unfold compareZillowWithVisual.
  destruct (truthy zillowData); [|reflexivity].
  cbn. apply compareBackyardData_ideal; assumption.
Qed.

Lemma calculateLeadQuality_ideal (zillowData : JSValue) (vf : list (string * JSValue)) :
  lookup_field "is_underdeveloped" vf = JBool true ->
  lookup_field "development_potential" vf = JStr "high" ->
  exists qa,
    calculateLeadQuality coerce zillowData (JObj vf) fresh_discrepancy (JStr "BackyardBoost")
    = Ok qa
    /\ qualityScore qa = high.
Proof.
  intros Hu Hp. unfold calculateLeadQuality.
  rewrite !get_object, Hu, Hp. cbn [truthy negb detected fresh_discrepancy mbind result_bind].
  set (vc := js_or (lookup_field "confidence" vf) (JNum 0)).
  destruct (js_ge coerce vc 80); [|destruct (js_ge coerce vc 60); [|destruct (js_ge coerce vc 50)]].
  all: cbn; destruct (truthy (lookup_field "is_empty_backyard" vf) && js_ge coerce vc 75).
  all: eexists; split; reflexivity.
Qed.


(** *** The recommendation *)

Lemma fresh_discrepancy_consistent : consistent fresh_discrepancy.
Proof. right. reflexivity. Qed.

Lemma set_type_if_unset_detected (t : string) (d : Discrepancy) :
  detected (set_type_if_unset t d) = detected d.
Proof. unfold set_type_if_unset. destruct (type d); reflexivity. Qed.

Lemma set_type_if_unset_severity (t : string) (d : Discrepancy) :
  severity (set_type_if_unset t d) = severity d.
Proof. unfold set_type_if_unset. destruct (type d); reflexivity. Qed.

Lemma comparePoolData_consistent (zillowData visualAnalysis : JSValue) (d0 d : Discrepancy) :
  consistent d0 ->
  comparePoolData coerce zillowData visualAnalysis d0 = Ok d ->
  consistent d.
Proof.
  intros [C|C] E; unfold comparePoolData, mbind, result_bind, mret, result_ret in E;
    repeat case_match; simplify_eq; unfold consistent; cbn;
    rewrite ?set_type_if_unset_detected, ?set_type_if_unset_severity; cbn; auto.
Qed.

Lemma compareBackyardData_consistent (zillowData visualAnalysis : JSValue) (d0 d : Discrepancy) :
  consistent d0 ->
  compareBackyardData coerce zillowData visualAnalysis d0 = Ok d ->
  consistent d.
Proof.
  intros [C|C] E; unfold compareBackyardData, mbind, result_bind, mret, result_ret in E;
    repeat case_match; simplify_eq; unfold consistent; cbn;
    rewrite ?set_type_if_unset_detected, ?set_type_if_unset_severity; cbn; auto.
Qed.

Lemma compareZillowWithVisual_consistent (zillowData visualAnalysis leadType : JSValue)
  (d : Discrepancy) :
  compareZillowWithVisual coerce zillowData visualAnalysis leadType = Ok d ->
  consistent d.
Proof.
  unfold compareZillowWithVisual, mret, result_ret. intros E.
  repeat case_match; simplify_eq;
    eauto using fresh_discrepancy_consistent, comparePoolData_consistent,
      compareBackyardData_consistent.
Qed.

(** *** The reconciler returns *)

Ltac read_all o H :=
  repeat match goal with
         | |- context [get o ?k] =>
             let v := fresh "v" in
             let E := fresh "E" in
             destruct (get_truthy o k H) as [v E]; rewrite E; clear E
         end.

Ltac settle :=
  cbn [mbind result_bind mret result_ret];
  repeat case_match; eauto.

Lemma comparePoolData_returns (zillowData visualAnalysis : JSValue) (d0 : Discrepancy) :
  truthy zillowData = true ->
  truthy visualAnalysis = true ->
  exists d, comparePoolData coerce zillowData visualAnalysis d0 = Ok d.
Proof.
  intros Hz Hv. unfold comparePoolData.
  read_all zillowData Hz. read_all visualAnalysis Hv. settle.
Qed.

Lemma compareBackyardData_returns (zillowData visualAnalysis : JSValue) (d0 : Discrepancy) :
  truthy zillowData = true ->
  truthy visualAnalysis = true ->
  exists d, compareBackyardData coerce zillowData visualAnalysis d0 = Ok d.
Proof.
  intros Hz Hv. unfold compareBackyardData.
  read_all zillowData Hz. read_all visualAnalysis Hv. settle.
Qed.

Lemma compareZillowWithVisual_returns (zillowData visualAnalysis leadType : JSValue) :
  exists d, compareZillowWithVisual coerce zillowData visualAnalysis leadType = Ok d.
Proof.
  unfold compareZillowWithVisual.
  destruct (truthy zillowData) eqn:Hz, (truthy visualAnalysis) eqn:Hv; cbn [negb orb];
    try (eexists; reflexivity).
  repeat case_match;
    eauto using comparePoolData_returns, compareBackyardData_returns.
Qed.

Lemma calculateLeadQuality_returns (zillowData visualAnalysis leadType : JSValue)
  (d : Discrepancy) :
  exists qa, calculateLeadQuality coerce zillowData visualAnalysis d leadType = Ok qa.
Proof.
  unfold calculateLeadQuality.
  destruct (truthy visualAnalysis) eqn:Hv; cbn [negb]; [|eexists; reflexivity].
  read_all visualAnalysis Hv. settle.
Qed.

(** A report is produced for every validation record (any value other than
    [null] and [undefined]). *)
Lemma generateQualityReport_returns (now : string)
  (leadId zillowData visualValidation leadType : JSValue) :
  visualValidation <> JUndefined ->
  visualValidation <> JNull ->
  exists report,
    generateQualityReport coerce now leadId zillowData visualValidation leadType = Ok report.
Proof.
  intros Hu Hn. unfold generateQualityReport.
  assert (G : forall k, exists v, get visualValidation k = Ok v)
    by (intros k; destruct visualValidation; cbn; try congruence; eauto).
  destruct (G "analysis") as [va ->]. destruct (G "satelliteImageUrl") as [url ->].
  cbn [mbind result_bind].
  assert (T : truthy (js_or va (JObj [])) = true)
    by (unfold js_or; destruct (truthy va) eqn:E; [exact E|reflexivity]).
  destruct (compareZillowWithVisual_returns zillowData (js_or va (JObj [])) leadType)
    as [d ->].
  cbn [mbind result_bind].
  destruct (calculateLeadQuality_returns zillowData (js_or va (JObj [])) leadType d)
    as [qa ->].
  cbn [mbind result_bind].
  destruct (get_truthy _ "confidence" T) as [vc ->].
  eexists; reflexivity.
Qed.

(** A detected major discrepancy forces the score to low. *)
Lemma calculateLeadQuality_major (zillowData visualAnalysis leadType : JSValue)
  (d : Discrepancy) (qa : QualityAssessment) :
  detected d = true ->
  severity d = major ->
  calculateLeadQuality coerce zillowData visualAnalysis d leadType = Ok qa ->
  qualityScore qa = low.
Proof.
  intros Hd Hs E. unfold calculateLeadQuality in E. rewrite Hd, Hs in E.
  unfold mbind, result_bind, mret, result_ret in E. cbn [negb] in E.
  repeat case_match; simplify_eq; reflexivity.
Qed.

(** On a consistent discrepancy [getRecommendation] is the mapping of the
    specification. *)
Lemma getRecommendation_recommend (q : QualityScore) (d : Discrepancy) :
  consistent d ->
  verdict_of (getRecommendation q d) = Some (recommend q (severity d)).
Proof.
  intros [C|C]; unfold getRecommendation; rewrite C; destruct q; try reflexivity;
    destruct (severity d); try reflexivity; destruct (detected d); reflexivity.
Qed.


End Reconciler.

(** Scenario A: the listing denies the pool that the analysis sees with
    confidence 85. *)
Lemma pool_mismatch_severity_tiers_witness :
  exists d,
    compareZillowWithVisual no_coercion dry_listing (JObj pool_analysis) (JStr "PoolLeadGen")
    = Ok d
    /\ detected d = true
    /\ type d = Some "pool_mismatch"
    /\ (severity d = major <-> (80 <= 85)%Q)
    /\ (severity d = minor <-> (60 <= 85 /\ 85 < 80)%Q)
    /\ (severity d = none <-> (85 < 60)%Q).
Proof.
  apply (pool_mismatch_severity_tiers no_coercion dry_listing (JObj pool_analysis) false true 85);
    [reflexivity | reflexivity | reflexivity | discriminate].
Defined.

(** A listing that says nothing about a pool, against the same analysis. *)
Lemma falsy_has_pool_asserts_no_pool_witness :
  exists d,
    compareZillowWithVisual no_coercion (JObj silent_listing) (JObj pool_analysis)
      (JStr "PoolLeadGen") = Ok d
    /\ detected d = true
    /\ type d = Some "pool_mismatch"
    /\ map zillowValue (details d) = [JBool false]
    /\ severity d = tier 85
    /\ (severity d = major <-> (80 <= 85)%Q)
    /\ (severity d = minor <-> (60 <= 85 /\ 85 < 80)%Q)
    /\ (severity d = none <-> (85 < 60)%Q).
Proof.
  apply (falsy_has_pool_asserts_no_pool no_coercion silent_listing pool_analysis 85);
    reflexivity.
Defined.



End ReconcilerProps.

(** ** The batch service *)
Module BatchProps.
Import BatchLeadService Samples.

Section Validity.

Variable coerce : JSValue -> option Q.


End Validity.

Section Search.

Context {Id : Type} `{Countable Id}.

Variable searchProperties : SearchRequest -> Result (option (list (Property (Id := Id)))).

(** Once the target is reached no further price range is searched. *)
Lemma search_ranges_stops (location : string) (leadType : JSValue) (totalNeeded : Z)
  (ranges : list PriceRange) (st : SearchState) :
  reached totalNeeded st = true ->
  search_ranges searchProperties location leadType totalNeeded ranges st = st.
Proof. intros R. destruct ranges; cbn; [reflexivity|]. rewrite R. reflexivity. Qed.

Lemma add_properties_requests (totalNeeded : Z) (properties : list (Property (Id := Id)))
  (st : SearchState) :
  requests (add_properties totalNeeded properties st) = requests st.
Proof.
  revert st. induction properties as [|p ps IH]; intros st; cbn; [reflexivity|].
  destruct (decide (id p ∈ seenIds st)); [apply IH|].
  match goal with |- context [if ?b then _ else _] => destruct b end;
    [reflexivity|rewrite IH; reflexivity].
Qed.

(** While the target is not reached, the next price range is searched. *)
Lemma search_ranges_continues (location : string) (leadType : JSValue) (totalNeeded : Z)
  (priceRange : PriceRange) (ranges : list PriceRange) (st : SearchState) :
  reached totalNeeded st = false ->
  exists st',
    search_ranges searchProperties location leadType totalNeeded (priceRange :: ranges) st
    = search_ranges searchProperties location leadType totalNeeded ranges st'
    /\ length (requests st') = S (length (requests st)).
Proof.
  intros R. cbn [search_ranges]. rewrite R.
  eexists. split; [reflexivity|].
  destruct (searchProperties _) as [[ps|]|]; rewrite ?add_properties_requests; cbn;
    rewrite length_app; cbn; lia.
Qed.

End Search.


End BatchProps.

(** ** The cache *)
Module CacheProps.
Import CacheService Samples.

Section Cache.

Variable stdTTL : Z.
Variable number_key : Q -> string.

Lemma strict_eq_undefined (value : JSValue) :
  strict_eq value JUndefined = true -> value = JUndefined.
Proof. destruct value; cbn; congruence. Qed.

(** An entry written with a non-negative time to live has not expired at
    the time of the write. *)
Lemma written_entry_is_live (now : Z) (key value : JSValue) (ttl : Z)
  (data : gmap string Entry) :
  (0 <= ttl)%Z ->
  expired number_key now key (snd (NodeCache_set number_key now key value ttl data)) = false.
Proof.
  intros Httl. unfold expired, NodeCache_set.
  destruct (slot number_key key) as [k|] eqn:Ek; [|reflexivity].
  cbn [snd]. rewrite lookup_insert_eq. unfold stale, livetime. cbn.
  destruct (ttl =? 0)%Z eqn:E0; cbn; [reflexivity|].
  apply Z.eqb_neq in E0.
  destruct (now + ttl * 1000 =? 0)%Z; cbn; [reflexivity|].
  apply Z.ltb_ge. lia.
Qed.

(** C8: a write [set(key, record, ttl)] that returns true, followed by
    [get(key)] on the resulting store before the entry expires, returns
    [record] itself, hence a value deep-equal to it. *)
Theorem set_get_round_trip (now now' : Z) (key record : JSValue) (ttl : option Z)
  (data data' : gmap string Entry) :
  set stdTTL number_key now key record ttl data = (true, data') ->
  expired number_key now' key data' = false ->
  get number_key now' key data' = (Ok record, data').
Proof.
  unfold set, get, expired, NodeCache_get.
  intros Hset Hlive.
  assert (exists seconds k,
             slot number_key key = Ok k
             /\ data' = <[ k := mkEntry (livetime now seconds) record ]> data)
    as (seconds & k & Hk & ->).
  { destruct ttl as [seconds|]; unfold NodeCache_set in Hset;
      destruct (slot number_key key) as [k|]; simplify_eq; eauto. }
  rewrite Hk in *. rewrite lookup_insert_eq in *. rewrite Hlive. cbn [v].
  destruct (strict_eq record JUndefined) eqn:Eu; cbn [negb]; [|reflexivity].
  rewrite (strict_eq_undefined _ Eu). reflexivity.
Qed.

End Cache.

(** The cached record, read back at the instant of the write. *)
Lemma set_get_round_trip_witness :
  get sample_number_key 1700000000000 sample_key cached_store
  = (Ok (record_of "PoolLeadGen" pool_analysis), cached_store).
Proof.
  apply (set_get_round_trip 600 sample_number_key 1700000000000 1700000000000 sample_key
           (record_of "PoolLeadGen" pool_analysis) (Some 1800%Z) ∅ cached_store).
  - reflexivity.
  - vm_compute. reflexivity.
Defined.

End CacheProps.

(** ** The visual inspector *)
Module InspectorProps.
Import VisualInspector Histories Samples.

Lemma extends_ret {A} (a : A) : extends (mret a).
Proof. intros h. exists []. cbn. by rewrite app_nil_r. Qed.

Lemma extends_throw {A} (message : string) : extends (throw (A := A) message).
Proof. intros h. exists []. cbn. by rewrite app_nil_r. Qed.

Lemma extends_lift {A} (r : Result A) : extends (lift r).
Proof. intros h. exists []. cbn. by rewrite app_nil_r. Qed.

Lemma extends_bind {A B} (m : IO A) (f : A -> IO B) :
  extends m -> (forall a, extends (f a)) -> extends (m ≫= f).
Proof.
  intros Hm Hf h. destruct (Hm h) as [r1 E1].
  unfold mbind, io_bind. cbn [run].
  destruct (run m h) as [[a|e] h1] eqn:E; cbn in *; subst h1.
  - destruct (Hf a (h ++ r1)) as [r2 E2]. exists (r1 ++ r2). by rewrite E2, app_assoc.
  - by exists r1.
Qed.

Lemma extends_try {A} (body : IO A) (handler : string -> IO A) :
  extends body -> (forall e, extends (handler e)) -> extends (io_try body handler).
Proof.
  intros Hm Hf h. destruct (Hm h) as [r1 E1].
  unfold io_try. cbn [run].
  destruct (run body h) as [[a|e] h1] eqn:E; cbn in *; subst h1.
  - by exists r1.
  - destruct (Hf e (h ++ r1)) as [r2 E2]. exists (r1 ++ r2). by rewrite E2, app_assoc.
Qed.

Section Inspector.

Variable JSON_parse : string -> Result JSValue.
Variable query_string : JSValue -> JSValue -> string -> string.
Variable now : string.
Variable respond : History -> Endpoint -> Result string.
Variable config : Config.

#[local] Abbreviation parseAnalysisResponse := (parseAnalysisResponse JSON_parse).
#[local] Abbreviation analyzePropertyWithLLM := (analyzePropertyWithLLM JSON_parse respond config).
#[local] Abbreviation analyzePropertyWithGroq := (analyzePropertyWithGroq JSON_parse respond config).
#[local] Abbreviation analyzePropertyWithGemini :=
  (analyzePropertyWithGemini JSON_parse respond config).
#[local] Abbreviation fallback := (fallback JSON_parse respond config).
#[local] Abbreviation verify_property_visually :=
  (verify_property_visually JSON_parse query_string now respond config).

Lemma extends_request (e : Endpoint) : extends (request respond e).
Proof. intros h. by exists [e]. Qed.

Lemma extends_check_arguments (imageUrl : string) (leadType : JSValue) :
  extends (check_arguments imageUrl leadType).
Proof.
  unfold check_arguments. repeat case_match; auto using extends_throw, @extends_ret.
Qed.

Lemma analyzePropertyWithGemini_extends (imageUrl : string) (leadType : JSValue) :
  extends (analyzePropertyWithGemini imageUrl leadType).
Proof.
  unfold VisualInspector.analyzePropertyWithGemini, fetchImageAsBase64.
  apply extends_try; [|intros; apply extends_throw].
  case_match; [apply extends_throw|].
  repeat (apply extends_bind; [|intros]);
    auto using extends_check_arguments, extends_request, @extends_lift, @extends_throw,
      @extends_try.
Qed.

(** The run of the Groq provider once its guards are passed. *)
Lemma run_groq (imageUrl : string) (leadType : JSValue) (h : History) :
  configured (groqApiKey config) = true ->
  configured imageUrl = true ->
  supported leadType = true ->
  run (analyzePropertyWithGroq imageUrl leadType) h
  = (match respond h Groq ≫= (fun text => parseAnalysisResponse text leadType) with
     | Ok analysis => Ok analysis
     | Throw e => Throw ("Failed to analyze image with Groq: " +:+ e)
     end, h ++ [Groq]).
Proof.
  intros Hk Hu Hs.
  unfold VisualInspector.analyzePropertyWithGroq, check_arguments. rewrite Hk, Hu, Hs. cbn.
  destruct (respond h Groq) as [text|e]; cbn; [|reflexivity].
  destruct (parseAnalysisResponse text leadType); reflexivity.
Qed.

(** When the chain fails, the error carries the message of the first
    failure. *)
Lemma fallback_error (imageUrl : string) (leadType : JSValue) (m e : string) (h : History) :
  fst (run (fallback imageUrl leadType m) h) = Throw e -> e = all_failed +:+ m.
Proof.
  unfold VisualInspector.fallback, io_try. cbn [run].
  destruct (run (analyzePropertyWithGroq imageUrl leadType) h) as [[a|e1] h1]; cbn [fst];
    [discriminate|].
  destruct (run (analyzePropertyWithGemini imageUrl leadType) h1) as [[a|e2] h2]; cbn [fst];
    [discriminate|].
  unfold throw. cbn [run fst]. intros [= <-]. reflexivity.
Qed.

(** With a Groq key, the chain starts with a request to Groq. *)
Lemma fallback_requests_groq (imageUrl : string) (leadType : JSValue) (m : string)
  (h : History) :
  configured (groqApiKey config) = true ->
  configured imageUrl = true ->
  supported leadType = true ->
  exists rest, snd (run (fallback imageUrl leadType m) h) = h ++ [Groq] ++ rest.
Proof.
  intros Hk Hu Hs.
  destruct (analyzePropertyWithGemini_extends imageUrl leadType (h ++ [Groq])) as [rest Hr].
  unfold VisualInspector.fallback, io_try. cbn [run].
  rewrite (run_groq _ _ _ Hk Hu Hs).
  destruct (respond h Groq ≫= _) as [a|e].
  - exists []. cbn. reflexivity.
  - destruct (run (analyzePropertyWithGemini imageUrl leadType) (h ++ [Groq]))
      as [[a|e2] h2] eqn:E; cbn in *; subst h2; exists rest; by rewrite <- app_assoc.
Qed.

(** The run of the primary provider once its guards are passed. *)
Lemma run_openai (imageUrl : string) (leadType : JSValue) (h : History) :
  configured (openaiApiKey config) = true ->
  configured imageUrl = true ->
  supported leadType = true ->
  run (analyzeWithOpenAI JSON_parse respond config imageUrl leadType) h
  = (respond h OpenAI ≫= (fun text => parseAnalysisResponse text leadType), h ++ [OpenAI]).
Proof.
  intros Hk Hu Hs. unfold analyzeWithOpenAI, check_arguments. rewrite Hk, Hu, Hs. cbn.
  destruct (respond h OpenAI) as [text|e]; reflexivity.
Qed.

(** A transport failure of the primary provider advances the chain. *)
Lemma transport_failure_advances_chain (imageUrl : string) (leadType : JSValue)
  (h : History) (m : string) :
  configured (openaiApiKey config) = true ->
  configured imageUrl = true ->
  supported leadType = true ->
  respond h OpenAI = Throw m ->
  run (analyzePropertyWithLLM imageUrl leadType) h
  = run (fallback imageUrl leadType m) (h ++ [OpenAI]).
Proof.
  intros Hk Hu Hs Hr. unfold VisualInspector.analyzePropertyWithLLM, io_try. cbn [run].
  rewrite (run_openai _ _ _ Hk Hu Hs), Hr. reflexivity.
Qed.


(** An unsupported lead type is rejected by every provider before its
    request is sent. *)
Lemma analyzePropertyWithLLM_unsupported (imageUrl : string) (leadType : JSValue)
  (h : History) :
  supported leadType = false ->
  exists e, run (analyzePropertyWithLLM imageUrl leadType) h = (Throw e, h).
Proof.
  intros Hs.
  unfold VisualInspector.analyzePropertyWithLLM, analyzeWithOpenAI, VisualInspector.fallback,
    VisualInspector.analyzePropertyWithGroq, VisualInspector.analyzePropertyWithGemini,
    check_arguments, io_try, throw.
  rewrite Hs.
  destruct (configured (openaiApiKey config)), (configured (groqApiKey config)),
    (configured (geminiApiKey config)), (configured imageUrl); cbn; eauto.
Qed.


End Inspector.





End InspectorProps.

(** ** More on the reconciler *)
Module ReconcilerExtras.
Import LeadQualityService Spec Samples MoreSamples.

Section Reconciler.

Variable coerce : JSValue -> option Q.

Ltac reads o H :=
  repeat match goal with
         | |- context [get o ?k] =>
             let v := fresh "v" in
             let E := fresh "E" in
             destruct (get_truthy o k H) as [v E]; rewrite E; clear E
         end.

Lemma calculateLeadQuality_low (zillowData visualAnalysis leadType : JSValue)
  (d : Discrepancy) :
  exists qa,
    calculateLeadQuality coerce zillowData visualAnalysis d leadType = Ok qa
    /\ (qualityScore qa = low <->
        truthy visualAnalysis = false \/ (detected d = true /\ severity d = major)).
Proof.
  unfold calculateLeadQuality.
  destruct (truthy visualAnalysis) eqn:Hv; cbn [negb].
  - reads visualAnalysis Hv. cbn [mbind result_bind mret result_ret].
    destruct (detected d) eqn:Hd, (severity d) eqn:Hs; cbn [negb];
      repeat case_match; simplify_eq;
      eexists; (split; [reflexivity|]); cbn [qualityScore];
      split; intros; try discriminate; auto; intuition congruence.
  - eexists. split; [reflexivity|]. cbn. intuition.
Qed.


(** The stages of [generateQualityReport] behind a report. *)
Lemma report_stages (now : string) (leadId zillowData visualValidation leadType : JSValue)
  (report : QualityReport) :
  generateQualityReport coerce now leadId zillowData visualValidation leadType = Ok report ->
  exists va d qa vc,
    get visualValidation "analysis" = Ok va
    /\ get (js_or va (JObj [])) "confidence" = Ok vc
    /\ compareZillowWithVisual coerce zillowData (js_or va (JObj [])) leadType = Ok d
    /\ calculateLeadQuality coerce zillowData (js_or va (JObj [])) d leadType = Ok qa
    /\ report_qualityScore report = qualityScore qa
    /\ report_confidence report = confidence qa
    /\ report_discrepancy report
       = mkReportDiscrepancy (detected d) (type d) (severity d) (details d)
    /\ recommendation report = getRecommendation (qualityScore qa) d
    /\ flag report
       = (if detected d && match severity d with major => true | _ => false end
          then Some (flagLeadDiscrepancy now leadId (type d)
                       (mkFlagEvidence (evidence_satelliteImageUrl report) zillowData
                          (js_or va (JObj [])) (details d) (js_or vc (JNum 0)) leadType))
          else None).
Proof.
  intros E. unfold generateQualityReport in E.
  destruct (get visualValidation "analysis") as [va|] eqn:Ea; [|discriminate].
  destruct (get visualValidation "satelliteImageUrl") as [url|] eqn:Eu; [|discriminate].
  cbn [mbind result_bind] in E.
  destruct (compareZillowWithVisual coerce zillowData (js_or va (JObj [])) leadType)
    as [d|] eqn:Ed; [|discriminate].
  cbn [mbind result_bind] in E.
  destruct (calculateLeadQuality coerce zillowData (js_or va (JObj [])) d leadType)
    as [qa|] eqn:Eq; [|discriminate].
  cbn [mbind result_bind] in E.
  destruct (get (js_or va (JObj [])) "confidence") as [vc|] eqn:Ec; [|discriminate].
  cbn [mbind result_bind mret result_ret] in E. injection E as <-.
  exists va, d, qa, vc. repeat split; try assumption; try reflexivity.
Qed.

Lemma analysis_or_empty_truthy (va : JSValue) : truthy (js_or va (JObj [])) = true.
Proof. unfold js_or. destruct (truthy va) eqn:E; [exact E|reflexivity]. Qed.

(** X2: in a report of [generateQualityReport] the flag is present exactly
    when the severity of the embedded discrepancy is major; the flag then
    carries the type and the details of that discrepancy and requires
    review. *)
Theorem flag_iff_major (now : string) (leadId zillowData visualValidation leadType : JSValue)
  (report : QualityReport) :
  generateQualityReport coerce now leadId zillowData visualValidation leadType = Ok report ->
  (is_Some (flag report) <-> rd_severity (report_discrepancy report) = major)
  /\ (forall f, flag report = Some f ->
        flag_leadId f = leadId
        /\ flagType f = rd_type (report_discrepancy report)
        /\ fe_discrepancyDetails (flag_evidence f) = rd_details (report_discrepancy report)
        /\ flag_status f = "flagged"
        /\ requiresReview f = true).
Proof.
  intros E.
  destruct (report_stages _ _ _ _ _ _ E) as (va & d & qa & vc & _ & _ & Ed & _ & _ & _ & Er & _ & Ef).
  pose proof (ReconcilerProps.compareZillowWithVisual_consistent _ _ _ _ _ Ed) as C.
  rewrite Er, Ef. cbn [rd_severity rd_type rd_details].
  destruct C as [C|C]; rewrite C; destruct (severity d) eqn:Hs; cbn;
    try destruct (detected d); cbn; (split; [split|]);
    intros; try discriminate; try congruence; try (by eexists);
    try (match goal with H : is_Some None |- _ => destruct H; discriminate end);
    simplify_eq; cbn; auto.
Qed.

(** X3: a report of [generateQualityReport] never recommends REVIEW: the
    score is low, and the recommendation REJECT, exactly when the severity of
    the discrepancy is major; every other report recommends APPROVE. *)
Theorem reports_reject_iff_major (now : string)
  (leadId zillowData visualValidation leadType : JSValue) (report : QualityReport) :
  generateQualityReport coerce now leadId zillowData visualValidation leadType = Ok report ->
  (report_qualityScore report = low <-> rd_severity (report_discrepancy report) = major)
  /\ (verdict_of (recommendation report) = Some REJECT
      <-> rd_severity (report_discrepancy report) = major)
  /\ (verdict_of (recommendation report) = Some APPROVE
      <-> rd_severity (report_discrepancy report) <> major)
  /\ verdict_of (recommendation report) <> Some REVIEW.
Proof.
  intros E.
  destruct (report_stages _ _ _ _ _ _ E) as (va & d & qa & vc & _ & _ & Ed & Eq & Es & _ & Er & Erec & _).
  pose proof (ReconcilerProps.compareZillowWithVisual_consistent _ _ _ _ _ Ed) as C.
  destruct (calculateLeadQuality_low zillowData (js_or va (JObj [])) leadType d)
    as (qa' & Eq' & L).
  rewrite Eq in Eq'. injection Eq' as <-.
  rewrite analysis_or_empty_truthy in L.
  rewrite Er, Erec, Es. cbn [rd_severity].
  assert (M : qualityScore qa = low <-> severity d = major).
  { rewrite L. split.
    - intros [?|[_ ?]]; [discriminate|assumption].
    - intros Hs. right. split; [|assumption]. destruct C as [C|C]; congruence. }
  rewrite (ReconcilerProps.getRecommendation_recommend _ _ C).
  split; [exact M|].
  destruct (qualityScore qa) eqn:Hq, (severity d) eqn:Hs;
    try (exfalso; destruct M as [M1 M2];
         first [ specialize (M2 eq_refl); discriminate
               | specialize (M1 eq_refl); discriminate ]);
    cbn; repeat split; intros; try discriminate; try congruence.
Qed.

Lemma strict_eq_string (v : JSValue) (s : string) :
  strict_eq v (JStr s) = true -> v = JStr s.
Proof.
  destruct v; cbn; try discriminate. intros E. apply String.eqb_eq in E. congruence.
Qed.

(** X4: the pool presence of the provider is compared by strict equality
    after [|| false]: a provider value that is truthy without being the
    boolean [true] (the number 1, the string 'yes') does not match the
    [true] of the vision analysis, and a [pool_mismatch] is detected with the
    severity of the confidence tiers although both sides assert a pool. *)
Theorem truthy_nonboolean_pool_mismatches (zf vf : list (string * JSValue)) (c : Q) :
  truthy (lookup_field "has_pool" zf) = true ->
  (forall b, lookup_field "has_pool" zf <> JBool b) ->
  lookup_field "has_pool" vf = JBool true ->
  lookup_field "confidence" vf = JNum c ->
  exists d,
    compareZillowWithVisual coerce (JObj zf) (JObj vf) (JStr "PoolLeadGen") = Ok d
    /\ detected d = true
    /\ type d = Some "pool_mismatch"
    /\ severity d = tier c
    /\ hd_error (details d)
       = Some (mkDetail "has_pool" (lookup_field "has_pool" zf) (JBool true)
                 (js_or (JNum c) (JNum 0))).
Proof.
  intros Ht Hb Hv Hc.
  unfold compareZillowWithVisual. cbn [truthy negb orb strict_eq].
  replace (String.eqb "PoolLeadGen" "PoolLeadGen") with true by reflexivity. cbv iota.
  unfold comparePoolData. rewrite !get_object, Hv, Hc. cbn [mbind result_bind].
  assert (E : js_or (lookup_field "has_pool" zf) (JBool false) = lookup_field "has_pool" zf)
    by (unfold js_or; rewrite Ht; reflexivity).
  rewrite !E, Ht.
  replace (js_or (JBool true) (JBool false)) with (JBool true) by reflexivity.
  assert (N : strict_eq (lookup_field "has_pool" zf) (JBool true) = false).
  { destruct (lookup_field "has_pool" zf) as [| |b| | | | |]; try reflexivity.
    exfalso. apply (Hb b). reflexivity. }
  rewrite N, !js_ge_confidence. cbn [negb truthy andb]. cbv iota.
  unfold tier.
  match goal with |- context [if ?b then mret _ else mret _] => destruct b end;
    cbn [mret result_ret mbind result_bind];
    (destruct (Qle_bool 80 c); [|destruct (Qle_bool 60 c)]);
    eexists; (split; [reflexivity|]); cbn; auto.
Qed.

(** X5: when both sides assert a pool and name different pool types, the
    discrepancy is detected as [pool_type_mismatch] with severity none; the
    score is then medium whatever the confidence (it is not raised to high at
    80 or more), and the recommendation is APPROVE. *)
Theorem pool_type_mismatch_caps_score (zf vf : list (string * JSValue)) (s1 s2 : string)
  (c : Q) :
  lookup_field "has_pool" zf = JBool true ->
  lookup_field "has_pool" vf = JBool true ->
  lookup_field "pool_type" zf = JStr s1 ->
  lookup_field "pool_type" vf = JStr s2 ->
  s1 <> EmptyString -> s2 <> EmptyString -> s1 <> s2 ->
  lookup_field "confidence" vf = JNum c ->
  exists d qa,
    compareZillowWithVisual coerce (JObj zf) (JObj vf) (JStr "PoolLeadGen") = Ok d
    /\ detected d = true
    /\ type d = Some "pool_type_mismatch"
    /\ severity d = none
    /\ calculateLeadQuality coerce (JObj zf) (JObj vf) d (JStr "PoolLeadGen") = Ok qa
    /\ qualityScore qa = medium
    /\ verdict_of (getRecommendation (qualityScore qa) d) = Some APPROVE.
Proof.
  intros Hz Hv Tz Tv N1 N2 N12 Hc.
  apply String.eqb_neq in N1, N2, N12.
  eexists. eexists. split.
  { unfold compareZillowWithVisual. cbn [truthy negb orb strict_eq].
    replace (String.eqb "PoolLeadGen" "PoolLeadGen") with true by reflexivity. cbv iota.
    unfold comparePoolData. rewrite !get_object, Hz, Hv, Hc, Tz, Tv.
    cbn [mbind result_bind].
    replace (js_or (JBool true) (JBool false)) with (JBool true) by reflexivity.
    assert (E1 : js_or (JStr s1) JNull = JStr s1) by (unfold js_or; cbn; rewrite N1; reflexivity).
    assert (E2 : js_or (JStr s2) JNull = JStr s2) by (unfold js_or; cbn; rewrite N2; reflexivity).
    rewrite E1, E2. cbn [strict_eq Bool.eqb negb truthy andb]. rewrite N1, N2, N12.
    cbn. reflexivity. }
  cbn [detected type severity]. do 3 (split; [reflexivity|]).
  split.
  - unfold calculateLeadQuality. rewrite !get_object, Hv, Hc. cbn. reflexivity.
  - split; reflexivity.
Qed.

(** X6: a BackyardBoost evaluation ends with severity major only if the
    provider does not deny the backyard ([has_backyard] is not [false]), the
    vision analysis reports a low free area (an absent estimate counts as
    low) and its confidence is at least 90; the discrepancy is then tagged
    [backyard_size_mismatch]. *)
Theorem backyard_major_needs_high_confidence (zf vf : list (string * JSValue)) (c : Q)
  (d : Discrepancy) :
  lookup_field "confidence" vf = JNum c ->
  compareZillowWithVisual coerce (JObj zf) (JObj vf) (JStr "BackyardBoost") = Ok d ->
  severity d = major ->
  lookup_field "has_backyard" zf <> JBool false
  /\ js_or (lookup_field "estimated_free_area" vf) (JStr "low") = JStr "low"
  /\ (90 <= c)%Q
  /\ detected d = true
  /\ type d = Some "backyard_size_mismatch".
Proof.
  intros Hc E Hs. unfold compareZillowWithVisual in E.
  cbn [truthy negb orb strict_eq] in E.
  replace (String.eqb "BackyardBoost" "PoolLeadGen") with false in E by reflexivity.
  replace (String.eqb "BackyardBoost" "BackyardBoost") with true in E by reflexivity.
  cbv iota in E. unfold compareBackyardData in E.
  rewrite !get_object, Hc in E. cbn [mbind result_bind] in E.
  unfold mret, result_ret in E. rewrite js_ge_confidence in E.
  destruct (truthy _ && strict_eq _ (JStr "high")); [simplify_eq; discriminate|].
  match type of E with
  | context [if ?size then set_severity major _ else _] => destruct size eqn:Hsize
  end.
  - apply andb_prop in Hsize as [Hsize H90]. apply andb_prop in Hsize as [Hb Hlow].
    apply Qle_bool_iff in H90. apply strict_eq_string in Hlow.
    assert (lookup_field "has_backyard" zf <> JBool false)
      by (intros X; rewrite X in Hb; discriminate).
    repeat case_match; simplify_eq; cbn in *; try discriminate; auto.
  - repeat case_match; simplify_eq; cbn in *; discriminate.
Qed.

End Reconciler.

(** The report of scenario A carries a flag. *)
Lemma flag_iff_major_witness :
  exists report,
    generateQualityReport no_coercion sample_now (JStr "zpid-2") dry_listing
      (record_of "PoolLeadGen" pool_analysis) (JStr "PoolLeadGen") = Ok report
    /\ (is_Some (flag report) <-> rd_severity (report_discrepancy report) = major)
    /\ (forall f, flag report = Some f ->
          flag_leadId f = JStr "zpid-2"
          /\ flagType f = rd_type (report_discrepancy report)
          /\ fe_discrepancyDetails (flag_evidence f) = rd_details (report_discrepancy report)
          /\ flag_status f = "flagged"
          /\ requiresReview f = true).
Proof.
  eexists. split; [vm_compute; reflexivity|].
  apply (flag_iff_major no_coercion sample_now (JStr "zpid-2") dry_listing
           (record_of "PoolLeadGen" pool_analysis) (JStr "PoolLeadGen")).
  vm_compute. reflexivity.
Defined.

(** The report of scenario A is rejected. *)
Lemma reports_reject_iff_major_witness :
  exists report,
    generateQualityReport no_coercion sample_now (JStr "zpid-2") dry_listing
      (record_of "PoolLeadGen" pool_analysis) (JStr "PoolLeadGen") = Ok report
    /\ (report_qualityScore report = low <-> rd_severity (report_discrepancy report) = major)
    /\ (verdict_of (recommendation report) = Some REJECT
        <-> rd_severity (report_discrepancy report) = major)
    /\ (verdict_of (recommendation report) = Some APPROVE
        <-> rd_severity (report_discrepancy report) <> major)
    /\ verdict_of (recommendation report) <> Some REVIEW.
Proof.
  eexists. split; [vm_compute; reflexivity|].
  apply (reports_reject_iff_major no_coercion sample_now (JStr "zpid-2") dry_listing
           (record_of "PoolLeadGen" pool_analysis) (JStr "PoolLeadGen")).
  vm_compute. reflexivity.
Defined.

(** A pool flag of 1 against a vision analysis that sees the pool. *)
Lemma truthy_nonboolean_pool_mismatches_witness :
  exists d,
    compareZillowWithVisual no_coercion (JObj numeric_flag_listing) (JObj pool_analysis)
      (JStr "PoolLeadGen") = Ok d
    /\ detected d = true
    /\ type d = Some "pool_mismatch"
    /\ severity d = tier 85
    /\ hd_error (details d)
       = Some (mkDetail "has_pool" (lookup_field "has_pool" numeric_flag_listing) (JBool true)
                 (js_or (JNum 85) (JNum 0))).
Proof.
  apply (truthy_nonboolean_pool_mismatches no_coercion numeric_flag_listing pool_analysis 85);
    [reflexivity | intros b; discriminate | reflexivity | reflexivity].
Defined.

(** An above-ground pool in the listing, an in-ground pool in the analysis. *)
Lemma pool_type_mismatch_caps_score_witness :
  exists d qa,
    compareZillowWithVisual no_coercion (JObj above_ground_listing) (JObj pool_analysis)
      (JStr "PoolLeadGen") = Ok d
    /\ detected d = true
    /\ type d = Some "pool_type_mismatch"
    /\ severity d = none
    /\ calculateLeadQuality no_coercion (JObj above_ground_listing) (JObj pool_analysis) d
         (JStr "PoolLeadGen") = Ok qa
    /\ qualityScore qa = medium
    /\ verdict_of (getRecommendation (qualityScore qa) d) = Some APPROVE.
Proof.
  apply (pool_type_mismatch_caps_score no_coercion above_ground_listing pool_analysis
           "above-ground" "in-ground" 85);
    first [reflexivity | discriminate].
Defined.

(** The paved yard seen with confidence 95. *)
Lemma backyard_major_needs_high_confidence_witness :
  lookup_field "has_backyard" yard_fields <> JBool false
  /\ js_or (lookup_field "estimated_free_area" paved_yard_fields) (JStr "low") = JStr "low"
  /\ (90 <= 95)%Q
  /\ detected (set_confidenceDiff (JNum 45)
                 (set_severity major
                    (push_detail
                       (mkDetail "estimated_free_area" (JStr "large") (JStr "low") (JNum 95))
                       (set_type "backyard_size_mismatch"
                          (set_detected fresh_discrepancy))))) = true
  /\ type (set_confidenceDiff (JNum 45)
             (set_severity major
                (push_detail
                   (mkDetail "estimated_free_area" (JStr "large") (JStr "low") (JNum 95))
                   (set_type "backyard_size_mismatch"
                      (set_detected fresh_discrepancy)))))
     = Some "backyard_size_mismatch".
Proof.
  apply (backyard_major_needs_high_confidence no_coercion yard_fields paved_yard_fields 95);
    reflexivity.
Defined.

End ReconcilerExtras.

(** ** More on the candidate search *)
Module SearchExtras.
Import BatchLeadService SearchInvariants Samples.

Section Search.

Context {Id : Type} `{Countable Id}.

Variable searchProperties : SearchRequest -> Result (option (list (Property (Id := Id)))).
Variable location : string.
Variable leadType : JSValue.
Variable totalNeeded : Z.

#[local] Abbreviation bounded := (bounded totalNeeded).
#[local] Abbreviation sourced := (sourced searchProperties).

Lemma add_properties_distinct (properties : list (Property (Id := Id))) (st : SearchState (Id := Id)) :
  distinct st -> distinct (add_properties totalNeeded properties st).
Proof.
  revert st. induction properties as [|p ps IH]; intros st D; cbn; [exact D|].
  destruct (decide (id p ∈ seenIds st)) as [Hin|Hout]; [auto|].
  assert (D' : distinct (mkSearchState (allProperties st ++ [p]) ({[id p]} ∪ seenIds st)
                           (requests st))).
  { destruct D as [N S]. split; cbn.
    - rewrite map_app. cbn. apply NoDup_app. split; [exact N|]. split.
      + intros x Hx Hx'. apply list_elem_of_singleton in Hx'. subst x.
        apply list_elem_of_fmap in Hx as (q & Hq & Hq'). apply Hout. rewrite Hq. auto.
      + apply NoDup_singleton.
    - intros q Hq. apply elem_of_app in Hq as [Hq|Hq].
      + apply elem_of_union_r. auto.
      + apply list_elem_of_singleton in Hq. subst q. apply elem_of_union_l.
        by apply elem_of_singleton. }
  case_match; auto.
Qed.

Lemma add_properties_bounded (properties : list (Property (Id := Id))) (st : SearchState (Id := Id)) :
  reached totalNeeded st = false -> bounded (add_properties totalNeeded properties st).
Proof.
  revert st. induction properties as [|p ps IH]; intros st R; cbn.
  - unfold bounded, reached in *. apply Z.leb_gt in R. lia.
  - destruct (decide (id p ∈ seenIds st)); [auto|].
    case_match eqn:R'; [|auto].
    unfold bounded, reached in *. cbn in *. apply Z.leb_gt in R.
    rewrite length_app in *. cbn in *. lia.
Qed.

Lemma add_properties_sourced (request : SearchRequest) (answer properties : list (Property (Id := Id)))
  (st : SearchState (Id := Id)) :
  searchProperties request = Ok (Some answer) ->
  request ∈ requests st ->
  (forall p, p ∈ properties -> p ∈ answer) ->
  sourced st -> sourced (add_properties totalNeeded properties st).
Proof.
  intros Ha Hr. revert st Hr.
  induction properties as [|p ps IH]; intros st Hr Hsub S; cbn; [exact S|].
  assert (Hps : forall q, q ∈ ps -> q ∈ answer)
    by (intros q Hq; apply Hsub; by apply elem_of_cons; right).
  destruct (decide (id p ∈ seenIds st)); [auto|].
  assert (S' : sourced (mkSearchState (allProperties st ++ [p]) ({[id p]} ∪ seenIds st)
                          (requests st))).
  { intros q Hq. cbn in Hq. apply elem_of_app in Hq as [Hq|Hq]; [by apply S|].
    apply list_elem_of_singleton in Hq. subst q.
    exists request, answer. repeat split; auto. apply Hsub. by apply elem_of_cons; left. }
  case_match; auto.
Qed.

Lemma sourced_asked (request : SearchRequest) (st : SearchState (Id := Id)) :
  sourced st ->
  sourced (mkSearchState (allProperties st) (seenIds st) (requests st ++ [request])).
Proof.
  intros S p Hp. destruct (S p Hp) as (r & ps & Hr & Ha & Hin).
  exists r, ps. repeat split; auto. cbn. apply elem_of_app. by left.
Qed.

Lemma search_ranges_invariants (ranges : list PriceRange) (st : SearchState (Id := Id)) :
  distinct st -> bounded st -> sourced st ->
  let st' := search_ranges searchProperties location leadType totalNeeded ranges st in
  distinct st' /\ bounded st' /\ sourced st'.
Proof.
  revert st. induction ranges as [|r rs IH]; intros st D B S; cbn; [auto|].
  destruct (reached totalNeeded st) eqn:R; [auto|].
  match goal with
  | |- context [searchProperties ?q] => set (request := q)
  end.
  set (asked := mkSearchState (allProperties st) (seenIds st) (requests st ++ [request])).
  assert (Da : distinct asked) by exact D.
  assert (Ra : reached totalNeeded asked = false) by exact R.
  assert (Sa : sourced asked) by (apply sourced_asked; exact S).
  destruct (searchProperties request) as [[answer|]|e] eqn:Ha; apply IH; auto.
  - by apply add_properties_distinct.
  - by apply add_properties_bounded.
  - apply (add_properties_sourced request answer); auto.
    cbn. apply elem_of_app. right. by apply list_elem_of_singleton.
Qed.

(** X7: the candidates returned by [searchAcrossPriceRanges] have pairwise
    distinct identifiers, there are at most [totalNeeded] of them (none when
    [totalNeeded] is not positive), and each one was delivered by one of the
    searches that were issued. *)
Theorem search_result_is_distinct_and_bounded :
  NoDup (map id (allProperties
                   (searchAcrossPriceRanges searchProperties location leadType totalNeeded)))
  /\ (Z.of_nat (length (allProperties
                          (searchAcrossPriceRanges searchProperties location leadType
                             totalNeeded)))
      <= Z.max 0 totalNeeded)%Z
  /\ (forall p,
        p ∈ allProperties
              (searchAcrossPriceRanges searchProperties location leadType totalNeeded) ->
        exists request properties,
          request ∈ requests
                      (searchAcrossPriceRanges searchProperties location leadType totalNeeded)
          /\ searchProperties request = Ok (Some properties)
          /\ p ∈ properties).
Proof.
  unfold searchAcrossPriceRanges.
  destruct (search_ranges_invariants PRICE_RANGES (mkSearchState [] ∅ [])) as ((N & _) & B & S).
  - split; cbn; [constructor|]. intros p Hp. by apply elem_of_nil in Hp.
  - unfold bounded. cbn. lia.
  - intros p Hp. by apply elem_of_nil in Hp.
  - auto.
Qed.

Lemma search_ranges_requests (ranges : list PriceRange) (st : SearchState (Id := Id)) :
  exists k,
    (k <= length ranges)%nat
    /\ requests (search_ranges searchProperties location leadType totalNeeded ranges st)
       = requests st ++ map (request_for location leadType) (take k ranges).
Proof.
  revert st. induction ranges as [|r rs IH]; intros st; cbn.
  - exists 0%nat. split; [lia|]. by rewrite app_nil_r.
  - destruct (reached totalNeeded st); [exists 0%nat; split; [lia|by rewrite app_nil_r]|].
    match goal with
    | |- context [search_ranges _ _ _ _ rs ?s] => destruct (IH s) as (k & Hk & ->)
    end.
    exists (S k). split; [lia|].
    assert (R : forall s : SearchState (Id := Id),
               requests match searchProperties (request_for location leadType r) with
                        | Ok (Some ps) => add_properties totalNeeded ps s
                        | _ => s
                        end = requests s).
    { intros s. destruct (searchProperties _) as [[ps|]|]; auto.
      apply BatchProps.add_properties_requests. }
    unfold request_for in R at 1. cbn [take map].
    destruct (searchProperties _) as [[ps|]|];
      rewrite ?BatchProps.add_properties_requests; cbn [requests];
      by rewrite <- app_assoc.
Qed.

(** X8: the searches issued by [searchAcrossPriceRanges] are the requests
    for the leading price ranges, in the order of [PRICE_RANGES]: no range is
    skipped or repeated, at most 8 searches are made, and each one carries
    the location, the bounds of its range, at most 6 bedrooms and at least 3
    bedrooms for PoolLeadGen, 2 for any other lead type. *)
Theorem searches_are_leading_ranges :
  exists k,
    (k <= 8)%nat
    /\ requests (searchAcrossPriceRanges searchProperties location leadType totalNeeded)
       = map (request_for location leadType) (take k PRICE_RANGES).
Proof.
  unfold searchAcrossPriceRanges.
  destruct (search_ranges_requests PRICE_RANGES (mkSearchState [] ∅ [])) as (k & Hk & E).
  exists k. split; [exact Hk|]. rewrite E. reflexivity.
Qed.

Lemma search_ranges_forgiving (ranges : list PriceRange) (st : SearchState (Id := Id)) :
  search_ranges (forgiving searchProperties) location leadType totalNeeded ranges st
  = search_ranges searchProperties location leadType totalNeeded ranges st.
Proof.
  revert st. induction ranges as [|r rs IH]; intros st; cbn; [reflexivity|].
  destruct (reached totalNeeded st); [reflexivity|].
  unfold forgiving at 2.
  destruct (searchProperties _) as [[ps|]|]; cbn [add_properties]; apply IH.
Qed.

(** X9: a search that fails, or answers without a list of properties, is
    treated as an empty answer: the candidates and the searches issued are
    the same as with a listings client that answers with an empty list in
    these cases, so one failing price range does not abort the search. *)
Theorem failed_search_counts_as_empty :
  searchAcrossPriceRanges (forgiving searchProperties) location leadType totalNeeded
  = searchAcrossPriceRanges searchProperties location leadType totalNeeded.
Proof. apply search_ranges_forgiving. Qed.

End Search.

End SearchExtras.

(** ** The validation loop and the batch *)
Module OrchestratorProps.
Import LeadQualityService BatchLeadService VisualInspector Orchestrator BatchInvariants.
Import Samples MoreSamples.

Section Batch.

Variable coerce : JSValue -> option Q.
Variable JSON_parse : string -> Result JSValue.
Variable JSON_stringify : JSValue -> string.
Variable query_string : JSValue -> JSValue -> string -> string.
Variable now : string.
Variable respond : History -> Endpoint -> Result string.
Variable config : Config.
Variable stdTTL : Z.
Variable number_key : Q -> string.
Variable clock : nat -> Z.

#[local] Abbreviation examine :=
  (examine coerce JSON_parse JSON_stringify query_string now respond config stdTTL
     number_key clock).
#[local] Abbreviation validate_one :=
  (validate_one coerce JSON_parse JSON_stringify query_string now respond config stdTTL
     number_key clock).
#[local] Abbreviation validate_loop :=
  (validate_loop coerce JSON_parse JSON_stringify query_string now respond config stdTTL
     number_key clock).
#[local] Abbreviation validateAndFilterLeads :=
  (validateAndFilterLeads coerce JSON_parse JSON_stringify query_string now respond config
     stdTTL number_key clock).

Lemma bind_ok {A B} (m : Task A) (f : A -> Task B) (w w' : World) (b : B) :
  perform (m ≫= f) w = (Ok b, w') ->
  exists a w1, perform m w = (Ok a, w1) /\ perform (f a) w1 = (Ok b, w').
Proof.
  unfold mbind, task_bind. cbn [perform].
  destruct (perform m w) as [[a|e] w1]; [eauto|discriminate].
Qed.

Lemma ret_ok {A} (a b : A) (w w' : World) :
  perform (mret a) w = (Ok b, w') -> a = b /\ w' = w.
Proof. unfold mret, task_ret. cbn. intros [= -> ->]. auto. Qed.

Lemma pure_ok {A} (r : Result A) (a : A) (w w' : World) :
  perform (pure r) w = (Ok a, w') -> r = Ok a /\ w' = w.
Proof. unfold pure. cbn. intros [= -> ->]. auto. Qed.

Ltac invert_task :=
  repeat match goal with
         | H : perform (_ ≫= _) _ = (Ok _, _) |- _ =>
             let a := fresh "a" in
             let w := fresh "w" in
             let H1 := fresh "H" in
             let H2 := fresh "H" in
             apply bind_ok in H as (a & w & H1 & H2)
         | H : perform (mret _) _ = (Ok _, _) |- _ => apply ret_ok in H as [? ?]; subst
         | H : perform (pure _) _ = (Ok _, _) |- _ => apply pure_ok in H as [? ?]; subst
         | H : perform (fail _) _ = (Ok _, _) |- _ => discriminate H
         | H : perform (if true then _ else _) _ = _ |- _ => cbv iota in H
         | H : perform (if false then _ else _) _ = _ |- _ => cbv iota in H
         | H : perform (if ?c then _ else _) _ = _ |- _ => destruct c eqn:?
         end.

(** The verdict of [isValidLead] is a boolean. *)
Lemma isValidLead_boolean (property leadType visualValidation verdict : JSValue) :
  isValidLead coerce property leadType visualValidation = Ok verdict ->
  verdict = JBool (truthy verdict).
Proof.
  unfold isValidLead, missing_input, mbind, result_bind, mret, result_ret.
  intros E. repeat case_match; simplify_eq; reflexivity.
Qed.

(** What an examination that reaches a verdict has established. *)
Lemma examine_verdict (property leadType validation : JSValue) (b : bool) (w w' : World) :
  perform (examine property leadType) w = (Ok (Some (validation, b)), w') ->
  isValidLead coerce property leadType validation = Ok (JBool b)
  /\ exists latitude longitude,
      get property "latitude" = Ok latitude
      /\ truthy latitude = true
      /\ get property "longitude" = Ok longitude
      /\ truthy longitude = true.
Proof.
  unfold Orchestrator.examine. intros E. invert_task; simplify_eq.
  all: repeat match goal with
              | H : negb _ = true |- _ => apply (proj1 (negb_true_iff _)) in H
              | H : negb _ = false |- _ => apply (proj1 (negb_false_iff _)) in H
              end.
  all: match goal with
       | V : isValidLead _ _ _ _ = Ok ?v |- _ =>
           split; [rewrite V; rewrite (isValidLead_boolean _ _ _ _ V) at 1; reflexivity|]
       end.
  all: eauto 10.
Qed.

(** One turn of the loop records the candidate once: as a valid lead that
    was accepted, or as an invalid one. *)
Lemma validate_one_records (property leadType : JSValue) (valid valid' : list Lead)
  (invalid invalid' : list InvalidLead) (w w' : World) :
  perform (validate_one property leadType valid invalid) w = (Ok (valid', invalid'), w') ->
  (valid' = valid /\ exists entry, invalid' = invalid ++ [entry])
  \/ (invalid' = invalid
      /\ exists lead,
          valid' = valid ++ [lead]
          /\ accepted coerce leadType lead
          /\ lead_property lead = property).
Proof.
  unfold Orchestrator.validate_one, attempt. cbn [perform]. intros E.
  match type of E with
  | match perform ?body w with _ => _ end = _ =>
      destruct (perform body w) as [[r|e] w1] eqn:B
  end.
  - injection E as -> ->. apply bind_ok in B as (examined & w2 & Hx & B).
    destruct examined as [[validation [|]]|]; invert_task; simplify_eq.
    + right. split; [reflexivity|]. eexists. split; [reflexivity|].
      apply examine_verdict in Hx as (V & Hc). repeat split; auto.
    + left. eauto.
    + left. eauto.
  - invert_task; simplify_eq. left. eauto.
Qed.

Lemma validate_loop_records (leadType : JSValue) (requested : Z) (properties : list JSValue) :
  forall (valid0 : list Lead) (invalid0 : list InvalidLead) (w : World)
         (valid : list Lead) (invalid : list InvalidLead) (w' : World),
    perform (validate_loop properties leadType requested valid0 invalid0) w
    = (Ok (valid, invalid), w') ->
    exists more_valid more_invalid,
      valid = valid0 ++ more_valid
      /\ invalid = invalid0 ++ more_invalid
      /\ Forall (accepted coerce leadType) more_valid
      /\ sublist (map lead_property more_valid) properties
      /\ (length more_valid + length more_invalid <= length properties)%nat
      /\ (more_valid <> [] -> (Z.of_nat (length valid) <= requested)%Z)
      /\ ((Z.of_nat (length valid) < requested)%Z ->
          (length more_valid + length more_invalid = length properties)%nat).
Proof.
  induction properties as [|property rest IH]; intros valid0 invalid0 w valid invalid w' E;
    cbn [Orchestrator.validate_loop] in E.
  - apply ret_ok in E as [[= <- <-] _]. exists [], [].
    rewrite !app_nil_r. repeat split; auto using sublist_nil. congruence.
  - destruct (requested <=? Z.of_nat (length valid0))%Z eqn:R.
    + apply ret_ok in E as [[= <- <-] _]. exists [], [].
      rewrite !app_nil_r. apply Z.leb_le in R.
      repeat split; auto using sublist_nil_l; try congruence; cbn; lia.
    + apply Z.leb_gt in R.
      apply bind_ok in E as ([valid1 invalid1] & w1 & Hone & E). cbn [fst snd] in E.
      apply IH in E as (mv & mi & -> & -> & Hacc & Hsub & Hlen & Hbound & Hall).
      apply validate_one_records in Hone
        as [[-> [entry ->]]|[-> (lead & -> & Hlead & Hprop)]].
      * exists mv, (entry :: mi). rewrite <- app_assoc. cbn [app length].
        repeat split; auto using sublist_cons; lia.
      * exists (lead :: mv), mi. rewrite <- !app_assoc. cbn [app length map].
        rewrite <- app_assoc in Hbound, Hall. cbn [app] in Hbound, Hall.
        repeat split; auto.
        -- rewrite Hprop. by apply sublist_skip.
        -- lia.
        -- intros _. destruct mv as [|l mv]; [|apply Hbound; discriminate].
           rewrite length_app. cbn. lia.
        -- intros Hlt. specialize (Hall Hlt). lia.
Qed.


Lemma get_again (o : JSValue) (k k' : string) (v : JSValue) :
  get o k = Ok v -> exists v', get o k' = Ok v'.
Proof. destruct o; cbn; intros; try discriminate; eauto. Qed.

(** X12: a candidate whose latitude or longitude is falsy (absent, [null],
    but also the number 0) is recorded as invalid with the reason 'Missing
    coordinates' and costs nothing: the cache is not read and no request is
    sent. *)
Theorem missing_coordinates_cost_nothing (property leadType latitude : JSValue)
  (valid : list Lead) (invalid : list InvalidLead) (w : World) :
  get property "latitude" = Ok latitude ->
  (truthy latitude = false
   \/ exists longitude, get property "longitude" = Ok longitude /\ truthy longitude = false) ->
  exists id,
    get property "id" = Ok id
    /\ perform (validate_one property leadType valid invalid) w
       = (Ok (valid, invalid ++ [mkInvalidLead id None "Missing coordinates"]), w).
Proof.
  intros Hlat Hmiss.
  destruct (get_again _ _ "id" _ Hlat) as [id Hid]. exists id. split; [exact Hid|].
  unfold Orchestrator.validate_one, Orchestrator.examine, attempt, pure, mbind, task_bind,
    mret, task_ret.
  cbn [perform]. rewrite Hlat.
  destruct (truthy latitude) eqn:T; cbn [negb perform].
  - destruct Hmiss as [?|(longitude & Hlon & Tlon)]; [discriminate|].
    rewrite Hlon. cbn [perform]. rewrite Tlon. cbn [negb perform]. rewrite Hid. reflexivity.
  - rewrite Hid. reflexivity.
Qed.

(** [isValidLead] always returns. *)
Lemma isValidLead_returns (property leadType visualValidation : JSValue) :
  exists b, isValidLead coerce property leadType visualValidation = Ok (JBool b).
Proof.
  unfold isValidLead, missing_input.
  destruct (truthy property); cbn [negb mbind result_bind mret result_ret]; [|eauto].
  destruct (truthy visualValidation) eqn:Hv; cbn [negb mbind result_bind mret result_ret];
    [|eauto].
  destruct (get_truthy visualValidation "analysis" Hv) as [analysis ->].
  cbn [negb mbind result_bind mret result_ret].
  destruct (truthy analysis) eqn:Ht; cbn [negb mbind result_bind mret result_ret]; [|eauto].
  destruct (get_truthy analysis "has_pool" Ht) as [? ->].
  destruct (get_truthy analysis "confidence" Ht) as [? ->].
  destruct (get_truthy analysis "is_empty_backyard" Ht) as [? ->].
  destruct (get_truthy analysis "surface_type" Ht) as [? ->].
  cbn [mbind result_bind mret result_ret]. repeat case_match; eauto.
Qed.

(** The run of an examination whose record is in the cache. *)
Lemma examine_cached (property leadType latitude longitude cached : JSValue)
  (data : gmap string CacheService.Entry) (w : World) :
  get property "latitude" = Ok latitude -> truthy latitude = true ->
  get property "longitude" = Ok longitude -> truthy longitude = true ->
  CacheService.get number_key (clock (w_ticks w))
    (JStr (key_of JSON_stringify latitude longitude leadType)) (w_cache w)
  = (Ok cached, data) ->
  truthy cached = true ->
  exists b,
    isValidLead coerce property leadType cached = Ok (JBool b)
    /\ perform (examine property leadType) w
       = (Ok (Some (cached, b)), mkWorld (w_history w) data (S (w_ticks w))).
Proof.
  intros Hlat Tlat Hlon Tlon Hget Tc.
  destruct (isValidLead_returns property leadType cached) as [b Hb].
  exists b. split; [exact Hb|].
  unfold Orchestrator.examine, cache_get, pure, mbind, task_bind, mret, task_ret.
  cbn [perform]. rewrite Hlat. cbn [perform]. rewrite Tlat. cbn [negb perform].
  rewrite Hlon. cbn [perform]. rewrite Tlon. cbn [negb perform].
  unfold key_of in Hget. rewrite Hget. cbn [perform]. rewrite Tc. cbn [negb perform].
  rewrite Hb. reflexivity.
Qed.


(** *** The cache across examinations *)

Lemma cache_hit (key : string) (at_time : Z) (value : JSValue)
  (data data' : gmap string CacheService.Entry) :
  CacheService.get number_key at_time (JStr key) data = (Ok value, data') ->
  truthy value = true ->
  data' = data /\ exists e, data !! key = Some e /\ CacheService.v e = value.
Proof.
  unfold CacheService.get, CacheService.NodeCache_get. cbn [CacheService.slot].
  intros E T.
  destruct (data !! key) as [e|] eqn:L.
  - destruct (CacheService.stale at_time e).
    + cbn in E. injection E as <- <-. discriminate.
    + destruct (strict_eq (CacheService.v e) JUndefined); cbn in E; injection E as <- <-;
        [discriminate|eauto].
  - cbn in E. injection E as <- <-. discriminate.
Qed.

Lemma cache_live (key : string) (at_time : Z) (e : CacheService.Entry)
  (data : gmap string CacheService.Entry) :
  data !! key = Some e ->
  CacheService.expired number_key at_time (JStr key) data = false ->
  truthy (CacheService.v e) = true ->
  CacheService.get number_key at_time (JStr key) data = (Ok (CacheService.v e), data).
Proof.
  unfold CacheService.get, CacheService.NodeCache_get, CacheService.expired.
  cbn [CacheService.slot]. intros L X T. rewrite L in *. rewrite X.
  destruct (CacheService.v e); cbn in *; try discriminate; reflexivity.
Qed.

Lemma cache_get_ok (key : string) (value : JSValue) (w w' : World) :
  perform (cache_get number_key clock key) w = (Ok value, w') ->
  exists data,
    CacheService.get number_key (clock (w_ticks w)) (JStr key) (w_cache w) = (Ok value, data)
    /\ w' = mkWorld (w_history w) data (S (w_ticks w)).
Proof.
  unfold cache_get. cbn [perform].
  destruct (CacheService.get _ _ _ _) as [r data]. intros [= -> <-]. eauto.
Qed.

Lemma cache_set_ok (key : string) (value : JSValue) (seconds : Z) (b : bool) (w w' : World) :
  perform (cache_set stdTTL number_key clock key value (Some seconds)) w = (Ok b, w') ->
  w' = mkWorld (w_history w)
         (<[ key := CacheService.mkEntry
                      (CacheService.livetime (clock (w_ticks w)) seconds) value ]> (w_cache w))
         (S (w_ticks w)).
Proof. unfold cache_set. cbn. intros [= _ <-]. reflexivity. Qed.

Lemma inspect_ok {A} (m : IO A) (a : A) (w w' : World) :
  perform (inspect m) w = (Ok a, w') ->
  w_cache w' = w_cache w /\ w_ticks w' = w_ticks w.
Proof.
  unfold inspect. cbn [perform]. destruct (run m (w_history w)) as [r h].
  intros [= -> <-]. auto.
Qed.

(** After an examination that reached a verdict, the validation record is
    in the cache under the key of the candidate. *)
Lemma examine_leaves_record (property leadType validation : JSValue) (b : bool)
  (w w' : World) :
  perform (examine property leadType) w = (Ok (Some (validation, b)), w') ->
  exists latitude longitude e,
    get property "latitude" = Ok latitude /\ truthy latitude = true
    /\ get property "longitude" = Ok longitude /\ truthy longitude = true
    /\ w_cache w' !! key_of JSON_stringify latitude longitude leadType = Some e
    /\ CacheService.v e = validation
    /\ truthy validation = true.
Proof.
  unfold Orchestrator.examine. intros E. invert_task; simplify_eq.
  all: repeat match goal with
              | H : negb _ = true |- _ => apply (proj1 (negb_true_iff _)) in H
              | H : negb _ = false |- _ => apply (proj1 (negb_false_iff _)) in H
              | H1 : get ?o ?k = Ok ?x, H2 : get ?o ?k = Ok ?y |- _ =>
                  rewrite H1 in H2; injection H2 as <-
              end.
  - (* a miss: the record was written *)
    match goal with H : perform (cache_get _ _ _) _ = _ |- _ =>
      apply cache_get_ok in H as (data & Hget & ->) end.
    match goal with H : perform (inspect _) _ = _ |- _ =>
      apply inspect_ok in H as [Hc Ht] end.
    match goal with H : perform (cache_set _ _ _ _ _ _) _ = _ |- _ =>
      apply cache_set_ok in H as -> end.
    eexists _, _, _. repeat split; try eassumption.
    + cbn [w_cache]. apply lookup_insert_eq.
    + reflexivity.
  - (* a hit *)
    match goal with H : perform (cache_get _ _ _) _ = _ |- _ =>
      apply cache_get_ok in H as (data & Hget & ->) end.
    match goal with T : truthy _ = true, G : CacheService.get _ _ _ _ = _ |- _ =>
      destruct (cache_hit _ _ _ _ _ G T) as (-> & e & L & V) end.
    eexists _, _, e. repeat split; try eassumption.
Qed.

(** X14: once a candidate has been examined, examining it again while its
    cache entry has not expired sends no request and writes nothing: the
    second examination returns the same validation record and the same
    verdict, and only reads the cache. *)
Theorem repeated_examination_is_free (property leadType validation : JSValue) (b : bool)
  (w w1 : World) :
  perform (examine property leadType) w = (Ok (Some (validation, b)), w1) ->
  (forall latitude longitude,
      get property "latitude" = Ok latitude ->
      get property "longitude" = Ok longitude ->
      CacheService.expired number_key (clock (w_ticks w1))
        (JStr (key_of JSON_stringify latitude longitude leadType)) (w_cache w1) = false) ->
  perform (examine property leadType) w1
  = (Ok (Some (validation, b)), mkWorld (w_history w1) (w_cache w1) (S (w_ticks w1))).
Proof.
  intros E Hlive.
  destruct (examine_verdict _ _ _ _ _ _ E) as (V & _).
  destruct (examine_leaves_record _ _ _ _ _ _ E)
    as (latitude & longitude & e & Hlat & Tlat & Hlon & Tlon & L & <- & T).
  pose proof (cache_live _ _ _ _ L (Hlive _ _ Hlat Hlon) T) as G.
  destruct (examine_cached _ _ _ _ _ _ _ Hlat Tlat Hlon Tlon G T) as (b' & Hb' & ->).
  rewrite V in Hb'. injection Hb' as <-. reflexivity.
Qed.

(** *** The batch *)

Variable toFixed2 : Q -> string.
Variable mean_confidence : list JSValue -> JSValue.
Context {Id : Type} `{Countable Id}.
Variable searchProperties : SearchRequest -> Result (option (list (Property (Id := Id)))).

#[local] Abbreviation getBatchLeads :=
  (getBatchLeads coerce JSON_parse JSON_stringify query_string now respond config stdTTL
     number_key clock toFixed2 mean_confidence searchProperties).

Lemma requested_size_values (requestedLeads : JSValue) (n : Z) :
  requested_size requestedLeads = Some n -> n = 10%Z \/ n = 25%Z \/ n = 50%Z \/ n = 100%Z.
Proof.
  unfold requested_size. intros E. repeat case_match; simplify_eq; auto.
Qed.


(** X16: the result of a successful [getBatchLeads]: the request was for a
    non-empty location, a supported lead type and one of the four sizes;
    [deliveredLeads] is the number of leads returned, at most the size
    requested; every lead was accepted by the validity predicate; the buffer
    used is always 15; between 1 and [requested + 15] candidates were
    counted as validated; and [priceRangesSearched] is always 8, the length
    of [PRICE_RANGES], whatever the number of searches that were issued. *)
Theorem batch_result_is_consistent (location leadType requestedLeads : JSValue)
  (w w' : World) (result : BatchResult) :
  perform (getBatchLeads location leadType requestedLeads) w = (Ok result, w') ->
  location = JStr (batch_location result)
  /\ batch_location result <> EmptyString
  /\ supported leadType = true
  /\ requested_size requestedLeads = Some (Orchestrator.requestedLeads result)
  /\ deliveredLeads result = length (leads result)
  /\ (Z.of_nat (deliveredLeads result) <= Orchestrator.requestedLeads result)%Z
  /\ Forall (accepted coerce leadType) (leads result)
  /\ totalValid (metadata result) = deliveredLeads result
  /\ bufferUsed (metadata result) = 15%Z
  /\ (1 <= meta_totalValidated (metadata result))%nat
  /\ (Z.of_nat (meta_totalValidated (metadata result))
      <= Orchestrator.requestedLeads result + 15)%Z
  /\ priceRangesSearched (statistics result) = 8%nat.
Proof.
  unfold Orchestrator.getBatchLeads. intros E.
  destruct location as [| | | | |place| |]; try discriminate E.
  destruct (truthy (JStr place)) eqn:T; cbn [negb] in E; [|discriminate E].
  destruct (supported leadType) eqn:S; cbn [negb] in E; [|discriminate E].
  destruct (requested_size requestedLeads) as [n|] eqn:R; [|discriminate E].
  set (found := allProperties (searchAcrossPriceRanges searchProperties place leadType
                                 (getBufferSize n))) in *.
  destruct (length found =? 0)%nat eqn:L; [discriminate E|].
  apply Nat.eqb_neq in L.
  apply bind_ok in E as (outcome & w1 & Hv & E). apply ret_ok in E as [<- _].
  unfold Orchestrator.validateAndFilterLeads in Hv.
  apply bind_ok in Hv as ([valid invalid] & w2 & Hloop & Hv). apply ret_ok in Hv as [<- _].
  cbn [validLeads invalidLeads totalValidated fst snd] in *.
  apply validate_loop_records in Hloop
    as (mv & mi & -> & -> & Hacc & _ & _ & Hbound & _).
  cbn [app] in *.
  assert (Hn : (0 < n)%Z) by (destruct (requested_size_values _ _ R) as [|[|[|]]]; lia).
  assert (Hle : (Z.of_nat (length mv) <= n)%Z).
  { destruct mv as [|l mv]; [cbn; lia|]. apply Hbound. discriminate. }
  assert (Htake : take (Z.to_nat n) mv = mv) by (apply take_ge; lia).
  destruct (SearchExtras.search_ranges_invariants searchProperties place leadType
              (getBufferSize n) PRICE_RANGES (mkSearchState [] ∅ []))
    as (_ & B & _).
  { split; cbn; [constructor|]. intros p Hp. by apply elem_of_nil in Hp. }
  { unfold SearchInvariants.bounded. cbn. lia. }
  { intros p Hp. by apply elem_of_nil in Hp. }
  assert (B' : (Z.of_nat (length found) <= Z.max 0 (n + 15))%Z) by exact B.
  clear B. clearbody found.
  cbn [batch_location Orchestrator.requestedLeads deliveredLeads leads metadata statistics
         totalValid bufferUsed meta_totalValidated priceRangesSearched].
  rewrite Htake, length_map.
  split; [reflexivity|]. split; [intros ->; cbn in T; discriminate|].
  do 5 (split; [first [reflexivity | assumption]|]).
  split; [reflexivity|]. split; [unfold getBufferSize; lia|].
  split; [lia|]. split; [lia|]. reflexivity.
Qed.

End Batch.


(** The candidate on the equator. *)
Lemma missing_coordinates_cost_nothing_witness :
  exists id,
    get equator_candidate "id" = Ok id
    /\ perform (validate_one no_coercion JSON.parse sample_stringify sample_query sample_now
                  steady_world all_keys 600 sample_number_key sample_clock equator_candidate
                  (JStr "PoolLeadGen") [] []) fresh_world
       = (Ok ([], [] ++ [mkInvalidLead id None "Missing coordinates"]), fresh_world).
Proof.
  apply (missing_coordinates_cost_nothing no_coercion JSON.parse sample_stringify sample_query
           sample_now steady_world all_keys 600 sample_number_key sample_clock
           equator_candidate (JStr "PoolLeadGen") (JNum 0) [] [] fresh_world).
  - reflexivity.
  - left. reflexivity.
Defined.


Lemma repeated_examination_is_free_witness :
  perform (sample_examine (candidate 1)) examined_world
  = (Ok (Some (verified_record, true)),
     mkWorld (w_history examined_world) (w_cache examined_world)
       (S (w_ticks examined_world))).
Proof.
  unfold sample_examine.
  refine (repeated_examination_is_free no_coercion JSON.parse sample_stringify sample_query
            sample_now steady_world all_keys 600 sample_number_key sample_clock
            (candidate 1) (JStr "PoolLeadGen") verified_record true fresh_world
            examined_world _ _).
  - vm_compute. reflexivity.
  - intros latitude longitude [= <-] [= <-]. vm_compute. reflexivity.
Defined.


(** A batch of 10 PoolLeadGen leads on a market with a candidate in every
    price range. *)
Lemma batch_result_is_consistent_witness :
  exists result w',
    perform (sample_batch (JStr "Austin, TX") (JStr "PoolLeadGen") (JNum 10)) fresh_world
    = (Ok result, w')
    /\ JStr "Austin, TX" = JStr (batch_location result)
    /\ batch_location result <> EmptyString
    /\ supported (JStr "PoolLeadGen") = true
    /\ requested_size (JNum 10) = Some (Orchestrator.requestedLeads result)
    /\ deliveredLeads result = length (leads result)
    /\ (Z.of_nat (deliveredLeads result) <= Orchestrator.requestedLeads result)%Z
    /\ Forall (accepted no_coercion (JStr "PoolLeadGen")) (leads result)
    /\ totalValid (metadata result) = deliveredLeads result
    /\ bufferUsed (metadata result) = 15%Z
    /\ (1 <= meta_totalValidated (metadata result))%nat
    /\ (Z.of_nat (meta_totalValidated (metadata result))
        <= Orchestrator.requestedLeads result + 15)%Z
    /\ priceRangesSearched (statistics result) = 8%nat.
Proof.
  eexists. eexists. split; [vm_compute; reflexivity|].
  eapply (batch_result_is_consistent no_coercion JSON.parse sample_stringify sample_query
           sample_now steady_world all_keys 600 sample_number_key sample_clock
           sample_toFixed2 sample_mean pool_market (JStr "Austin, TX") (JStr "PoolLeadGen")
           (JNum 10) fresh_world).
  vm_compute. reflexivity.
Defined.

End OrchestratorProps.

(** ** More on the visual inspector *)
Module InspectorExtras.
Import VisualInspector Histories Samples MoreSamples.

Lemma io_bind_ok {A B} (m : IO A) (f : A -> IO B) (h h' : History) (b : B) :
  run (m ≫= f) h = (Ok b, h') ->
  exists a h1, run m h = (Ok a, h1) /\ run (f a) h1 = (Ok b, h').
Proof.
  unfold mbind, io_bind. cbn [run].
  destruct (run m h) as [[a|e] h1]; [eauto|discriminate].
Qed.

Lemma io_try_ok {A} (body : IO A) (handler : string -> IO A) (h h' : History) (a : A) :
  run (io_try body handler) h = (Ok a, h') ->
  run body h = (Ok a, h')
  \/ exists e h1, run body h = (Throw e, h1) /\ run (handler e) h1 = (Ok a, h').
Proof.
  unfold io_try. cbn [run]. destruct (run body h) as [[x|e] h1]; eauto.
Qed.

Lemma strict_eq_str (v : JSValue) (s : string) : strict_eq v (JStr s) = true -> v = JStr s.
Proof.
  destruct v; cbn; try discriminate. intros E. apply String.eqb_eq in E. congruence.
Qed.

Lemma is_level_level (v : JSValue) : is_level v = true -> level v.
Proof.
  unfold is_level, level. intros E.
  apply orb_prop in E as [E|E]; [apply orb_prop in E as [E|E]|];
    apply strict_eq_str in E; auto.
Qed.

Lemma invalid_confidence_range (c : JSValue) :
  invalid_confidence c = false -> confidence_in_range c.
Proof.
  unfold invalid_confidence, confidence_in_range. destruct c; try discriminate; auto.
  intros E. apply orb_false_elim in E as [E1 E2].
  apply negb_false_iff, Qle_bool_iff in E1. apply negb_false_iff, Qle_bool_iff in E2.
  right. eauto.
Qed.

Lemma is_boolean_bool (v : JSValue) : is_boolean v = true -> exists b, v = JBool b.
Proof. destruct v; try discriminate. eauto. Qed.

Section Inspector.

Variable JSON_parse : string -> Result JSValue.
Variable query_string : JSValue -> JSValue -> string -> string.
Variable now : string.
Variable respond : History -> Endpoint -> Result string.
Variable config : Config.

#[local] Abbreviation parseAnalysisResponse := (parseAnalysisResponse JSON_parse).
#[local] Abbreviation analyzePropertyWithLLM := (analyzePropertyWithLLM JSON_parse respond config).
#[local] Abbreviation analyzePropertyWithGroq := (analyzePropertyWithGroq JSON_parse respond config).
#[local] Abbreviation analyzePropertyWithGemini :=
  (analyzePropertyWithGemini JSON_parse respond config).
#[local] Abbreviation analyzeWithOpenAI := (analyzeWithOpenAI JSON_parse respond config).
#[local] Abbreviation fallback := (fallback JSON_parse respond config).
#[local] Abbreviation getGoogleMapsStaticImage :=
  (getGoogleMapsStaticImage query_string respond config).
#[local] Abbreviation verify_property_visually :=
  (verify_property_visually JSON_parse query_string now respond config).

Lemma parse_well_formed (responseText : string) (leadType analysis : JSValue) :
  parseAnalysisResponse responseText leadType = Ok analysis ->
  (exists jsonMatch,
      match_json responseText = Some jsonMatch /\ JSON_parse jsonMatch = Ok analysis)
  /\ well_formed leadType analysis.
Proof.
  unfold VisualInspector.parseAnalysisResponse, try_catch. intros E.
  destruct (match_json responseText) as [jsonMatch|]; [|discriminate].
  destruct (JSON_parse jsonMatch) as [parsed|] eqn:P; cbn [mbind result_bind] in E;
    [|discriminate].
  unfold mbind, result_bind, mret, result_ret in E.
  repeat case_match; simplify_eq.
  all: split; [eauto|].
  all: repeat match goal with
              | H : negb _ = false |- _ => apply (proj1 (negb_false_iff _)) in H
              | H : is_boolean _ = true |- _ => apply is_boolean_bool in H as [? ->]
              | H : is_level _ = true |- _ => apply is_level_level in H
              | H : invalid_confidence _ = false |- _ => apply invalid_confidence_range in H
              | H : strict_eq _ (JStr _) = true |- _ => apply strict_eq_str in H; subst
              end.
  all: split; intros L; try discriminate L; subst;
    repeat match goal with
           | H : strict_eq (JStr ?a) (JStr ?a) = false |- _ => cbn in H; discriminate H
           end;
    unfold boolean_field; repeat split; eauto.
Qed.

(** X17: an analysis accepted by [parseAnalysisResponse] is the parse of the
    text between the first opening brace and the last closing brace of the
    response, and it meets the schema of its lead type: for PoolLeadGen a
    boolean [has_pool] and a confidence that is a number from 0 to 100; for
    BackyardBoost two booleans, two levels among high, medium and low, and
    such a confidence. *)
Theorem accepted_analysis_meets_schema (responseText : string) (leadType analysis : JSValue) :
  parseAnalysisResponse responseText leadType = Ok analysis ->
  (exists jsonMatch,
      match_json responseText = Some jsonMatch /\ JSON_parse jsonMatch = Ok analysis)
  /\ well_formed leadType analysis.
Proof. apply parse_well_formed. Qed.

Lemma check_arguments_ok (imageUrl : string) (leadType : JSValue) (h h' : History) :
  run (check_arguments imageUrl leadType) h = (Ok tt, h') ->
  configured imageUrl = true /\ supported leadType = true /\ h' = h.
Proof.
  unfold check_arguments.
  destruct (configured imageUrl), (supported leadType); cbn; intros [= <-]; auto.
Qed.

Lemma request_then_parse_ok (e : Endpoint) (leadType analysis : JSValue) (h h' : History) :
  run (request respond e ≫= (fun text => lift (parseAnalysisResponse text leadType))) h
  = (Ok analysis, h') ->
  exists text, parseAnalysisResponse text leadType = Ok analysis.
Proof.
  intros E. apply io_bind_ok in E as (text & h1 & _ & E).
  unfold lift in E. cbn in E. injection E as E _. eauto.
Qed.

Lemma groq_ok (imageUrl : string) (leadType analysis : JSValue) (h h' : History) :
  run (analyzePropertyWithGroq imageUrl leadType) h = (Ok analysis, h') ->
  supported leadType = true
  /\ exists text, parseAnalysisResponse text leadType = Ok analysis.
Proof.
  unfold VisualInspector.analyzePropertyWithGroq. intros E.
  apply io_try_ok in E as [E|(e & h1 & _ & E)]; [|discriminate E].
  destruct (configured (groqApiKey config)); cbn [negb] in E; [|discriminate E].
  apply io_bind_ok in E as ([] & h1 & C & E).
  apply check_arguments_ok in C as (_ & S & ->).
  split; [exact S|]. eapply request_then_parse_ok; eassumption.
Qed.

Lemma gemini_ok (imageUrl : string) (leadType analysis : JSValue) (h h' : History) :
  run (analyzePropertyWithGemini imageUrl leadType) h = (Ok analysis, h') ->
  supported leadType = true
  /\ exists text, parseAnalysisResponse text leadType = Ok analysis.
Proof.
  unfold VisualInspector.analyzePropertyWithGemini. intros E.
  apply io_try_ok in E as [E|(e & h1 & _ & E)]; [|discriminate E].
  destruct (configured (geminiApiKey config)); cbn [negb] in E; [|discriminate E].
  apply io_bind_ok in E as ([] & h1 & C & E).
  apply check_arguments_ok in C as (_ & S & ->).
  apply io_bind_ok in E as (image & h2 & _ & E).
  split; [exact S|]. eapply request_then_parse_ok; eassumption.
Qed.

Lemma llm_ok (imageUrl : string) (leadType analysis : JSValue) (h h' : History) :
  run (analyzePropertyWithLLM imageUrl leadType) h = (Ok analysis, h') ->
  supported leadType = true
  /\ exists text, parseAnalysisResponse text leadType = Ok analysis.
Proof.
  unfold VisualInspector.analyzePropertyWithLLM. intros E.
  apply io_try_ok in E as [E|(e & h1 & _ & E)].
  - unfold VisualInspector.analyzeWithOpenAI in E.
    destruct (configured (openaiApiKey config)); cbn [negb] in E;
      [|by apply groq_ok in E].
    apply io_bind_ok in E as ([] & h1 & C & E).
    apply check_arguments_ok in C as (_ & S & ->).
    split; [exact S|]. eapply request_then_parse_ok; eassumption.
  - unfold VisualInspector.fallback in E.
    apply io_try_ok in E as [E|(e1 & h2 & _ & E)]; [by apply groq_ok in E|].
    apply io_try_ok in E as [E|(e2 & h3 & _ & E)]; [by apply gemini_ok in E|].
    discriminate E.
Qed.

Lemma groq_extends (imageUrl : string) (leadType : JSValue) :
  extends (analyzePropertyWithGroq imageUrl leadType).
Proof.
  unfold VisualInspector.analyzePropertyWithGroq.
  apply InspectorProps.extends_try; [|intros; apply InspectorProps.extends_throw].
  case_match; [apply InspectorProps.extends_throw|].
  repeat (apply InspectorProps.extends_bind; [|intros]);
    auto using InspectorProps.extends_check_arguments,
      InspectorProps.extends_request, @InspectorProps.extends_lift.
Qed.

Lemma llm_extends (imageUrl : string) (leadType : JSValue) :
  extends (analyzePropertyWithLLM imageUrl leadType).
Proof.
  unfold VisualInspector.analyzePropertyWithLLM.
  apply InspectorProps.extends_try.
  - unfold VisualInspector.analyzeWithOpenAI. case_match; [apply groq_extends|].
    repeat (apply InspectorProps.extends_bind; [|intros]);
      auto using InspectorProps.extends_check_arguments,
        InspectorProps.extends_request, @InspectorProps.extends_lift.
  - intros e. unfold VisualInspector.fallback.
    apply InspectorProps.extends_try; [apply groq_extends|].
    intros e1. apply InspectorProps.extends_try;
      [apply InspectorProps.analyzePropertyWithGemini_extends
      |intros; apply InspectorProps.extends_throw].
Qed.

(** X18: when [verify_property_visually] succeeds, the coordinates are
    numbers, the lead type is one of the two supported ones, the request for
    the satellite image came first, and the analysis of the result, whichever
    provider produced it, went through [parseAnalysisResponse]: it meets the
    schema of the lead type. *)
Theorem verified_analysis_meets_schema (latitude longitude leadType : JSValue)
  (h h' : History) (result : ValidationResult) :
  run (verify_property_visually latitude longitude leadType) h = (Ok result, h') ->
  typeof latitude = "number"
  /\ typeof longitude = "number"
  /\ supported leadType = true
  /\ VisualInspector.leadType (validation result) = leadType
  /\ well_formed leadType (analysis (validation result))
  /\ success result = true
  /\ exists rest, h' = h ++ [GoogleStaticMap] ++ rest.
Proof.
  unfold VisualInspector.verify_property_visually. intros E.
  apply io_try_ok in E as [E|(e & h1 & _ & E)]; [|discriminate E].
  apply io_bind_ok in E as (url & h1 & G & E).
  apply io_bind_ok in E as (a & h2 & L & E).
  apply io_bind_ok in E as (model & h3 & M & E).
  unfold lift in M. cbn in M. injection M as _ <-.
  unfold mret, io_ret in E. cbn in E. injection E as <- <-.
  destruct (llm_extends url leadType h1) as [rest Hr]. rewrite L in Hr. cbn in Hr. subst h2.
  apply llm_ok in L as (S & text & P). apply parse_well_formed in P as (_ & W).
  unfold VisualInspector.getGoogleMapsStaticImage in G.
  apply io_try_ok in G as [G|(e & h0 & _ & G)]; [|discriminate G].
  destruct (configured (googleMapsApiKey config)); cbn [negb] in G; [|discriminate G].
  destruct (String.eqb (typeof latitude) "number") eqn:Tlat;
    destruct (String.eqb (typeof longitude) "number") eqn:Tlon;
    cbn [negb orb] in G; try discriminate G.
  apply io_bind_ok in G as (image & h0 & R & G).
  unfold request in R. cbn in R. injection R as _ <-.
  unfold mret, io_ret in G. cbn in G. injection G as _ <-.
  apply String.eqb_eq in Tlat, Tlon.
  cbn [validation success VisualInspector.leadType analysis].
  do 3 (split; [assumption|]). split; [reflexivity|]. split; [exact W|].
  split; [reflexivity|]. exists rest. by rewrite <- app_assoc.
Qed.

(** X19: without an OpenAI key the chain starts with Groq, and a failure of
    that first request to Groq (of the transport, or of the validation of its
    answer) is handled by the same fallback: Groq is requested a second time
    before Gemini. *)
Theorem groq_is_requested_twice_without_openai_key (imageUrl : string) (leadType : JSValue)
  (h : History) (m : string) :
  configured (openaiApiKey config) = false ->
  configured (groqApiKey config) = true ->
  configured imageUrl = true ->
  supported leadType = true ->
  respond h Groq ≫= (fun text => parseAnalysisResponse text leadType) = Throw m ->
  exists rest,
    snd (run (analyzePropertyWithLLM imageUrl leadType) h) = h ++ [Groq; Groq] ++ rest.
Proof.
  intros Ho Hg Hu Hs Hm.
  unfold VisualInspector.analyzePropertyWithLLM, io_try. cbn [run].
  unfold VisualInspector.analyzeWithOpenAI. rewrite Ho. cbn [negb].
  rewrite (InspectorProps.run_groq _ _ _ _ _ _ Hg Hu Hs), Hm.
  destruct (InspectorProps.fallback_requests_groq JSON_parse respond config imageUrl leadType
              ("Failed to analyze image with Groq: " +:+ m) (h ++ [Groq]) Hg Hu Hs)
    as [rest ->].
  exists rest. by rewrite <- app_assoc.
Qed.


(** X21: when the primary provider answers with an analysis that passes the
    validation, that analysis is the result and no other provider is
    requested. *)
Theorem primary_success_requests_nothing_else (imageUrl : string) (leadType analysis : JSValue)
  (h : History) (text : string) :
  configured (openaiApiKey config) = true ->
  configured imageUrl = true ->
  supported leadType = true ->
  respond h OpenAI = Ok text ->
  parseAnalysisResponse text leadType = Ok analysis ->
  run (analyzePropertyWithLLM imageUrl leadType) h = (Ok analysis, h ++ [OpenAI]).
Proof.
  intros Hk Hu Hs Hr Hp.
  unfold VisualInspector.analyzePropertyWithLLM, io_try. cbn [run].
  rewrite (InspectorProps.run_openai _ _ _ _ _ _ Hk Hu Hs), Hr. cbn [mbind result_bind].
  rewrite Hp. reflexivity.
Qed.

End Inspector.

Lemma upto_last_close_none (s : string) :
  occurs "}" s = false -> upto_last_close s = None.
Proof.
  induction s as [|c s IH]; cbn; [reflexivity|]. intros E.
  apply orb_false_elim in E as [E1 E2]. rewrite (IH E2), E1. reflexivity.
Qed.

Lemma upto_last_close_append (body suffix : string) :
  occurs "}" suffix = false ->
  upto_last_close (body +:+ "}" +:+ suffix) = Some (body +:+ "}").
Proof.
  intros E. induction body as [|c body IH].
  - change (upto_last_close (String "}" suffix) = Some "}").
    cbn [upto_last_close]. rewrite (upto_last_close_none _ E). reflexivity.
  - change (upto_last_close (String c (body +:+ "}" +:+ suffix))
            = Some (String c (body +:+ "}"))).
    cbn [upto_last_close]. rewrite IH. reflexivity.
Qed.

(** X22: the extraction of the JSON object tolerates prose around it: when
    the text before the object has no opening brace and the text after it no
    closing brace, [match_json] returns the object, from its opening brace to
    its closing brace, whatever braces the object itself contains. *)
Theorem match_json_extracts_object (before body after : string) :
  occurs "{" before = false ->
  occurs "}" after = false ->
  match_json (before +:+ "{" +:+ body +:+ "}" +:+ after) = Some ("{" +:+ body +:+ "}").
Proof.
  intros Hb Ha. unfold match_json.
  assert (F : forall tail, from_first_open (before +:+ String "{" tail)
                           = Some (String "{" tail)).
  { intros tail. induction before as [|c before IH]; [reflexivity|].
    cbn in Hb. apply orb_false_elim in Hb as [Hc Hb].
    change (from_first_open (String c (before +:+ String "{" tail))
            = Some (String "{" tail)).
    cbn [from_first_open]. rewrite Hc. apply IH. exact Hb. }
  change (before +:+ "{" +:+ body +:+ "}" +:+ after)
    with (before +:+ String "{" (body +:+ "}" +:+ after)).
  rewrite F. cbn [mbind option_bind].
  apply (upto_last_close_append (String "{" body) after Ha).
Qed.

(** The reply with prose around the object. *)
Lemma accepted_analysis_meets_schema_witness :
  (exists jsonMatch,
      match_json valid_reply = Some jsonMatch /\ JSON.parse jsonMatch = Ok valid_analysis)
  /\ well_formed (JStr "PoolLeadGen") valid_analysis.
Proof.
  apply (accepted_analysis_meets_schema JSON.parse valid_reply (JStr "PoolLeadGen")
           valid_analysis).
  vm_compute. reflexivity.
Defined.

(** A verification with every service answering. *)
Lemma verified_analysis_meets_schema_witness :
  exists result h',
    run (verify_property_visually JSON.parse sample_query sample_now steady_world all_keys
           (JNum (3026 # 100)) (JNum (-9774 # 100)) (JStr "PoolLeadGen")) []
    = (Ok result, h')
    /\ typeof (JNum (3026 # 100)) = "number"
    /\ typeof (JNum (-9774 # 100)) = "number"
    /\ supported (JStr "PoolLeadGen") = true
    /\ VisualInspector.leadType (validation result) = JStr "PoolLeadGen"
    /\ well_formed (JStr "PoolLeadGen") (analysis (validation result))
    /\ success result = true
    /\ exists rest, h' = [] ++ [GoogleStaticMap] ++ rest.
Proof.
  eexists. eexists. split; [vm_compute; reflexivity|].
  eapply (verified_analysis_meets_schema JSON.parse sample_query sample_now steady_world
            all_keys (JNum (3026 # 100)) (JNum (-9774 # 100)) (JStr "PoolLeadGen") []).
  vm_compute. reflexivity.
Defined.

(** No OpenAI key, and Groq out of reach. *)
Lemma groq_is_requested_twice_without_openai_key_witness :
  exists rest,
    snd (run (analyzePropertyWithLLM JSON.parse dark_world keys_without_openai sample_url
                (JStr "PoolLeadGen")) [])
    = [] ++ [Groq; Groq] ++ rest.
Proof.
  apply (groq_is_requested_twice_without_openai_key JSON.parse dark_world keys_without_openai
           sample_url (JStr "PoolLeadGen") [] "connect ETIMEDOUT");
    reflexivity.
Defined.


(** OpenAI answers with a valid analysis. *)
Lemma primary_success_requests_nothing_else_witness :
  run (analyzePropertyWithLLM JSON.parse steady_world all_keys sample_url
         (JStr "PoolLeadGen")) []
  = (Ok valid_analysis, [] ++ [OpenAI]).
Proof.
  apply (primary_success_requests_nothing_else JSON.parse steady_world all_keys sample_url
           (JStr "PoolLeadGen") valid_analysis [] valid_reply);
    vm_compute; reflexivity.
Defined.

(** An object with a nested object, between two sentences. *)
Lemma match_json_extracts_object_witness :
  match_json ("The yard: " +:+ "{" +:+ "'size': {'w': 3}" +:+ "}" +:+ " as seen.")
  = Some ("{" +:+ "'size': {'w': 3}" +:+ "}").
Proof.
  apply (match_json_extracts_object "The yard: " "'size': {'w': 3}" " as seen.");
    reflexivity.
Defined.

End InspectorExtras.

(** ** Cache keys *)
Module KeyProps.
Import CacheKeys KeyInvariants.

Lemma compare_not_gt_trans (a b c : string) :
  String.compare a b <> Gt -> String.compare b c <> Gt -> String.compare a c <> Gt.
Proof.
  revert b c. induction a as [|x a IH]; intros [|y b] [|z c]; cbn; try congruence.
  unfold Ascii.compare.
  destruct (N.compare_spec (N_of_ascii x) (N_of_ascii y)) as [E1|L1|G1];
    destruct (N.compare_spec (N_of_ascii y) (N_of_ascii z)) as [E2|L2|G2];
    try congruence.
  - rewrite E1, E2, N.compare_refl. apply IH.
  - intros _ _. rewrite E1, (proj2 (N.compare_lt_iff _ _) L2). discriminate.
  - intros _ _. rewrite <- E2, (proj2 (N.compare_lt_iff _ _) L1). discriminate.
  - intros _ _.
    rewrite (proj2 (N.compare_lt_iff _ _) (N.lt_trans _ _ _ L1 L2)). discriminate.
Qed.

Lemma leb_not_gt (a b : string) : le_key a b <-> String.compare a b <> Gt.
Proof.
  unfold le_key, String.leb. destruct (String.compare a b); split; congruence.
Qed.

Lemma le_key_trans : Transitive le_key.
Proof.
  intros a b c Hab Hbc. apply leb_not_gt.
  apply (compare_not_gt_trans a b c); by apply leb_not_gt.
Qed.

Lemma le_key_antisym : AntiSymm eq le_key.
Proof. intros a b Hab Hba. by apply String.leb_antisym. Qed.

Lemma insert_key_perm (k : string) (keys : list string) : insert_key k keys ≡ₚ k :: keys.
Proof.
  induction keys as [|h rest IH]; cbn; [reflexivity|].
  destruct (String.leb k h); [reflexivity|].
  rewrite IH. apply perm_swap.
Qed.

Lemma insert_key_sorted (k : string) (keys : list string) :
  Sorted le_key keys -> Sorted le_key (insert_key k keys).
Proof.
  induction keys as [|h rest IH]; cbn; intros S.
  - repeat constructor.
  - destruct (String.leb k h) eqn:L.
    + constructor; [assumption|]. constructor. exact L.
    + apply Sorted_inv in S as [S Hd]. constructor; [by apply IH|].
      assert (Hh : le_key h k).
      { destruct (String.leb_total k h) as [C|C]; [congruence|exact C]. }
      destruct rest as [|h' rest']; cbn.
      * constructor. exact Hh.
      * destruct (String.leb k h'); constructor; [exact Hh|].
        by apply HdRel_inv in Hd.
Qed.

Lemma sort_keys_perm (keys : list string) : sort_keys keys ≡ₚ keys.
Proof.
  induction keys as [|k rest IH]; cbn; [reflexivity|].
  rewrite insert_key_perm. by constructor.
Qed.

Lemma sort_keys_sorted (keys : list string) : Sorted le_key (sort_keys keys).
Proof.
  induction keys as [|k rest IH]; cbn; [constructor|]. by apply insert_key_sorted.
Qed.

(** The sorted array depends only on the keys, not on their order. *)
Lemma sort_keys_permutation (keys keys' : list string) :
  keys ≡ₚ keys' -> sort_keys keys = sort_keys keys'.
Proof.
  intros P.
  apply (@Sorted_unique _ le_key le_key_trans le_key_antisym); try apply sort_keys_sorted.
  by rewrite !sort_keys_perm.
Qed.

(** Reading a property does not depend on the order in which the
    properties of an object were written. *)
Lemma lookup_field_permutation (k : string) (params params' : list (string * JSValue)) :
  NoDup (map fst params) -> params ≡ₚ params' ->
  lookup_field k params = lookup_field k params'.
Proof.
  intros N P. induction P as [|[kx x] l l' P IH|[kx x] [ky y] l|l l' l'' P1 IH1 P2 IH2].
  - reflexivity.
  - cbn in *. apply NoDup_cons in N as [_ N]. rewrite (IH N). reflexivity.
  - cbn in *. apply NoDup_cons in N as [Hin _].
    destruct (String.eqb k kx) eqn:Ex, (String.eqb k ky) eqn:Ey; try reflexivity.
    apply String.eqb_eq in Ex, Ey. subst. exfalso. apply Hin. left.
  - rewrite (IH1 N). apply IH2.
    assert (P' : map fst l ≡ₚ map fst l') by (by apply Permutation_map).
    by rewrite <- P'.
Qed.

Lemma length_append (a b : string) :
  String.length (a +:+ b) = (String.length a + String.length b)%nat.
Proof.
  induction a as [|c a IH]; [reflexivity|].
  change (String c a +:+ b) with (String c (a +:+ b)). cbn [String.length].
  by rewrite IH.
Qed.

Lemma join_nonempty (separator p : string) (rest : list string) :
  p <> EmptyString -> join separator (p :: rest) <> EmptyString.
Proof.
  intros Hp. destruct rest as [|q rest]; cbn [join]; [exact Hp|].
  intros E. apply (f_equal String.length) in E. rewrite length_append in E.
  destruct p; [congruence|]. cbn in E. lia.
Qed.

Section Keys.

Variable JSON_stringify : JSValue -> string.

#[local] Abbreviation generateKey := (generateKey JSON_stringify).

(** X10: the cache key of an object does not depend on the order in which
    its properties were written: two listings of the same properties, whose
    names are distinct as in every object, give the same key. *)
Theorem generateKey_ignores_property_order (prefix : string)
  (params params' : list (string * JSValue)) :
  NoDup (map fst params) ->
  params ≡ₚ params' ->
  generateKey prefix params = generateKey prefix params'.
Proof.
  intros N P. unfold CacheKeys.generateKey.
  rewrite (sort_keys_permutation (map fst params) (map fst params'))
    by (by apply Permutation_map).
  assert (E : map (fun key => key +:+ "=" +:+ JSON_stringify (lookup_field key params))
                (sort_keys (map fst params'))
              = map (fun key => key +:+ "=" +:+ JSON_stringify (lookup_field key params'))
                  (sort_keys (map fst params'))).
  { apply map_ext. intros key. by rewrite (lookup_field_permutation key params params'). }
  rewrite E. reflexivity.
Qed.

(** X23: the cache key is the bare prefix exactly when the object has no
    property; with at least one property the key is longer than the
    prefix. *)
Theorem generateKey_is_prefix_iff_no_parameter (prefix : string)
  (params : list (string * JSValue)) :
  generateKey prefix params = prefix <-> params = [].
Proof.
  split; [|intros ->; reflexivity].
  destruct params as [|[k x] rest]; [reflexivity|]. intros E. exfalso.
  unfold CacheKeys.generateKey in E. cbn [map fst sort_keys foldr] in E.
  destruct (insert_key k (foldr insert_key [] (map fst rest))) as [|h sorted] eqn:S.
  { pose proof (insert_key_perm k (foldr insert_key [] (map fst rest))) as P.
    rewrite S in P. by apply Permutation_nil_cons in P. }
  cbn [map] in E.
  match type of E with
  | (if negb (String.eqb ?s _) then _ else _) = _ =>
      assert (Hs : s <> EmptyString); [|destruct (String.eqb_spec s EmptyString) as [|_];
                                         [contradiction|]]
  end.
  { apply join_nonempty. intros C. apply (f_equal String.length) in C.
    rewrite !length_append in C. cbn in C. lia. }
  cbn [negb] in E. apply (f_equal String.length) in E.
  rewrite !length_append in E. cbn in E. lia.
Qed.

End Keys.

(** The key of a visual validation, with the lead type written first. *)
Lemma generateKey_ignores_property_order_witness :
  generateKey MoreSamples.sample_stringify "visual-validation" MoreSamples.coordinates_first
  = generateKey MoreSamples.sample_stringify "visual-validation" MoreSamples.lead_type_first.
Proof.
  apply (generateKey_ignores_property_order MoreSamples.sample_stringify "visual-validation"
           MoreSamples.coordinates_first MoreSamples.lead_type_first).
  - apply (bool_decide_unpack _). vm_compute. exact I.
  - unfold MoreSamples.coordinates_first, MoreSamples.lead_type_first.
    etransitivity; [apply perm_skip, perm_swap|apply perm_swap].
Defined.

End KeyProps.

(** ** The response formatter *)
Module FormatterProps.
Import LeadQualityService ResponseFormatter ScoreInvariants.

Lemma append_cancel_r (a b c : string) : a +:+ c = b +:+ c -> a = b.
Proof.
  revert b. induction a as [|x a IH]; intros [|y b] E.
  - reflexivity.
  - exfalso. apply (f_equal String.length) in E.
    rewrite !KeyProps.length_append in E. cbn in E. lia.
  - exfalso. apply (f_equal String.length) in E.
    rewrite !KeyProps.length_append in E. cbn in E. lia.
  - change (String x (a +:+ c) = String y (b +:+ c)) in E.
    injection E as -> E. f_equal. by apply IH.
Qed.

Lemma double_quotes_inj (s1 s2 : string) : double_quotes s1 = double_quotes s2 -> s1 = s2.
Proof.
  revert s2. induction s1 as [|c s1 IH]; intros [|d s2]; cbn.
  - reflexivity.
  - destruct (Ascii.eqb d "034"); discriminate.
  - destruct (Ascii.eqb c "034"); discriminate.
  - destruct (Ascii.eqb_spec c "034") as [->|Hc], (Ascii.eqb_spec d "034") as [->|Hd].
    + intros [= E]. f_equal. by apply IH.
    + intros [= E _]. congruence.
    + intros [= E _]. congruence.
    + intros [= -> E]. f_equal. by apply IH.
Qed.

(** A string without a quote does not start with one. *)
Lemma plain_is_not_quoted (s rest : string) :
  includes "034" s = false -> s <> String "034" rest.
Proof. intros H ->. cbn in H. discriminate. Qed.

Section Formatter.

Variable coerce : JSValue -> option Q.
Variable text_of : JSValue -> string.

#[local] Open Scope Q_scope.

#[local] Abbreviation calculateLeadScore := (calculateLeadScore coerce).
#[local] Abbreviation escapeCSVField := (escapeCSVField text_of).

(** X24: [escapeCSVField] never maps two different strings to the same CSV
    field: quoted or not, the field determines the string it was made
    from. *)
Theorem escapeCSVField_is_injective_on_strings (s1 s2 : string) :
  escapeCSVField (JStr s1) = escapeCSVField (JStr s2) -> s1 = s2.
Proof.
  unfold ResponseFormatter.escapeCSVField. cbn [strict_eq orb].
  destruct (includes "," s1 || includes "034" s1 || includes "010" s1) eqn:Q1,
           (includes "," s2 || includes "034" s2 || includes "010" s2) eqn:Q2.
  - intros [= E]. apply append_cancel_r in E. by apply double_quotes_inj.
  - intros E. exfalso. symmetry in E. revert E. apply plain_is_not_quoted.
    apply orb_false_iff in Q2 as [Q2 _]. by apply orb_false_iff in Q2 as [_ Q2].
  - intros E. exfalso. revert E. apply plain_is_not_quoted.
    apply orb_false_iff in Q1 as [Q1 _]. by apply orb_false_iff in Q1 as [_ Q1].
  - auto.
Qed.

Lemma Qle_bool_inject (a b : Z) : Qle_bool (inject_Z a) (inject_Z b) = (a <=? b)%Z.
Proof. unfold Qle_bool, inject_Z. cbn. by rewrite !Z.mul_1_r. Qed.

Lemma rounded_within (base c : Q) (top : Z) :
  0 <= c -> c <= 100 -> 0 <= base -> base == inject_Z top ->
  (0 <= Qfloor (base * c / 100 + (1 # 2)) <= top)%Z.
Proof.
  intros C0 C1 B0 Bt. split.
  - change 0%Z with (Qfloor (1 # 2)). apply Qfloor_resp_le.
    assert (0 <= base * c / 100) by (apply Qle_shift_div_l; [reflexivity|]; nra).
    lra.
  - assert (E : Qfloor (inject_Z top + (1 # 2)) = top).
    { apply Z.le_antisymm.
      - apply Z.lt_succ_r. rewrite Zlt_Qlt.
        eapply Qle_lt_trans; [apply Qfloor_le|].
        rewrite <- Z.add_1_r, inject_Z_plus. change (inject_Z 1) with 1. lra.
      - rewrite <- (Qfloor_Z top) at 1. apply Qfloor_resp_le. lra. }
    rewrite <- E. apply Qfloor_resp_le.
    assert (base * c / 100 <= base)
      by (apply Qle_shift_div_r; [reflexivity|]; nra).
    lra.
Qed.

(** X25: with a numeric confidence between 0 and 100 the lead score is a
    whole number between 0 and the score of the report's quality level (85,
    65 or 35), less 15 when a discrepancy was detected. *)
Theorem lead_score_within_tier (qualityReport : QualityReport) (c : Q) :
  to_number coerce (report_confidence qualityReport) = Some c ->
  0 <= c <= 100 ->
  exists (q : Q) (n : Z),
    calculateLeadScore qualityReport = Some q
    /\ q == inject_Z n
    /\ (0 <= n <= ceiling qualityReport)%Z.
Proof.
  intros Hc [C0 C1]. unfold ResponseFormatter.calculateLeadScore, ceiling, tier_score.
  rewrite Hc. unfold Math_round, Math_max, Math_min. cbn [mbind option_bind].
  set (base := match report_qualityScore qualityReport with
               | high => 85 | medium => 65 | low => 35 end).
  assert (R : (0 <= Qfloor (base * c / 100 + (1 # 2))
               <= match report_qualityScore qualityReport with
                  | high => 85 | medium => 65 | low => 35 end)%Z).
  { subst base. destruct (report_qualityScore qualityReport);
      apply rounded_within; try assumption; try reflexivity; lra. }
  set (n0 := Qfloor (base * c / 100 + (1 # 2))) in *. clearbody n0. clear Hc.
  assert (T : (35 <= match report_qualityScore qualityReport with
                     | high => 85 | medium => 65 | low => 35 end <= 85)%Z)
    by (destruct (report_qualityScore qualityReport); lia).
  set (top := match report_qualityScore qualityReport with
              | high => 85%Z | medium => 65%Z | low => 35%Z end) in *.
  clearbody top. clear base.
  assert (M : inject_Z n0 - 15 == inject_Z (n0 - 15)).
  { unfold Z.sub. rewrite inject_Z_plus, inject_Z_opp. reflexivity. }
  destruct (rd_detected (report_discrepancy qualityReport)); cbn [mbind option_bind].
  - change 0 with (inject_Z 0). change 100 with (inject_Z 100).
    rewrite (Qleb_comp _ _ (reflexivity (inject_Z 0)) _ _ M), Qle_bool_inject.
    destruct (0 <=? n0 - 15)%Z eqn:P; [apply Z.leb_le in P|apply Z.leb_gt in P].
    + rewrite (Qleb_comp _ _ (reflexivity (inject_Z 0)) _ _ M), Qle_bool_inject.
      rewrite (proj2 (Z.leb_le _ _) P).
      rewrite (Qleb_comp _ _ (reflexivity (inject_Z 100)) _ _ M), Qle_bool_inject.
      rewrite (proj2 (Z.leb_gt _ _)) by lia.
      exists (inject_Z n0 - 15), (n0 - 15)%Z. split; [reflexivity|]. split; [exact M|lia].
    + rewrite !Qle_bool_inject. cbn.
      exists (inject_Z 0), 0%Z. split; [reflexivity|]. split; [reflexivity|lia].
  - change 0 with (inject_Z 0). change 100 with (inject_Z 100).
    rewrite !Qle_bool_inject.
    rewrite (proj2 (Z.leb_le 0 n0)) by lia. rewrite Qle_bool_inject.
    rewrite (proj2 (Z.leb_gt _ _)) by lia.
    exists (inject_Z n0), n0. split; [reflexivity|]. split; [reflexivity|lia].
Qed.

(** X26: when the confidence of the report is not a number (it is
    undefined, NaN, or a value that does not convert), the lead score is NaN
    rather than a number between 0 and 100: neither the penalty nor the
    final clamp turns it back into a number. *)
Theorem lead_score_is_not_a_number_without_confidence (qualityReport : QualityReport) :
  to_number coerce (report_confidence qualityReport) = None ->
  calculateLeadScore qualityReport = None.
Proof.
  intros Hc. unfold ResponseFormatter.calculateLeadScore. rewrite Hc.
  destruct (rd_detected (report_discrepancy qualityReport)); reflexivity.
Qed.

End Formatter.

(** Two fields that need quoting. *)
Lemma escapeCSVField_is_injective_on_strings_witness : "Austin, TX" = "Austin, TX".
Proof.
  apply (escapeCSVField_is_injective_on_strings MoreSamples.sample_stringify
           "Austin, TX" "Austin, TX").
  reflexivity.
Defined.

(** A medium report at confidence 70 with a detected discrepancy: the score
    is 31, within the bound of 50. *)
Lemma lead_score_within_tier_witness :
  exists (q : Q) (n : Z),
    ResponseFormatter.calculateLeadScore Samples.no_coercion
      (MoreSamples.sample_report medium (JNum 70) true) = Some q
    /\ (q == inject_Z n)%Q
    /\ (0 <= n <= ceiling (MoreSamples.sample_report medium (JNum 70) true))%Z.
Proof.
  apply (lead_score_within_tier Samples.no_coercion
           (MoreSamples.sample_report medium (JNum 70) true) 70).
  - reflexivity.
  - split; vm_compute; discriminate.
Defined.

(** A report whose confidence is a text. *)
Lemma lead_score_is_not_a_number_without_confidence_witness :
  ResponseFormatter.calculateLeadScore Samples.no_coercion
    (MoreSamples.sample_report high (JStr "high") false) = None.
Proof.
  apply (lead_score_is_not_a_number_without_confidence Samples.no_coercion
           (MoreSamples.sample_report high (JStr "high") false)).
  reflexivity.
Defined.

End FormatterProps.

(** ** The route of the visual validation *)
Module RouteProps.
Import VisualInspector Routes.

Section Validation.

Variable coerce : JSValue -> option Q.
Variable trim : string -> string.
Variable query_string : JSValue -> JSValue -> string -> string.
Variable respond : History -> Endpoint -> Result string.
Variable config : Config.

#[local] Abbreviation Number_ := (Number_ coerce).
#[local] Abbreviation validateVisualValidationParams :=
  (validateVisualValidationParams coerce trim).
#[local] Abbreviation getGoogleMapsStaticImage :=
  (getGoogleMapsStaticImage query_string respond config).

Lemma inside_range (v : JSValue) (low high q : Q) :
  outside coerce v low high = false -> Number_ v = JNum q -> (low <= q <= high)%Q.
Proof.
  unfold outside, Routes.Number_. destruct (to_number coerce v) as [x|]; [|discriminate].
  intros O [= ->]. apply orb_false_iff in O as [O1 O2].
  apply negb_false_iff in O1, O2. by split; apply Qle_bool_iff.
Qed.

Lemma numeric_or_nan (v : JSValue) :
  not_numeric coerce v = false -> Number_ v = JNaN -> v = JNaN.
Proof.
  unfold not_numeric, Routes.Number_.
  destruct (to_number coerce v) as [x|] eqn:T; [discriminate|].
  rewrite andb_true_r. intros Hn _. apply negb_false_iff in Hn.
  destruct v; cbn in Hn, T; try discriminate. reflexivity.
Qed.

(** X27: what the route of the visual validation has established when its
    validator accepts a request: the lead type is one of the two supported
    by the inspector; the latitude and the longitude, converted by
    [Number], lie in [-90, 90] and [-180, 180] whenever they are numbers, and
    are NaN only if the request carried NaN itself; and with an imagery key
    configured the inspector passes its own checks and requests the
    satellite image. *)
Theorem validated_request_reaches_imagery (params : list (string * JSValue)) (h : History) :
  validateVisualValidationParams params = Ok tt ->
  supported (lookup_field "lead_type" params) = true
  /\ (forall q, Number_ (lookup_field "latitude" params) = JNum q -> (-90 <= q <= 90)%Q)
  /\ (forall q, Number_ (lookup_field "longitude" params) = JNum q -> (-180 <= q <= 180)%Q)
  /\ (Number_ (lookup_field "latitude" params) = JNaN ->
      lookup_field "latitude" params = JNaN)
  /\ (Number_ (lookup_field "longitude" params) = JNaN ->
      lookup_field "longitude" params = JNaN)
  /\ (configured (googleMapsApiKey config) = true ->
      exists r,
        run (getGoogleMapsStaticImage (Number_ (lookup_field "latitude" params))
               (Number_ (lookup_field "longitude" params))) h
        = (r, h ++ [GoogleStaticMap])).
Proof.
  unfold Routes.validateVisualValidationParams.
  set (latitude := lookup_field "latitude" params).
  set (longitude := lookup_field "longitude" params).
  set (lead_type := lookup_field "lead_type" params).
  destruct (strict_eq latitude JUndefined || strict_eq latitude JNull); [discriminate|].
  destruct (not_numeric coerce latitude) eqn:N1; [discriminate|].
  destruct (outside coerce latitude (-90) 90) eqn:O1; [discriminate|].
  destruct (strict_eq longitude JUndefined || strict_eq longitude JNull); [discriminate|].
  destruct (not_numeric coerce longitude) eqn:N2; [discriminate|].
  destruct (outside coerce longitude (-180) 180) eqn:O2; [discriminate|].
  destruct (blank trim lead_type); [discriminate|].
  destruct (supported lead_type) eqn:S; [|discriminate].
  intros _. split; [reflexivity|].
  split; [intros q; by apply inside_range|].
  split; [intros q; by apply inside_range|].
  split; [by apply numeric_or_nan|].
  split; [by apply numeric_or_nan|].
  intros K. unfold VisualInspector.getGoogleMapsStaticImage. rewrite K. cbn [negb].
  assert (T : forall v, String.eqb (typeof (Number_ v)) "number" = true).
  { intros v. unfold Routes.Number_. by destruct (to_number coerce v). }
  rewrite !T. cbn [negb orb].
  unfold io_try, request, mbind, io_bind, mret, io_ret. cbn [run].
  destruct (respond h GoogleStaticMap); eexists; reflexivity.
Qed.

End Validation.

(** A request for a PoolLeadGen validation in Austin. *)
Lemma validated_request_reaches_imagery_witness :
  supported (lookup_field "lead_type" MoreSamples.coordinates_first) = true
  /\ (forall q,
         Number_ Samples.no_coercion (lookup_field "latitude" MoreSamples.coordinates_first)
         = JNum q -> (-90 <= q <= 90)%Q)
  /\ (forall q,
         Number_ Samples.no_coercion (lookup_field "longitude" MoreSamples.coordinates_first)
         = JNum q -> (-180 <= q <= 180)%Q)
  /\ (Number_ Samples.no_coercion (lookup_field "latitude" MoreSamples.coordinates_first)
      = JNaN ->
      lookup_field "latitude" MoreSamples.coordinates_first = JNaN)
  /\ (Number_ Samples.no_coercion (lookup_field "longitude" MoreSamples.coordinates_first)
      = JNaN ->
      lookup_field "longitude" MoreSamples.coordinates_first = JNaN)
  /\ (configured (googleMapsApiKey Samples.all_keys) = true ->
      exists r,
        run (getGoogleMapsStaticImage Samples.sample_query Samples.steady_world
               Samples.all_keys
               (Number_ Samples.no_coercion
                  (lookup_field "latitude" MoreSamples.coordinates_first))
               (Number_ Samples.no_coercion
                  (lookup_field "longitude" MoreSamples.coordinates_first))) []
        = (r, [] ++ [GoogleStaticMap])).
Proof.
  apply (validated_request_reaches_imagery Samples.no_coercion MoreSamples.sample_trim
           Samples.sample_query Samples.steady_world Samples.all_keys
           MoreSamples.coordinates_first []).
  vm_compute. reflexivity.
Defined.

End RouteProps.

(** ** Batches for several lead types *)
Module MultipleProps.
Import LeadQualityService BatchLeadService VisualInspector Orchestrator BatchInvariants.

Lemma assign_keys {V : Type} (key : string) (entry : V) (results : list (string * V))
  (k : string) :
  k ∈ map fst (assign key entry results) <-> k = key \/ k ∈ map fst results.
Proof.
  induction results as [|[k' e] rest IH]; cbn.
  - rewrite list_elem_of_singleton, elem_of_nil. tauto.
  - destruct (String.eqb_spec key k') as [->|Hk]; cbn.
    + rewrite !elem_of_cons. tauto.
    + rewrite !elem_of_cons, IH. tauto.
Qed.

Lemma assign_NoDup {V : Type} (key : string) (entry : V) (results : list (string * V)) :
  NoDup (map fst results) -> NoDup (map fst (assign key entry results)).
Proof.
  induction results as [|[k' e] rest IH]; cbn; intros N.
  - apply NoDup_singleton.
  - apply NoDup_cons in N as [Hin N].
    destruct (String.eqb_spec key k') as [->|Hk]; cbn.
    + by apply NoDup_cons.
    + apply NoDup_cons. split; [|by apply IH].
      rewrite assign_keys. intros [C|C]; [congruence|contradiction].
Qed.

Lemma assign_failed (key : string) (entry : TypeResult) (results : list (string * TypeResult)) :
  (exists message leadType, entry = Failed message leadType) ->
  Forall failed results -> Forall failed (assign key entry results).
Proof.
  intros F. induction results as [|[k' e] rest IH]; cbn; intros A.
  - constructor; [exact F|constructor].
  - apply Forall_cons in A as [A1 A2].
    destruct (String.eqb key k'); constructor; auto.
Qed.

Lemma assign_nonempty {V : Type} (key : string) (entry : V) (results : list (string * V)) :
  assign key entry results <> [].
Proof. destruct results as [|[k' e] rest]; cbn; [|destruct (String.eqb key k')]; discriminate. Qed.

Lemma store_keys {V : Type} (key : string) (entry : V) (results : list (string * V))
  (k : string) :
  k ∈ map fst (store key entry results)
  <-> (k = key /\ own_key key = true) \/ k ∈ map fst results.
Proof.
  unfold store, own_key. destruct (String.eqb key "__proto__"); cbn [negb].
  - split; [auto|]. intros [[_ C]|C]; [discriminate|exact C].
  - rewrite assign_keys. split; [intros [->|?]; auto|intros [[-> _]|?]; auto].
Qed.

Lemma store_NoDup {V : Type} (key : string) (entry : V) (results : list (string * V)) :
  NoDup (map fst results) -> NoDup (map fst (store key entry results)).
Proof.
  unfold store. destruct (String.eqb key "__proto__"); [auto|apply assign_NoDup].
Qed.

Lemma store_failed (key : string) (entry : TypeResult) (results : list (string * TypeResult)) :
  (exists message leadType, entry = Failed message leadType) ->
  Forall failed results -> Forall failed (store key entry results).
Proof.
  unfold store. destruct (String.eqb key "__proto__"); [auto|apply assign_failed].
Qed.

Lemma store_empty {V : Type} (key : string) (entry : V) (results : list (string * V)) :
  store key entry results = [] <-> results = [] /\ own_key key = false.
Proof.
  unfold store, own_key. destruct (String.eqb key "__proto__"); cbn [negb].
  - split; [auto|]. by intros [-> _].
  - split; [|intros [_ C]; discriminate].
    intros C. by apply assign_nonempty in C.
Qed.

Lemma failed_entries_do_not_succeed (results : list (string * TypeResult)) :
  Forall failed results -> results <> [] -> forallb succeeded (map snd results) = false.
Proof.
  intros F N. destruct results as [|[k e] rest]; [contradiction|].
  apply Forall_cons in F as [(message & leadType & E) _]. cbn in E. subst e. reflexivity.
Qed.

Section Batch.

Variable coerce : JSValue -> option Q.
Variable JSON_parse : string -> Result JSValue.
Variable JSON_stringify : JSValue -> string.
Variable query_string : JSValue -> JSValue -> string -> string.
Variable now : string.
Variable respond : History -> Endpoint -> Result string.
Variable config : Config.
Variable stdTTL : Z.
Variable number_key : Q -> string.
Variable clock : nat -> Z.
Variable toFixed2 : Q -> string.
Variable mean_confidence : list JSValue -> JSValue.
Context {Id : Type} `{Countable Id}.
Variable searchProperties : SearchRequest -> Result (option (list (Property (Id := Id)))).
Variable property_key : JSValue -> string.

#[local] Abbreviation getBatchLeads :=
  (getBatchLeads coerce JSON_parse JSON_stringify query_string now respond config stdTTL
     number_key clock toFixed2 mean_confidence searchProperties).
#[local] Abbreviation multiple_loop :=
  (multiple_loop coerce JSON_parse JSON_stringify query_string now respond config stdTTL
     number_key clock toFixed2 mean_confidence searchProperties property_key).
#[local] Abbreviation getBatchLeadsMultiple :=
  (getBatchLeadsMultiple coerce JSON_parse JSON_stringify query_string now respond config
     stdTTL number_key clock toFixed2 mean_confidence searchProperties property_key).
#[local] Abbreviation type_key := (type_key property_key).

(** The [try] block of the loop and its [catch] always produce an entry. *)
Lemma entry_is_produced (location leadType requestedLeads : JSValue) (w : World) :
  exists entry w1,
    perform (attempt
               (result ← getBatchLeads location leadType requestedLeads;
                mret (Delivered result))
               (fun message => mret (Failed message leadType))) w
    = (Ok entry, w1)
    /\ (forall e, perform (getBatchLeads location leadType requestedLeads) w = (Throw e, w) ->
        entry = Failed e leadType /\ w1 = w).
Proof.
  unfold attempt, mbind, task_bind, mret, task_ret. cbn [perform].
  destruct (perform (getBatchLeads location leadType requestedLeads) w) as [[result|e] w1].
  - eexists _, _. split; [reflexivity|]. discriminate.
  - eexists _, _. split; [reflexivity|]. intros e' [= -> ->]. auto.
Qed.

Lemma loop_step (location leadType requestedLeads : JSValue) (rest : list JSValue)
  (results : list (string * TypeResult)) (w w1 : World) (entry : TypeResult) :
  perform (attempt
             (result ← getBatchLeads location leadType requestedLeads;
              mret (Delivered result))
             (fun message => mret (Failed message leadType))) w
  = (Ok entry, w1) ->
  perform (multiple_loop location (leadType :: rest) requestedLeads results) w
  = perform (multiple_loop location rest requestedLeads
               (store (type_key leadType) entry results)) w1.
Proof.
  intros E. cbn [Orchestrator.multiple_loop].
  unfold mbind at 1. unfold task_bind at 1. cbn [perform]. rewrite E. reflexivity.
Qed.

Lemma multiple_loop_ok (location requestedLeads : JSValue) (leadTypes : list JSValue) :
  forall (results : list (string * TypeResult)) (w : World),
  exists results' w',
    perform (multiple_loop location leadTypes requestedLeads results) w = (Ok results', w')
    /\ (forall k, k ∈ map fst results'
                  <-> k ∈ map fst results
                      \/ (k ∈ map type_key leadTypes /\ own_key k = true))
    /\ (NoDup (map fst results) -> NoDup (map fst results')).
Proof.
  induction leadTypes as [|leadType rest IH]; intros results w.
  - exists results, w. split; [reflexivity|]. split; [|auto].
    intros k. cbn. rewrite elem_of_nil. tauto.
  - destruct (entry_is_produced location leadType requestedLeads w) as (entry & w1 & E & _).
    rewrite (loop_step _ _ _ _ _ _ _ _ E).
    destruct (IH (store (type_key leadType) entry results) w1)
      as (results' & w' & -> & K & N).
    exists results', w'. split; [reflexivity|]. split.
    + intros k. rewrite K, store_keys. cbn [map]. rewrite elem_of_cons.
      split.
      * intros [[[-> O]|?]|[? ?]]; auto.
      * intros [?|[[->|?] O]]; auto.
    + intros D. by apply N, store_NoDup.
Qed.

Lemma refused_batch_throws (location leadType requestedLeads : JSValue) (w : World) :
  refused location requestedLeads ->
  exists e, perform (getBatchLeads location leadType requestedLeads) w = (Throw e, w).
Proof.
  intros Hbad. unfold Orchestrator.getBatchLeads.
  destruct location as [| | | | |place| |];
    try (eexists; reflexivity).
  destruct (truthy (JStr place)) eqn:T; cbn [negb]; [|eexists; reflexivity].
  destruct (supported leadType) eqn:S; cbn [negb]; [|eexists; reflexivity].
  destruct (requested_size requestedLeads) as [n|] eqn:R; [|eexists; reflexivity].
  exfalso. destruct Hbad as [Hf|[Hty|Hn]]; [congruence| |congruence].
  apply Hty. reflexivity.
Qed.

Lemma refused_loop (location requestedLeads : JSValue) (leadTypes : list JSValue) :
  refused location requestedLeads ->
  forall (results : list (string * TypeResult)) (w : World),
    Forall failed results ->
    exists results',
      perform (multiple_loop location leadTypes requestedLeads results) w = (Ok results', w)
      /\ Forall failed results'
      /\ (results' = []
          <-> results = [] /\ forallb (fun t => negb (own_key (type_key t))) leadTypes = true).
Proof.
  intros Hbad. induction leadTypes as [|leadType rest IH]; intros results w F.
  - exists results. split; [reflexivity|]. split; [exact F|]. cbn. tauto.
  - destruct (refused_batch_throws location leadType requestedLeads w Hbad) as (e & T).
    destruct (entry_is_produced location leadType requestedLeads w) as (entry & w1 & E & U).
    destruct (U e T) as [-> ->].
    rewrite (loop_step _ _ _ _ _ _ _ _ E).
    destruct (IH (store (type_key leadType) (Failed e leadType) results) w)
      as (results' & -> & F' & N).
    { apply store_failed; [eauto|exact F]. }
    exists results'. split; [reflexivity|]. split; [exact F'|].
    rewrite N, store_empty. cbn [forallb]. rewrite andb_true_iff, negb_true_iff. tauto.
Qed.



End Batch.


End MultipleProps.

(** ** The validity predicate *)
Module ValidityExtras.
Import BatchLeadService.

Lemma strict_eq_bool (v : JSValue) (b : bool) : strict_eq v (JBool b) = true <-> v = JBool b.
Proof.
  split; [|intros ->; by destruct b].
  destruct v as [| |x| | | | |]; cbn; try discriminate.
  intros E. apply Bool.eqb_prop in E. by subst.
Qed.

Lemma strict_eq_text (v : JSValue) (s : string) : strict_eq v (JStr s) = true <-> v = JStr s.
Proof.
  split; [|intros ->; cbn; apply String.eqb_refl].
  destruct v as [| | | | |x| |]; cbn; try discriminate.
  intros E. apply String.eqb_eq in E. by subst.
Qed.

Lemma js_ge_number (coerce : JSValue -> option Q) (v : JSValue) (n : Q) :
  js_ge coerce v n = true <-> exists q, to_number coerce v = Some q /\ (n <= q)%Q.
Proof.
  unfold js_ge. destruct (to_number coerce v) as [q|].
  - rewrite Qle_bool_iff. split; [eauto|]. by intros (q' & [= <-] & ?).
  - split; [discriminate|]. by intros (q' & [=] & _).
Qed.

Section Validity.

Variable coerce : JSValue -> option Q.

#[local] Abbreviation isValidLead := (isValidLead coerce).

(** X30: what [isValidLead] demands: it returns [true] exactly when the
    property is truthy, the validation has a truthy analysis whose
    confidence converts to a number of at least 60, and either the lead type
    is PoolLeadGen and [has_pool] is the boolean [true], or the lead type is
    BackyardBoost, [is_empty_backyard] is the boolean [false] (a backyard
    reported empty is refused) and [surface_type] is not 'concrete'. *)
Theorem valid_lead_iff_criteria (property leadType visualValidation : JSValue) :
  isValidLead property leadType visualValidation = Ok (JBool true)
  <-> truthy property = true
      /\ exists analysis c q,
          get visualValidation "analysis" = Ok analysis
          /\ truthy analysis = true
          /\ get analysis "confidence" = Ok c
          /\ to_number coerce c = Some q
          /\ (60 <= q)%Q
          /\ ((leadType = JStr "PoolLeadGen" /\ get analysis "has_pool" = Ok (JBool true))
              \/ (leadType = JStr "BackyardBoost"
                  /\ get analysis "is_empty_backyard" = Ok (JBool false)
                  /\ exists s, get analysis "surface_type" = Ok s /\ s <> JStr "concrete")).
Proof.
  unfold BatchLeadService.isValidLead, missing_input. split.
  - destruct (truthy property) eqn:Tp; cbn [negb mbind result_bind mret result_ret];
      [|discriminate].
    destruct (truthy visualValidation) eqn:Tv; cbn [negb mbind result_bind mret result_ret];
      [|discriminate].
    destruct (get visualValidation "analysis") as [analysis|e] eqn:Ga;
      cbn [negb mbind result_bind mret result_ret]; [|discriminate].
    destruct (truthy analysis) eqn:Ta; cbn [negb]; [|discriminate].
    destruct (strict_eq leadType (JStr "PoolLeadGen")) eqn:Lp.
    + apply strict_eq_text in Lp.
      destruct (get analysis "has_pool") as [has_pool|e] eqn:Gh;
        cbn [mbind result_bind]; [|discriminate].
      destruct (strict_eq has_pool (JBool true)) eqn:Hp; [|discriminate].
      apply strict_eq_bool in Hp. subst has_pool.
      destruct (get analysis "confidence") as [c|e] eqn:Gc;
        cbn [mbind result_bind]; [|discriminate].
      intros [= J]. apply js_ge_number in J as (q & Hq & Hle).
      split; [reflexivity|]. exists analysis, c, q. auto 10.
    + destruct (strict_eq leadType (JStr "BackyardBoost")) eqn:Lb; [|discriminate].
      apply strict_eq_text in Lb.
      destruct (get analysis "is_empty_backyard") as [empty|e] eqn:Ge;
        cbn [mbind result_bind]; [|discriminate].
      destruct (strict_eq empty (JBool false)) eqn:He; [|discriminate].
      apply strict_eq_bool in He. subst empty.
      destruct (get analysis "confidence") as [c|e] eqn:Gc;
        cbn [mbind result_bind]; [|discriminate].
      destruct (js_ge coerce c 60) eqn:J; [|discriminate].
      apply js_ge_number in J as (q & Hq & Hle).
      destruct (get analysis "surface_type") as [s|e] eqn:Gs;
        cbn [mbind result_bind]; [|discriminate].
      intros [= N]. apply negb_true_iff in N.
      split; [reflexivity|]. exists analysis, c, q.
      do 5 (split; [first [assumption | reflexivity]|]).
      right. split; [assumption|]. split; [assumption|].
      exists s. split; [assumption|]. intros ->. cbn in N. discriminate.
  - intros (Tp & analysis & c & q & Ga & Ta & Gc & Hq & Hle & Hkind).
    assert (Tv : truthy visualValidation = true).
    { destruct visualValidation; cbn in Ga |- *; try discriminate; try reflexivity;
        injection Ga as <-; discriminate. }
    assert (J : js_ge coerce c 60 = true) by (apply js_ge_number; eauto).
    rewrite Tp, Tv. cbn [negb]. rewrite Ga. cbn [mbind result_bind mret result_ret].
    rewrite Ta. cbn [negb].
    destruct Hkind as [[-> Gh]|(-> & Ge & s & Gs & Ns)].
    + cbn [strict_eq]. rewrite String.eqb_refl, Gh. cbn [mbind result_bind strict_eq Bool.eqb].
      rewrite Gc. cbn [mbind result_bind]. by rewrite J.
    + change (strict_eq (JStr "BackyardBoost") (JStr "PoolLeadGen")) with false.
      cbn match. cbn [strict_eq]. rewrite String.eqb_refl, Ge.
      cbn [mbind result_bind strict_eq Bool.eqb]. rewrite Gc. cbn [mbind result_bind].
      rewrite J, Gs. cbn [mbind result_bind]. do 2 f_equal. apply negb_true_iff.
      destruct (strict_eq s (JStr "concrete")) eqn:C; [|reflexivity].
      apply strict_eq_text in C. contradiction.
Qed.

End Validity.

End ValidityExtras.
